(** * Blackbox team HUD: telemetry processor and WebSocket client

    A shallow embedding of the two JavaScript classes that carry the logic
    of the dashboard's real-time pipeline:

    - [TelemetryProcessor] (telemetry-processor.js): the current snapshot,
      the derived values, the rolling history and the strategy suggestions;
    - [BlackboxWebSocketClient] (websocket-client.js): connection life
      cycle, heartbeat, reconnection back-off and message dispatch.

    JavaScript numbers are IEEE 754 binary64 values; they are modelled by
    Rocq's primitive floats, which implement the same format and rounding.
    Integer quantities that the client only counts or multiplies by small
    factors (attempt counters, millisecond delays) are modelled in [Z]. *)

From Stdlib Require Import Floats ZArith.
From stdpp Require Import gmap strings list pretty.

Set Warnings "-inexact-float,-register-all".
Local Open Scope string_scope.
Local Open Scope list_scope.

(** ** JavaScript values *)

Module JS.

(** JSON-shaped values.  An object is the list of its own enumerable
    properties in property order; a well-formed object has no repeated
    key. *)
Inductive value : Type :=
| VUndefined
| VNull
| VBool (b : bool)
| VNum (x : float)
| VStr (s : string)
| VArr (items : list value)
| VObj (props : list (string * value)).

(** [o[k]] on a property list: the first binding of [k]. *)
Fixpoint assoc {A : Type} (k : string) (o : list (string * A)) : option A :=
  match o with
  | [] => None
  | (k', v) :: o' => if decide (k = k') then Some v else assoc k o'
  end.

(** Reading a property that is absent yields [undefined]. *)
Definition prop (o : list (string * value)) (k : string) : value :=
  default VUndefined (assoc k o).

Definition keys {A : Type} (o : list (string * A)) : list string := o.*1.

(** [this.currentData.k] on a snapshot held as a finite map. *)
Definition field (d : gmap string value) (k : string) : value :=
  default VUndefined (d !! k).

(** ToNumber on the primitives whose conversion is a table lookup.  Strings
    (parsed as numeric literals by the engine) and objects (converted
    through ToPrimitive) are outside the modelled fragment: [None]. *)
Definition ToNumber (v : value) : option float :=
  match v with
  | VUndefined => Some nan
  | VNull => Some 0%float
  | VBool true => Some 1%float
  | VBool false => Some 0%float
  | VNum x => Some x
  | VStr _ | VArr _ | VObj _ => None
  end.

(** ToBoolean. *)
Definition truthy (v : value) : bool :=
  match v with
  | VUndefined | VNull => false
  | VBool b => b
  | VNum x => negb (PrimFloat.is_zero x || PrimFloat.is_nan x)
  | VStr s => negb (String.eqb s "")
  | VArr _ | VObj _ => true
  end.

Definition num_binop (f : float → float → float) (a b : value) : option float :=
  x ← ToNumber a; y ← ToNumber b; Some (f x y).

(** [a / b], [a * b] and the numeric case of [a + b]. *)
Definition js_div : value → value → option float := num_binop PrimFloat.div.
Definition js_mul : value → value → option float := num_binop PrimFloat.mul.
Definition js_add : value → value → option float := num_binop PrimFloat.add.

(** [a < b] and [a > b] on operands that convert to numbers; a comparison
    with NaN is false. *)
Definition js_lt (a b : value) : option bool :=
  x ← ToNumber a; y ← ToNumber b; Some (PrimFloat.ltb x y).
Definition js_gt (a b : value) : option bool := js_lt b a.

(** [Object.values(v)]: [None] stands for the TypeError on [undefined] and
    [null], and for strings, whose characters are not modelled. *)
Definition Object_values (v : value) : option (list value) :=
  match v with
  | VObj o => Some (o.*2)
  | VArr l => Some l
  | VBool _ | VNum _ => Some []
  | VUndefined | VNull | VStr _ => None
  end.

(** [Object.keys(v)], with the same conventions. *)
Definition Object_keys (v : value) : option (list string) :=
  match v with
  | VObj o => Some (keys o)
  | VArr l => Some (pretty <$> seq 0 (length l))
  | VBool _ | VNum _ => Some []
  | VUndefined | VNull | VStr _ => None
  end.

(** [v[k]] for a string key [k]: a property of an object or an element of
    an array; other receivers have none of the keys used here. *)
Definition member (v : value) (k : string) : value :=
  match v with
  | VObj o => prop o k
  | VArr l =>
      default VUndefined
        (i ← fst <$> list_find (λ i, pretty i = k) (seq 0 (length l)); l !! i)
  | _ => VUndefined
  end.

(** [v === s] for a string literal [s]. *)
Definition is_str (v : value) (s : string) : bool :=
  match v with
  | VStr s' => String.eqb s' s
  | _ => false
  end.

(** The length of an array as a number. *)
Definition of_nat (n : nat) : float := PrimFloat.of_uint63 (Uint63.of_Z (Z.of_nat n)).

(** [l.reduce((sum, temp) => sum + temp, acc)] *)
Fixpoint reduce_sum (l : list value) (acc : float) : option float :=
  match l with
  | [] => Some acc
  | temp :: l' => s ← js_add (VNum acc) temp; reduce_sum l' s
  end.

(** [Math.max(x, y)]: NaN if either argument is NaN, and +0 above -0. *)
Definition max2 (x y : float) : float :=
  if PrimFloat.is_nan x || PrimFloat.is_nan y then nan
  else if PrimFloat.ltb x y then y
  else if PrimFloat.ltb y x then x
  else if PrimFloat.is_zero x && PrimFloat.get_sign x then y
  else x.

(** [Math.max(...l)], which is -Infinity on no argument. *)
Fixpoint Math_max (l : list value) (acc : float) : option float :=
  match l with
  | [] => Some acc
  | v :: l' => x ← ToNumber v; Math_max l' (max2 acc x)
  end.

End JS.

(** ** The telemetry processor: snapshot and derived values *)

Module Telemetry.
Import JS.

Definition corners (fl fr rl rr : float) : value :=
  VObj [("fl", VNum fl); ("fr", VNum fr); ("rl", VNum rl); ("rr", VNum rr)].

(** [this.currentData] as the constructor builds it. *)
Definition initialProps : list (string * value) :=
    [ ("speed", VNum 0); ("maxSpeed", VNum 0); ("gear", VStr "N"); ("rpm", VNum 0);
      ("throttle", VNum 0); ("brake", VNum 0); ("clutch", VNum 0);
      ("steeringAngle", VNum 0);
      ("engineTemp", VNum 0); ("oilPressure", VNum 0); ("oilTemp", VNum 0);
      ("boostLevel", VNum 0); ("engineMap", VStr "MAP1"); ("pitLimiter", VBool false);
      ("engineHealth", VNum 100);
      ("fuelLevel", VNum 0); ("fuelCapacity", VNum 100); ("fuelUsagePerLap", VNum 0);
      ("estimatedLapsRemaining", VNum 0); ("pitWindowOpen", VBool false);
      ("tireTemps", corners 0 0 0 0); ("tirePressures", corners 0 0 0 0);
      ("tireWear", corners 0 0 0 0); ("tireSlipRatio", VNum 0);
      ("rideHeight", VNum 0); ("suspensionTravel", VNum 0);
      ("camber", corners 0 0 0 0); ("toe", corners 0 0 0 0);
      ("currentLapTime", VNum 0); ("lastLapTime", VNum 0); ("bestLapTime", VNum 0);
      ("deltaToOptimal", VNum 0); ("sectorTimes", VArr [VNum 0; VNum 0; VNum 0]);
      ("position", VNum 1); ("gapAhead", VNum 0); ("gapBehind", VNum 0);
      ("sessionType", VStr "PRACTICE"); ("currentLap", VNum 1); ("totalLaps", VNum 0);
      ("timeRemaining", VNum 0); ("flagStatus", VStr "GREEN");
      ("trackTemp", VNum 20); ("airTemp", VNum 18); ("trackCondition", VStr "DRY");
      ("trackName", VStr "SILVERSTONE CIRCUIT");
      ("drsStatus", VStr "CLOSED"); ("kersLevel", VNum 0);
      ("incidentCount", VNum 0); ("penaltyTime", VNum 0);
      ("brakeTemp", corners 0 0 0 0); ("brakePressure", VNum 0);
      ("positionX", VNum 0); ("positionY", VNum 0); ("positionZ", VNum 0);
      ("velocityX", VNum 0); ("velocityY", VNum 0); ("velocityZ", VNum 0) ].

Definition initialData : gmap string value := list_to_map initialProps.

(** The properties [initializeDemoData] spreads over the current data. *)
Definition demoOverrides : list (string * value) :=
  [ ("speed", VNum 287); ("maxSpeed", VNum 320); ("gear", VStr "7"); ("rpm", VNum 11847);
    ("throttle", VNum 94); ("brake", VNum 0); ("engineTemp", VNum 89);
    ("oilPressure", VNum 94); ("boostLevel", VNum 1.4); ("engineMap", VStr "MAP2");
    ("fuelLevel", VNum 18.7); ("fuelUsagePerLap", VNum 2.1);
    ("estimatedLapsRemaining", VNum 8.9); ("pitWindowOpen", VBool true);
    ("tireTemps", corners 89 91 95 93);
    ("tirePressures", corners 32.1 32.3 31.8 32.0);
    ("tireWear", corners 23 18 31 29);
    ("currentLapTime", VNum 83.5); ("lastLapTime", VNum 81.890);
    ("bestLapTime", VNum 81.234); ("deltaToOptimal", VNum (-0.743));
    ("sectorTimes", VArr [VNum 31.234; VNum 28.891; VNum 21.765]);
    ("position", VNum 3); ("gapAhead", VNum 2.847); ("gapBehind", VNum 1.234);
    ("currentLap", VNum 12); ("totalLaps", VNum 25); ("drsStatus", VStr "OPEN");
    ("kersLevel", VNum 85); ("brakeTemp", corners 450 445 420 425);
    ("rideHeight", VNum 35); ("suspensionTravel", VNum 12) ].

(** [{...this.currentData, k1: v1, ...}] *)
Definition spread (d : gmap string value) (o : list (string * value)) : gmap string value :=
  foldl (λ acc kv, <[kv.1 := kv.2]> acc) d o.

Definition demoData : gmap string value := spread initialData demoOverrides.

(** The own properties of [Object.prototype], which every plain object
    inherits and the [in] operator therefore finds. *)
Definition objectPrototype : list string :=
  ["constructor"; "hasOwnProperty"; "isPrototypeOf"; "propertyIsEnumerable";
   "toLocaleString"; "toString"; "valueOf"; "__proto__";
   "__defineGetter__"; "__defineSetter__"; "__lookupGetter__"; "__lookupSetter__"].

(** [key in this.currentData], the snapshot being a plain object. *)
Definition hasProperty (d : gmap string value) (key : string) : bool :=
  bool_decide (is_Some (d !! key)) || bool_decide (key ∈ objectPrototype).

(** [this.currentData[key] = v].  An own property is updated; otherwise a
    property is created, except for [__proto__], whose inherited setter
    creates none (the prototype it would install is not modelled). *)
Definition assign (d : gmap string value) (key : string) (v : value) : gmap string value :=
  if bool_decide (is_Some (d !! key)) then <[key := v]> d
  else if decide (key = "__proto__") then d
  else <[key := v]> d.

(** The body of the [forEach] in [updateCurrentData]:
    [if (key in this.currentData) this.currentData[key] = newData[key]]. *)
Definition mergeKey (newData : list (string * value)) (d : gmap string value)
    (key : string) : gmap string value :=
  if hasProperty d key then assign d key (prop newData key) else d.

Definition mergeKeys (newData : list (string * value)) (d : gmap string value)
    : gmap string value :=
  foldl (mergeKey newData) d (keys newData).

(** [calculateDerivedValues].  [None] when an operand leaves the modelled
    fragment of the coercions, or when [Object.values] throws. *)
Definition calculateDerivedValues (d : gmap string value) : option (gmap string value) :=
  faster ← js_gt (field d "speed") (field d "maxSpeed");
  let d := if (faster : bool) then <["maxSpeed" := field d "speed"]> d else d in
  ratio ← js_div (field d "fuelLevel") (field d "fuelCapacity");
  let d := <["fuelPercentage" := VNum (ratio * 100)]> d in
  burning ← js_gt (field d "fuelUsagePerLap") (VNum 0);
  d ← (if (burning : bool)
       then laps ← js_div (field d "fuelLevel") (field d "fuelUsagePerLap");
            Some (<["estimatedLapsRemaining" := VNum laps]> d)
       else Some d);
  tireTemps ← Object_values (field d "tireTemps");
  total ← reduce_sum tireTemps 0;
  let d := <["avgTireTemp" := VNum (total / of_nat (length tireTemps))]> d in
  low ← js_lt (field d "fuelPercentage") (VNum 30);
  pit ← (if (low : bool) then Some true
         else js_lt (field d "estimatedLapsRemaining") (VNum 3));
  Some (<["pitWindowOpen" := VBool pit]> d).

(** [updateCurrentData(newData)] *)
Definition updateCurrentData (newData : list (string * value)) (d : gmap string value)
    : option (gmap string value) :=
  calculateDerivedValues (mergeKeys newData d).

(** A sequence of merges, first partial first. *)
Fixpoint updateAll (partials : list (list (string * value))) (d : gmap string value)
    : option (gmap string value) :=
  match partials with
  | [] => Some d
  | p :: ps => d' ← updateCurrentData p d; updateAll ps d'
  end.

(** The fields [calculateDerivedValues] writes. *)
Definition derivedKeys : list string :=
  ["maxSpeed"; "fuelPercentage"; "estimatedLapsRemaining"; "avgTireTemp"; "pitWindowOpen"].

(** The fields it reads as numbers, and the snapshots on which every
    coercion it performs is a modelled one. *)
Definition numeric (v : value) : Prop := is_Some (ToNumber v).

Definition numericList (v : value) : Prop :=
  ∃ l, Object_values v = Some l ∧ Forall numeric l.

Definition numericKeys : list string :=
  ["speed"; "maxSpeed"; "fuelLevel"; "fuelCapacity"; "fuelUsagePerLap";
   "estimatedLapsRemaining"].

Definition wellTyped (d : gmap string value) : Prop :=
  Forall (λ k, numeric (field d k)) numericKeys ∧ numericList (field d "tireTemps").

(** A partial whose values for those keys have the same shape, and none of
    whose keys names a member of [Object.prototype]. *)
Definition wellTypedPartial (p : list (string * value)) : Prop :=
  Forall (λ k, k ∈ keys p → numeric (prop p k)) numericKeys ∧
  ("tireTemps" ∈ keys p → numericList (prop p "tireTemps")) ∧
  Forall (λ k, k ∉ objectPrototype) (keys p).

(** *** History *)

(** [this.dataHistory]: one array per tracked field, and one per key of the
    nested [tireTemps] object. *)
Record DataHistory := mkDataHistory {
  speed : list value;
  rpm : list value;
  fuelLevel : list value;
  lapTimes : list value;
  sectorTimes : list value;
  tireTemps : gmap string (list value);
  engineTemp : list value;
  timestamps : list value
}.

(** [l.slice(start)] *)
Definition slice {A : Type} (start : Z) (l : list A) : list A :=
  let len := Z.of_nat (length l) in
  let k := if (start <? 0)%Z then Z.max (len + start) 0 else Z.min start len in
  drop (Z.to_nat k) l.

(** [if (l.length > max) l = l.slice(-max)] *)
Definition limit {A : Type} (max : Z) (l : list A) : list A :=
  if (max <? Z.of_nat (length l))%Z then slice (- max) l else l.

Definition emptyHistory : DataHistory :=
  {| speed := []; rpm := []; fuelLevel := []; lapTimes := []; sectorTimes := [];
     tireTemps := list_to_map [("fl", []); ("fr", []); ("rl", []); ("rr", [])];
     engineTemp := []; timestamps := [] |}.

(** *** Suggestions *)

(** The pieces of a template literal, before the engine renders the numbers
    as text. *)
Inductive piece :=
| Lit (s : string)
| Num (x : float)
| Floor (x : float).

Record Suggestion := mkSuggestion {
  priority : string;
  text : list piece;
  gain : list piece;
  type : string
}.

(** The processor.  The update callbacks belong to the user interface and
    are left out. *)
Record TelemetryProcessor := mkProcessor {
  currentData : gmap string value;
  dataHistory : DataHistory;
  maxHistoryLength : Z;
  aiSuggestions : list Suggestion
}.

(** The body of the [forEach] over the tire keys in [updateHistory]:
    [this.dataHistory.tireTemps[tire].push(this.currentData.tireTemps[tire])],
    a TypeError when the history has no array for [tire]. *)
Definition pushTire (temps : value) (rings : option (gmap string (list value)))
    (tire : string) : option (gmap string (list value)) :=
  rs ← rings; ring ← rs !! tire; Some (<[tire := ring ++ [member temps tire]]> rs).

(** [updateHistory(timestamp)]; [now] is the reading of [Date.now()]. *)
Definition updateHistory (timestamp : value) (now : float) (p : TelemetryProcessor)
    : option TelemetryProcessor :=
  let currentTime := if truthy timestamp then timestamp else VNum now in
  let d := currentData p in
  let h := dataHistory p in
  tires ← Object_keys (field d "tireTemps");
  rings ← foldl (pushTire (field d "tireTemps")) (Some (tireTemps h)) tires;
  let N := maxHistoryLength p in
  Some {| currentData := d;
          dataHistory :=
            {| speed := limit N (speed h ++ [field d "speed"]);
               rpm := limit N (rpm h ++ [field d "rpm"]);
               fuelLevel := limit N (fuelLevel h ++ [field d "fuelLevel"]);
               lapTimes := limit N (lapTimes h);
               sectorTimes := limit N (sectorTimes h);
               tireTemps := limit N <$> rings;
               engineTemp := limit N (engineTemp h ++ [field d "engineTemp"]);
               timestamps := limit N (timestamps h ++ [currentTime]) |};
          maxHistoryLength := N;
          aiSuggestions := aiSuggestions p |}.

(** One history-recording call: the snapshot current at that moment, the
    timestamp argument and the clock. *)
Record recording := mkRecording {
  rec_data : gmap string value;
  rec_timestamp : value;
  rec_now : float
}.

Definition record (r : recording) (p : TelemetryProcessor) : option TelemetryProcessor :=
  updateHistory (rec_timestamp r) (rec_now r)
    {| currentData := rec_data r; dataHistory := dataHistory p;
       maxHistoryLength := maxHistoryLength p; aiSuggestions := aiSuggestions p |}.

Fixpoint recordAll (rs : list recording) (p : TelemetryProcessor) : option TelemetryProcessor :=
  match rs with
  | [] => Some p
  | r :: rs' => p' ← record r p; recordAll rs' p'
  end.

(** [generateAISuggestions]: the list it leaves in [this.aiSuggestions]. *)
Definition generateAISuggestions (d : gmap string value) : option (list Suggestion) :=
  let s := [] in
  critical ← js_lt (field d "fuelPercentage") (VNum 25);
  s ← (if (critical : bool)
       then a ← js_add (field d "currentLap") (VNum 2);
            b ← js_add (field d "currentLap") (VNum 4);
            c ← js_add (field d "currentLap") (VNum 3);
            Some (s ++ [ {| priority := "HIGH PRIORITY";
                            text := [Lit "PIT WINDOW OPENS LAP "; Num a; Lit "-"; Num b];
                            gain := [Lit "OPTIMAL: LAP "; Num c];
                            type := "strategy" |} ])
       else Some s);
  thirsty ← js_gt (field d "fuelUsagePerLap") (VNum 2.5);
  s ← (if (thirsty : bool)
       then x ← js_mul (field d "fuelLevel") (VNum 0.1);
            Some (s ++ [ {| priority := "FUEL SAVE";
                            text := [Lit "REDUCE FUEL USAGE BY 0.2L/LAP"];
                            gain := [Lit "EXTENDS STINT +"; Floor x; Lit " LAPS"];
                            type := "fuel" |} ])
       else Some s);
  temps ← Object_values (field d "tireTemps");
  maxTireTemp ← Math_max temps neg_infinity;
  let s := if PrimFloat.ltb 100 maxTireTemp
           then s ++ [ {| priority := "TIRE MANAGEMENT";
                          text := [Lit "TIRE TEMPERATURES HIGH - MANAGE PACE"];
                          gain := [Lit "EXTENDS TIRE LIFE"];
                          type := "tires" |} ]
           else s in
  near ← js_lt (field d "gapAhead") (VNum 1.0);
  let s := if (near : bool) && is_str (field d "drsStatus") "AVAILABLE"
           then s ++ [ {| priority := "HIGH PRIORITY";
                          text := [Lit "OVERTAKE OPPORTUNITY - T13 STOWE CORNER"];
                          gain := [Lit "POTENTIAL GAIN: +0.3s"];
                          type := "overtake" |} ]
           else s in
  chased ← js_lt (field d "gapBehind") (VNum 1.5);
  let s := if (chased : bool)
           then s ++ [ {| priority := "DEFENSIVE";
                          text := [Lit "DEFEND INSIDE LINE T1-T3"];
                          gain := [Lit "RISK LEVEL: MEDIUM"];
                          type := "defense" |} ]
           else s in
  hot ← js_gt (field d "engineTemp") (VNum 95);
  let s := if (hot : bool)
           then s ++ [ {| priority := "ENGINE";
                          text := [Lit "ENGINE TEMPERATURE HIGH - LIFT AND COAST"];
                          gain := [Lit "PREVENTS DAMAGE"];
                          type := "engine" |} ]
           else s in
  Some s.

(** The constructor: demo data, empty history, and the suggestions that
    [initializeDemoData] computes from the demo data. *)
Definition newProcessor : TelemetryProcessor :=
  {| currentData := demoData;
     dataHistory := emptyHistory;
     maxHistoryLength := 300;
     aiSuggestions := default [] (generateAISuggestions demoData) |}.

End Telemetry.


(** ** The accessors, on a store of shared objects

    [getCurrentData] and [getDataHistory] hand objects to the caller, who may
    then mutate them.  Whether such a mutation reaches the processor depends
    on which objects are shared, so this part models the objects as cells of
    a store and the nested objects and arrays as references to cells. *)

Module Store.
Import JS.

Definition loc := nat.

(** What a property or an array slot holds: a primitive, or a reference. *)
Inductive slot :=
| Prim (v : value)
| Ref (l : loc).

Inductive cell :=
| Obj (props : gmap string slot)
| Arr (items : list slot).

(** Allocation of a JSON-shaped value: one fresh cell per object and per
    array, the nested ones first. *)
Fixpoint alloc (v : value) (h : gmap loc cell) : slot * gmap loc cell :=
  match v with
  | VArr l =>
      let '(items, h1) :=
        (fix go (l : list value) (h : gmap loc cell) : list slot * gmap loc cell :=
           match l with
           | [] => ([], h)
           | x :: l' =>
               let '(sx, h1) := alloc x h in
               let '(sl, h2) := go l' h1 in
               (sx :: sl, h2)
           end) l h in
      let l1 := fresh (dom h1) in
      (Ref l1, <[l1 := Arr items]> h1)
  | VObj o =>
      let '(props, h1) :=
        (fix go (o : list (string * value)) (h : gmap loc cell)
           : list (string * slot) * gmap loc cell :=
           match o with
           | [] => ([], h)
           | (k, x) :: o' =>
               let '(sx, h1) := alloc x h in
               let '(so, h2) := go o' h1 in
               ((k, sx) :: so, h2)
           end) o h in
      let l1 := fresh (dom h1) in
      (Ref l1, <[l1 := Obj (list_to_map props)]> h1)
  | _ => (Prim v, h)
  end.

(** The processor: the store and the two references it keeps. *)
Record processor := mkProcessor {
  cells : gmap loc cell;
  this_currentData : loc;
  this_dataHistory : loc
}.

Definition the_loc (s : slot) : loc :=
  match s with
  | Ref l => l
  | Prim _ => 0
  end.

(** [this.dataHistory] as the constructor builds it. *)
Definition historyValue : value :=
  VObj [ ("speed", VArr []); ("rpm", VArr []); ("fuelLevel", VArr []);
         ("lapTimes", VArr []); ("sectorTimes", VArr []);
         ("tireTemps", VObj [("fl", VArr []); ("fr", VArr []); ("rl", VArr []);
                             ("rr", VArr [])]);
         ("engineTemp", VArr []); ("timestamps", VArr []) ].

(** The constructor, with the demo data of [initializeDemoData] (the
    properties of the spread come after the overriding ones, and the first
    binding of a key is the one kept). *)
Definition newProcessor : processor :=
  let '(d, h1) := alloc (VObj (Telemetry.demoOverrides ++ Telemetry.initialProps)) ∅ in
  let '(hist, h2) := alloc historyValue h1 in
  {| cells := h2; this_currentData := the_loc d; this_dataHistory := the_loc hist |}.

(** [{...o}]: a new object with the own properties of the object at [l],
    the nested objects being copied as references. *)
Definition spreadObject (l : loc) (h : gmap loc cell) : loc * gmap loc cell :=
  let l' := fresh (dom h) in
  match h !! l with
  | Some (Obj props) => (l', <[l' := Obj props]> h)
  | Some (Arr items) =>
      (l', <[l' := Obj (list_to_map (zip (pretty <$> seq 0 (length items)) items))]> h)
  | None => (l', <[l' := Obj ∅]> h)
  end.

Inductive accessor := GetCurrentData | GetDataHistory.

(** [getCurrentData()] and [getDataHistory()]: the returned reference and
    the processor after the call. *)
Definition call (a : accessor) (p : processor) : loc * processor :=
  let src := match a with
             | GetCurrentData => this_currentData p
             | GetDataHistory => this_dataHistory p
             end in
  let '(l', h) := spreadObject src (cells p) in
  (l', {| cells := h; this_currentData := this_currentData p;
          this_dataHistory := this_dataHistory p |}).

(** The element of an array at a property key. *)
Definition at_key (items : list slot) (k : string) : option slot :=
  i ← fst <$> list_find (λ i, pretty i = k) (seq 0 (length items)); items !! i.

(** [v.k1.k2...]: the slot reached from [v] along a path of keys. *)
Fixpoint read (h : gmap loc cell) (v : slot) (path : list string) : option slot :=
  match path with
  | [] => Some v
  | k :: rest =>
      match v with
      | Ref l =>
          match h !! l with
          | Some (Obj props) => s ← props !! k; read h s rest
          | Some (Arr items) => s ← at_key items k; read h s rest
          | None => None
          end
      | Prim _ => None
      end
  end.

(** What a caller can do to an object or an array it has reached. *)
Inductive operation :=
| SetProp (k : string) (s : slot)      (* [x[k] = s] on an object *)
| DeleteProp (k : string)              (* [delete x[k]] on an object *)
| Push (s : slot)                      (* [x.push(s)] on an array *)
| SetIndex (i : nat) (s : slot).       (* [x[i] = s] on an array *)

Definition setIndex (i : nat) (s : slot) (items : list slot) : list slot :=
  if decide (i < length items) then <[i := s]> items
  else items ++ replicate (i - length items) (Prim VUndefined) ++ [s].

Definition apply (op : operation) (c : cell) : cell :=
  match op, c with
  | SetProp k s, Obj props => Obj (<[k := s]> props)
  | DeleteProp k, Obj props => Obj (delete k props)
  | Push s, Arr items => Arr (items ++ [s])
  | SetIndex i s, Arr items => Arr (setIndex i s items)
  | _, _ => c
  end.

(** A mutation through the returned reference [ret]: the operation [op] on
    the object reached from [ret] along [path].  Nothing is written when the
    path does not lead to an object or an array. *)
Definition mutate (ret : loc) (path : list string) (op : operation) (p : processor)
    : processor :=
  match read (cells p) (Ref ret) path with
  | Some (Ref l) =>
      {| cells := alter (apply op) l (cells p);
         this_currentData := this_currentData p;
         this_dataHistory := this_dataHistory p |}
  | _ => p
  end.

End Store.

(** ** The telemetry processor: the rest of its interface *)

Module Processor.
Import JS Telemetry.

(** [Math.min(x, y)]: NaN if either argument is NaN, and -0 below +0. *)
Definition min2 (x y : float) : float :=
  if PrimFloat.is_nan x || PrimFloat.is_nan y then nan
  else if PrimFloat.ltb x y then x
  else if PrimFloat.ltb y x then y
  else if PrimFloat.is_zero x && PrimFloat.get_sign x then x
  else y.

(** [Math.max(lo, Math.min(hi, x))] *)
Definition clamp (lo hi x : float) : float := max2 lo (min2 hi x).

(** An update callback: an identity, and whether the call throws on given
    arguments.  What else the callback does is outside the model. *)
Record listener := mkListener {
  listener_id : nat;
  listener_throws : gmap string value → DataHistory → bool
}.

(** A call of an update callback, with the snapshot and the history it is
    handed as they are at that moment. *)
Record notification := mkNotification {
  receiver : nat;
  snapshot : gmap string value;
  history : DataHistory
}.

(** The processor with its update callbacks, and the calls made so far. *)
Record state := mkState {
  self : TelemetryProcessor;
  updateCallbacks : list listener;
  notifications : list notification
}.

Definition with_self (p : TelemetryProcessor) (s : state) : state :=
  {| self := p; updateCallbacks := updateCallbacks s; notifications := notifications s |}.

(** [getAISuggestions()], a copy of the list. *)
Definition getAISuggestions (s : state) : list Suggestion := aiSuggestions (self s).

(** [onUpdate(callback)] *)
Definition onUpdate (cb : listener) (s : state) : state :=
  {| self := self s; updateCallbacks := updateCallbacks s ++ [cb];
     notifications := notifications s |}.

(** [l.splice(l.indexOf(cb), 1)] when [cb] occurs in [l]. *)
Fixpoint spliceFirst (id : nat) (l : list listener) : list listener :=
  match l with
  | [] => []
  | cb :: l' => if decide (listener_id cb = id) then l' else cb :: spliceFirst id l'
  end.

(** [offUpdate(callback)] *)
Definition offUpdate (cb : listener) (s : state) : state :=
  {| self := self s; updateCallbacks := spliceFirst (listener_id cb) (updateCallbacks s);
     notifications := notifications s |}.

(** One round of the [forEach] in [notifyUpdateCallbacks]: the call, and
    the [catch] that logs what it throws. *)
Definition callListener (d : gmap string value) (h : DataHistory)
    (log : list notification) (cb : listener) : list notification :=
  let log' := log ++ [ {| receiver := listener_id cb; snapshot := d; history := h |} ] in
  if listener_throws cb d h then log' else log'.

(** [notifyUpdateCallbacks()] *)
Definition notifyUpdateCallbacks (s : state) : state :=
  {| self := self s; updateCallbacks := updateCallbacks s;
     notifications :=
       foldl (callListener (currentData (self s)) (dataHistory (self s)))
         (notifications s) (updateCallbacks s) |}.

(** [initializeDemoData()]; [None] when [generateAISuggestions] leaves the
    modelled fragment. *)
Definition initializeDemoData (p : TelemetryProcessor) : option TelemetryProcessor :=
  let d := spread (currentData p) demoOverrides in
  l ← generateAISuggestions d;
  Some {| currentData := d; dataHistory := dataHistory p;
          maxHistoryLength := maxHistoryLength p; aiSuggestions := l |}.

(** The loop of [reset] over the history: every array becomes empty, those
    of the nested object included. *)
Definition clearHistory (h : DataHistory) : DataHistory :=
  {| speed := []; rpm := []; fuelLevel := []; lapTimes := []; sectorTimes := [];
     tireTemps := (λ _, []) <$> tireTemps h; engineTemp := []; timestamps := [] |}.

(** [reset()] *)
Definition reset (s : state) : option state :=
  p ← initializeDemoData (self s);
  Some (notifyUpdateCallbacks
          (with_self {| currentData := currentData p;
                        dataHistory := clearHistory (dataHistory p);
                        maxHistoryLength := maxHistoryLength p;
                        aiSuggestions := aiSuggestions p |} s)).


(** [(Math.random() - 0.5) * scale] *)
Definition jitter (r scale : float) : float := ((r - 0.5) * scale)%float.

(** The loop of the simulation over the tires; the [i]-th tire takes the
    draw [random (first + i)]. *)
Fixpoint simulateTires (random : nat → float) (first : nat) (o : list (string * value))
    : option (list (string * value)) :=
  match o with
  | [] => Some []
  | (tire, v) :: o' =>
      x ← js_add v (VNum (jitter (random first) 5));
      o'' ← simulateTires random (S first) o';
      Some ((tire, VNum (clamp 60 120 x)) :: o'')
  end.

(** One firing of the interval that [startSimulation] sets; [random n] is
    the [n]-th reading of [Math.random()] in it.  Nothing catches what the
    callback throws: [None] stands for that, and for the steps that leave
    the modelled fragment. *)
Definition simulate (random : nat → float) (now : float) (s : state) : option state :=
  let p := self s in
  let d := currentData p in
  x ← js_add (field d "speed") (VNum (jitter (random 0) 20));
  let d := <["speed" := VNum x]> d in
  x ← ToNumber (field d "speed");
  let d := <["speed" := VNum (clamp 0 350 x)]> d in
  x ← js_add (field d "rpm") (VNum (jitter (random 1) 1000));
  let d := <["rpm" := VNum x]> d in
  x ← ToNumber (field d "rpm");
  let d := <["rpm" := VNum (clamp 1000 15000 x)]> d in
  x ← js_add (field d "throttle") (VNum (jitter (random 2) 20));
  let d := <["throttle" := VNum (clamp 0 100 x)]> d in
  x ← ToNumber (field d "fuelLevel");
  let d := <["fuelLevel" := VNum (max2 0 (x - 0.01))]> d in
  tires ← match field d "tireTemps" with
           | VObj o => simulateTires random 3 o
           | _ => None
           end;
  let d := <["tireTemps" := VObj tires]> d in
  d ← calculateDerivedValues d;
  p ← updateHistory VUndefined now
         {| currentData := d; dataHistory := dataHistory p;
            maxHistoryLength := maxHistoryLength p; aiSuggestions := aiSuggestions p |};
  Some (notifyUpdateCallbacks (with_self p s)).

(** *** Formatting *)

(** The exact value of the finite number [m·2^e], as a fraction whose
    denominator is a power of two. *)
Definition exact (m : positive) (e : Z) : Z * Z :=
  if (0 <=? e)%Z then (Z.pos m * 2 ^ e, 1)%Z else (Z.pos m, 2 ^ (- e))%Z.

Fixpoint zeros (n : nat) : string :=
  match n with
  | O => ""
  | S n' => "0" +:+ zeros n'
  end.

(** [s.padStart(n, '0')] *)
Definition padStart (n : nat) (s : string) : string :=
  zeros (n - String.length s) +:+ s.

(** The digits of [toFixed(3)] for the value [num / den ≥ 0] below 10^21:
    with [n] the integer nearest to [1000 · num / den], the larger of two
    that are equally near, the decimal digits of [n] are padded with zeros
    to four and a point is put before the last three. *)
Definition fixed3 (num den : Z) : string :=
  let n := ((2000 * num + den) / (2 * den))%Z in
  let m := padStart 4 (pretty n) in
  let k := String.length m in
  String.substring 0 (k - 3) m +:+ "." +:+ String.substring (k - 3) 3 m.

(** [x.toFixed(3)].  At 10^21 and above the result is that of the general
    conversion of a number to a string, which is not modelled: [None]. *)
Definition toFixed3 (x : float) : option string :=
  match Prim2SF x with
  | S754_nan => Some "NaN"
  | S754_infinity s => Some (if s then "-Infinity" else "Infinity")
  | S754_zero _ => Some (fixed3 0 1)
  | S754_finite s m e =>
      let '(num, den) := exact m e in
      if (10 ^ 21 * den <=? num)%Z then None
      else Some ((if s then "-" else "") +:+ fixed3 num den)
  end.

(** [(x % d).toFixed(3)] for an integer [d > 0].  The remainder of two
    numbers is computed without rounding and has the sign of [x], so it is
    taken on the exact value. *)
Definition remFixed3 (x : float) (d : Z) : string :=
  match Prim2SF x with
  | S754_nan | S754_infinity _ => "NaN"
  | S754_zero _ => fixed3 0 1
  | S754_finite s m e =>
      let '(num, den) := exact m e in
      let r := (num mod (d * den))%Z in
      (if s && negb (r =? 0)%Z then "-" else "") +:+ fixed3 r den
  end.

(** [`${Math.floor(x)}`].  An integer is printed with all its digits when
    its magnitude is below 2^53; the conversion of larger numbers is not
    modelled: [None]. *)
Definition floorText (x : float) : option string :=
  match Prim2SF x with
  | S754_nan => Some "NaN"
  | S754_infinity s => Some (if s then "-Infinity" else "Infinity")
  | S754_zero _ => Some "0"
  | S754_finite s m e =>
      let '(num, den) := exact m e in
      let n := if s then (- ((num + den - 1) / den))%Z else (num / den)%Z in
      if (2 ^ 53 <=? Z.abs n)%Z then None else Some (pretty n)
  end.

(** [formatTime(seconds)] *)
Definition formatTime (seconds : value) : option string :=
  if negb (truthy seconds) then Some "0:00.000"
  else
    x ← ToNumber seconds;
    if PrimFloat.leb x 0 then Some "0:00.000"
    else
      minutes ← floorText (x / 60);
      Some (minutes +:+ ":" +:+ padStart 6 (remFixed3 x 60)).

(** [formatDelta(delta)]: only a number has a [toFixed] method, the call
    is a TypeError on the other values that are not falsy. *)
Definition formatDelta (delta : value) : option string :=
  if negb (truthy delta) then Some "0.000"
  else
    match delta with
    | VNum x =>
        let prefix := if PrimFloat.ltb 0 x then "+" else "" in
        t ← toFixed3 x;
        Some (prefix +:+ t)
    | _ => None
    end.

(** [getPositionSuffix(position)] on a position that is an integer of
    magnitude below 2^53, which is printed with all its digits. *)
Definition suffixes : list string := ["th"; "st"; "nd"; "rd"].

Definition getPositionSuffix (position : Z) : string :=
  let lastDigit := Z.rem position 10 in
  let lastTwoDigits := Z.rem position 100 in
  if (11 <=? lastTwoDigits)%Z && (lastTwoDigits <=? 13)%Z then
    pretty position +:+ "th"
  else
    pretty position +:+
    default "th" (if (0 <=? lastDigit)%Z then suffixes !! Z.to_nat lastDigit else None).

(** The processor the constructor builds, with no callback. *)
Definition newState : state :=
  {| self := newProcessor; updateCallbacks := []; notifications := [] |}.

End Processor.

(** ** The WebSocket client

    The client is event driven: the browser calls its methods when a timer
    fires or a socket reports something, and the user interface calls
    [connect], [disconnect], [send], [on] and [off].  The model keeps the
    fields of the client together with the part of the browser the client
    acts on (its sockets and pending timers) and a trace of what an outside
    observer sees: sockets opened and closed, frames sent, status callbacks
    and message handlers invoked.

    Handlers and callbacks are user code.  Of a call to one of them the model
    records that it happened, with its arguments, and whether it threw; what
    else user code may do (calling back into the client, for instance) is
    outside the model. *)

Module Client.
Import JS.

Inductive ReadyState := CONNECTING | OPEN | CLOSING | CLOSED.

Global Instance ReadyState_eq_dec : EqDecision ReadyState.
Proof. solve_decision. Defined.

Record Config := mkConfig {
  serverUrl : string;
  apiKey : string;
  reconnectInterval : Z;
  maxReconnectAttempts : Z;
  heartbeatInterval : Z
}.

(** The argument of the constructor: each key may be absent. *)
Record Options := mkOptions {
  opt_serverUrl : option string;
  opt_apiKey : option string;
  opt_reconnectInterval : option Z;
  opt_maxReconnectAttempts : option Z;
  opt_heartbeatInterval : option Z
}.

(** [x || d] on an optional string and on an optional number. *)
Definition strOr (x : option string) (d : string) : string :=
  match x with
  | Some s => if String.eqb s "" then d else s
  | None => d
  end.

Definition numOr (x : option Z) (d : Z) : Z :=
  match x with
  | Some z => if (z =? 0)%Z then d else z
  | None => d
  end.

(** The configuration the constructor stores: the defaulted values, then
    the spread of the argument over them, which puts back every key the
    argument has. *)
Definition newConfig (o : Options) : Config :=
  {| serverUrl :=
       default (strOr (opt_serverUrl o) "ws://137.184.151.3:8766") (opt_serverUrl o);
     apiKey := default (strOr (opt_apiKey o) "") (opt_apiKey o);
     reconnectInterval :=
       default (numOr (opt_reconnectInterval o) 3000) (opt_reconnectInterval o);
     maxReconnectAttempts :=
       default (numOr (opt_maxReconnectAttempts o) 10) (opt_maxReconnectAttempts o);
     heartbeatInterval :=
       default (numOr (opt_heartbeatInterval o) 30000) (opt_heartbeatInterval o) |}.

(** The second argument of the status callbacks: a text, or the text
    [Attempt n] of a template. *)
Inductive detail :=
| Text (s : string)
| Attempt (n : Z).

(** A message handler and a status callback: an identity, and whether the
    call throws on given arguments. *)
Record handler := mkHandler {
  handler_id : nat;
  handler_throws : value → value → bool
}.

Record callback := mkCallback {
  callback_id : nat;
  callback_throws : string → detail → bool
}.

(** What an observer sees. *)
Inductive effect :=
| Opened (sock : nat) (url auth : string)             (* [new WebSocket(url)] *)
| Closed (sock : nat) (code : option Z)               (* [ws.close(...)] *)
| Sent (sock : nat) (type : string) (timestamp : float) (data : value)
| Status (cb : nat) (status : string) (details : detail)
| Handled (h : nat) (data timestamp : value).

(** A socket of the browser: its state, and whether its four event
    properties are the client's methods ([null] otherwise). *)
Record socket := mkSocket {
  readyState : ReadyState;
  listening : bool
}.

Inductive timerKind :=
| ReconnectTimer          (* [setTimeout(() => this.connect(), delay)] *)
| HeartbeatTimer          (* the [setInterval] of [startHeartbeat] *)
| ConnectionTimeout.      (* the [setTimeout(..., 10000)] of [connect] *)

Global Instance timerKind_eq_dec : EqDecision timerKind.
Proof. solve_decision. Defined.

Record timer := mkTimer {
  timer_id : nat;
  kind : timerKind;
  delay : Z
}.

(** The fields of the client. *)
Record client := mkClient {
  config : Config;
  ws : option nat;
  isConnected : bool;
  reconnectAttempts : Z;
  reconnectTimer : option nat;
  heartbeatTimer : option nat;
  messageHandlers : gmap string (list handler);
  connectionCallbacks : list callback
}.

(** The browser: sockets, pending timers, the next identifier it hands out
    (timer identifiers are positive, hence truthy), the clock, the URLs
    from which a socket can be constructed, and the trace. *)
Record browser := mkBrowser {
  sockets : gmap nat socket;
  timers : list timer;
  nextId : nat;
  clock : float;
  constructible : string → bool;
  trace : list effect
}.

Record world := mkWorld {
  cl : client;
  br : browser
}.

(** *** Computations that may throw *)

Inductive outcome (A : Type) :=
| Normal (a : A)
| Thrown.
Arguments Normal {A} a.
Arguments Thrown {A}.

Definition M (A : Type) : Type := world → outcome A * world.

Definition ret {A : Type} (a : A) : M A := λ w, (Normal a, w).

Definition bind {A B : Type} (m : M A) (k : A → M B) : M B :=
  λ w, match m w with
       | (Normal a, w') => k a w'
       | (Thrown, w') => (Thrown, w')
       end.

Definition throw {A : Type} : M A := λ w, (Thrown, w).

(** [try { m } catch (error) { h }] *)
Definition try_catch {A : Type} (m : M A) (h : M A) : M A :=
  λ w, match m w with
       | (Normal a, w') => (Normal a, w')
       | (Thrown, w') => h w'
       end.

Global Instance M_ret : MRet M := @ret.
Global Instance M_bind : MBind M := λ A B k m, bind m k.

Definition gets {A : Type} (f : world → A) : M A := λ w, (Normal (f w), w).
Definition modify (f : world → world) : M unit := λ w, (Normal (), f w).

(** [l.forEach(f)] *)
Fixpoint forEach {A : Type} (f : A → M unit) (l : list A) : M unit :=
  match l with
  | [] => ret ()
  | x :: l' => f x ;; forEach f l'
  end.

(** A task of the event loop: what it leaves behind.  An exception that
    escapes a task is reported by the browser and stops nothing else. *)
Definition run (m : M unit) (w : world) : world := (m w).2.

(** *** Field updates *)

Definition set_ws (v : option nat) : M unit :=
  modify (λ w, {| br := br w; cl :=
    {| ws := v; config := config (cl w); isConnected := isConnected (cl w);
       reconnectAttempts := reconnectAttempts (cl w);
       reconnectTimer := reconnectTimer (cl w);
       heartbeatTimer := heartbeatTimer (cl w);
       messageHandlers := messageHandlers (cl w);
       connectionCallbacks := connectionCallbacks (cl w) |} |}).

Definition set_isConnected (v : bool) : M unit :=
  modify (λ w, {| br := br w; cl :=
    {| isConnected := v; config := config (cl w); ws := ws (cl w);
       reconnectAttempts := reconnectAttempts (cl w);
       reconnectTimer := reconnectTimer (cl w);
       heartbeatTimer := heartbeatTimer (cl w);
       messageHandlers := messageHandlers (cl w);
       connectionCallbacks := connectionCallbacks (cl w) |} |}).

Definition set_reconnectAttempts (v : Z) : M unit :=
  modify (λ w, {| br := br w; cl :=
    {| reconnectAttempts := v; config := config (cl w); ws := ws (cl w);
       isConnected := isConnected (cl w);
       reconnectTimer := reconnectTimer (cl w);
       heartbeatTimer := heartbeatTimer (cl w);
       messageHandlers := messageHandlers (cl w);
       connectionCallbacks := connectionCallbacks (cl w) |} |}).

Definition set_reconnectTimer (v : option nat) : M unit :=
  modify (λ w, {| br := br w; cl :=
    {| reconnectTimer := v; config := config (cl w); ws := ws (cl w);
       isConnected := isConnected (cl w);
       reconnectAttempts := reconnectAttempts (cl w);
       heartbeatTimer := heartbeatTimer (cl w);
       messageHandlers := messageHandlers (cl w);
       connectionCallbacks := connectionCallbacks (cl w) |} |}).

Definition set_heartbeatTimer (v : option nat) : M unit :=
  modify (λ w, {| br := br w; cl :=
    {| heartbeatTimer := v; config := config (cl w); ws := ws (cl w);
       isConnected := isConnected (cl w);
       reconnectAttempts := reconnectAttempts (cl w);
       reconnectTimer := reconnectTimer (cl w);
       messageHandlers := messageHandlers (cl w);
       connectionCallbacks := connectionCallbacks (cl w) |} |}).

Definition set_messageHandlers (v : gmap string (list handler)) : M unit :=
  modify (λ w, {| br := br w; cl :=
    {| messageHandlers := v; config := config (cl w); ws := ws (cl w);
       isConnected := isConnected (cl w);
       reconnectAttempts := reconnectAttempts (cl w);
       reconnectTimer := reconnectTimer (cl w);
       heartbeatTimer := heartbeatTimer (cl w);
       connectionCallbacks := connectionCallbacks (cl w) |} |}).

Definition set_connectionCallbacks (v : list callback) : M unit :=
  modify (λ w, {| br := br w; cl :=
    {| connectionCallbacks := v; config := config (cl w); ws := ws (cl w);
       isConnected := isConnected (cl w);
       reconnectAttempts := reconnectAttempts (cl w);
       reconnectTimer := reconnectTimer (cl w);
       heartbeatTimer := heartbeatTimer (cl w);
       messageHandlers := messageHandlers (cl w) |} |}).

Definition set_sockets (v : gmap nat socket) : M unit :=
  modify (λ w, {| cl := cl w; br :=
    {| sockets := v; timers := timers (br w); nextId := nextId (br w);
       clock := clock (br w); constructible := constructible (br w);
       trace := trace (br w) |} |}).

Definition set_timers (v : list timer) : M unit :=
  modify (λ w, {| cl := cl w; br :=
    {| timers := v; sockets := sockets (br w); nextId := nextId (br w);
       clock := clock (br w); constructible := constructible (br w);
       trace := trace (br w) |} |}).

Definition set_nextId (v : nat) : M unit :=
  modify (λ w, {| cl := cl w; br :=
    {| nextId := v; sockets := sockets (br w); timers := timers (br w);
       clock := clock (br w); constructible := constructible (br w);
       trace := trace (br w) |} |}).

(** An effect reaches the observer. *)
Definition emit (e : effect) : M unit :=
  modify (λ w, {| cl := cl w; br :=
    {| trace := trace (br w) ++ [e]; sockets := sockets (br w);
       timers := timers (br w); nextId := nextId (br w);
       clock := clock (br w); constructible := constructible (br w) |} |}).


(** *** The browser's services *)

(** The state of a socket; a socket the browser does not know is closed. *)
Definition stateOf (sid : nat) (w : world) : ReadyState :=
  default CLOSED (readyState <$> sockets (br w) !! sid).

Definition isListening (sid : nat) (w : world) : bool :=
  default false (listening <$> sockets (br w) !! sid).

(** [setTimeout] and [setInterval]: a fresh identifier and a pending
    timer. *)
Definition setTimer (k : timerKind) (ms : Z) : M nat :=
  id ← gets (λ w, nextId (br w));
  set_nextId (S id);;
  ts ← gets (λ w, timers (br w));
  set_timers (ts ++ [ {| timer_id := id; kind := k; delay := ms |} ]);;
  ret id.

(** [clearTimeout(id)] and [clearInterval(id)] *)
Definition clearTimer (id : nat) : M unit :=
  ts ← gets (λ w, timers (br w));
  set_timers (filter (λ t, timer_id t ≠ id) ts).

(** [new WebSocket(url)], after [new URL(serverUrl)] and the [auth] query
    parameter: either of the two constructors may throw. *)
Definition newWebSocket (url auth : string) : M nat :=
  ok ← gets (λ w, constructible (br w) url);
  if (ok : bool) then
    sid ← gets (λ w, nextId (br w));
    set_nextId (S sid);;
    ss ← gets (λ w, sockets (br w));
    set_sockets (<[sid := {| readyState := CONNECTING; listening := false |}]> ss);;
    emit (Opened sid url auth);;
    ret sid
  else throw.

(** [ws.onopen = ...] and the three others, set together. *)
Definition setListeners (sid : nat) (on : bool) : M unit :=
  ss ← gets (λ w, sockets (br w));
  match ss !! sid with
  | Some s => set_sockets (<[sid := {| readyState := readyState s; listening := on |}]> ss)
  | None => ret ()
  end.

Definition setState (sid : nat) (st : ReadyState) : M unit :=
  ss ← gets (λ w, sockets (br w));
  match ss !! sid with
  | Some s => set_sockets (<[sid := {| readyState := st; listening := listening s |}]> ss)
  | None => ret ()
  end.

(** [ws.close(code, reason)]: an open or connecting socket starts
    closing; the close event comes later. *)
Definition closeSocket (sid : nat) (code : option Z) : M unit :=
  st ← gets (stateOf sid);
  emit (Closed sid code);;
  match st with
  | CONNECTING | OPEN => setState sid CLOSING
  | CLOSING | CLOSED => ret ()
  end.

(** *** The methods of the client *)

(** A call of user code. *)
Definition callCallback (status : string) (details : detail) (cb : callback) : M unit :=
  emit (Status (callback_id cb) status details);;
  if callback_throws cb status details then throw else ret ().

Definition callHandler (data timestamp : value) (h : handler) : M unit :=
  emit (Handled (handler_id h) data timestamp);;
  if handler_throws h data timestamp then throw else ret ().

(** [notifyConnectionChange(status, details)]; the [catch] logs to the
    console. *)
Definition notifyConnectionChange (status : string) (details : detail) : M unit :=
  cbs ← gets (λ w, connectionCallbacks (cl w));
  forEach (λ cb, try_catch (callCallback status details cb) (ret ())) cbs.

(** [clearTimers()] *)
Definition clearTimers : M unit :=
  rt ← gets (λ w, reconnectTimer (cl w));
  match rt with
  | Some id => clearTimer id;; set_reconnectTimer None
  | None => ret ()
  end;;
  ht ← gets (λ w, heartbeatTimer (cl w));
  match ht with
  | Some id => clearTimer id;; set_heartbeatTimer None
  | None => ret ()
  end.

(** The delay of the [k]-th reconnection:
    [Math.min(this.config.reconnectInterval * k, 30000)]. *)
Definition backoff (c : Config) (k : Z) : Z :=
  Z.min (reconnectInterval c * k) 30000.

(** [scheduleReconnect()] *)
Definition scheduleReconnect : M unit :=
  attempts ← gets (λ w, reconnectAttempts (cl w));
  c ← gets (λ w, config (cl w));
  if (maxReconnectAttempts c <=? attempts)%Z then
    notifyConnectionChange "failed" (Text "Max reconnection attempts reached")
  else
    set_reconnectAttempts (attempts + 1);;
    id ← setTimer ReconnectTimer (backoff c (attempts + 1));
    set_reconnectTimer (Some id);;
    notifyConnectionChange "reconnecting" (Attempt (attempts + 1)).

(** [connect()] *)
Definition connect : M unit :=
  cur ← gets (λ w, ws (cl w));
  st ← gets (λ w, (λ sid, stateOf sid w) <$> cur);
  match st with
  | Some CONNECTING | Some OPEN => ret ()
  | _ =>
      try_catch
        (c ← gets (λ w, config (cl w));
         sid ← newWebSocket (serverUrl c) (apiKey c);
         set_ws (Some sid);;
         setListeners sid true;;
         setTimer ConnectionTimeout 10000;;
         ret ())
        scheduleReconnect
  end.

(** The callback of the connection timeout. *)
Definition connectionTimeout : M unit :=
  cur ← gets (λ w, ws (cl w));
  match cur with
  | Some sid =>
      st ← gets (stateOf sid);
      if decide (st = CONNECTING) then closeSocket sid None else ret ()
  | None => ret ()
  end.

(** [disconnect()] *)
Definition disconnect : M unit :=
  set_isConnected false;;
  clearTimers;;
  cur ← gets (λ w, ws (cl w));
  match cur with
  | Some sid =>
      setListeners sid false;;
      st ← gets (stateOf sid);
      (if decide (st = OPEN) then closeSocket sid (Some 1000%Z) else ret ());;
      set_ws None
  | None => ret ()
  end;;
  notifyConnectionChange "disconnected" (Text "").

(** [send(type, data)] *)
Definition send (type : string) (data : value) : M bool :=
  connected ← gets (λ w, isConnected (cl w));
  cur ← gets (λ w, ws (cl w));
  match cur with
  | Some sid =>
      st ← gets (stateOf sid);
      if (connected : bool) && bool_decide (st = OPEN) then
        try_catch
          (now ← gets (λ w, clock (br w));
           emit (Sent sid type now data);;
           ret true)
          (ret false)
      else ret false
  | None => ret false
  end.

(** What the socket delivers: text that [JSON.parse] rejects, or the
    parsed value. *)
Inductive frame :=
| Malformed
| Json (message : value).

Definition JSON_parse (f : frame) : M value :=
  match f with
  | Malformed => throw
  | Json v => ret v
  end.

(** [const { type, data, timestamp } = message], a TypeError on [null]. *)
Definition destructure (message : value) : M (value * value * value) :=
  match message with
  | VNull | VUndefined => throw
  | _ => ret (member message "type", member message "data", member message "timestamp")
  end.

(** [this.messageHandlers.get(type)], the map being keyed by strings. *)
Definition handlersFor (type : value) (w : world) : option (list handler) :=
  match type with
  | VStr t => messageHandlers (cl w) !! t
  | _ => None
  end.

(** [onMessage(event)] *)
Definition onMessage (f : frame) : M unit :=
  try_catch
    (message ← JSON_parse f;
     '(type, data, timestamp) ← destructure message;
     if is_str type "ping" then
       send "pong" (VObj [("timestamp", timestamp)]);; ret ()
     else if is_str type "pong" then
       ret ()
     else
       hs ← gets (handlersFor type);
       match hs with
       | Some handlers =>
           forEach (λ h, try_catch (callHandler data timestamp h) (ret ())) handlers
       | None => ret ()
       end)
    (ret ()).

(** [startHeartbeat()] and the callback of its interval. *)
Definition startHeartbeat : M unit :=
  c ← gets (λ w, config (cl w));
  id ← setTimer HeartbeatTimer (heartbeatInterval c);
  set_heartbeatTimer (Some id).

Definition heartbeat : M unit :=
  connected ← gets (λ w, isConnected (cl w));
  if (connected : bool) then
    now ← gets (λ w, clock (br w));
    send "ping" (VObj [("timestamp", VNum now)]);; ret ()
  else ret ().

(** [onOpen(event)] *)
Definition onOpen : M unit :=
  set_isConnected true;;
  set_reconnectAttempts 0;;
  clearTimers;;
  startHeartbeat;;
  c ← gets (λ w, config (cl w));
  (if String.eqb (apiKey c) "" then ret false
   else send "auth" (VObj [("apiKey", VStr (apiKey c))]));;
  send "subscribe"
    (VObj [("channels", VArr [VStr "telemetry"; VStr "session"; VStr "timing";
                               VStr "strategy"])]);;
  notifyConnectionChange "connected" (Text "").

(** [onClose(event)] *)
Definition onClose (code : Z) (reason : string) : M unit :=
  set_isConnected false;;
  clearTimers;;
  (if (code =? 1000)%Z then ret () else scheduleReconnect);;
  notifyConnectionChange "disconnected" (Text reason).

(** [onError(event)] *)
Definition onError : M unit :=
  notifyConnectionChange "error" (Text "Connection error").

(** [on(messageType, handler)] and [off(messageType, handler)]; [off]
    removes the first occurrence of the handler. *)
Definition on (messageType : string) (h : handler) : M unit :=
  hs ← gets (λ w, messageHandlers (cl w));
  set_messageHandlers (<[messageType := default [] (hs !! messageType) ++ [h]]> hs).

Fixpoint removeFirst (id : nat) (l : list handler) : list handler :=
  match l with
  | [] => []
  | h :: l' => if decide (handler_id h = id) then l' else h :: removeFirst id l'
  end.

Definition off (messageType : string) (h : handler) : M unit :=
  hs ← gets (λ w, messageHandlers (cl w));
  match hs !! messageType with
  | Some handlers =>
      set_messageHandlers (<[messageType := removeFirst (handler_id h) handlers]> hs)
  | None => ret ()
  end.

(** [onConnectionChange(callback)] *)
Definition onConnectionChange (cb : callback) : M unit :=
  cbs ← gets (λ w, connectionCallbacks (cl w));
  set_connectionCallbacks (cbs ++ [cb]).

(** *** The event loop *)

(** What the browser does on its own: a pending timer fires, or a socket
    reports an event to its listeners. *)
Inductive event :=
| TimerFires (id : nat)
| SocketOpens (sid : nat)
| SocketMessage (sid : nat) (f : frame)
| SocketCloses (sid : nat) (code : Z) (reason : string)
| SocketError (sid : nat).

Definition pending (id : nat) (w : world) : option timer :=
  snd <$> list_find (λ t, timer_id t = id) (timers (br w)).

Definition step (e : event) : M unit :=
  match e with
  | TimerFires id =>
      t ← gets (pending id);
      match t with
      | Some t =>
          match kind t with
          | ReconnectTimer => clearTimer id;; connect
          | HeartbeatTimer => heartbeat
          | ConnectionTimeout => clearTimer id;; connectionTimeout
          end
      | None => ret ()
      end
  | SocketOpens sid =>
      st ← gets (stateOf sid);
      if decide (st = CONNECTING) then
        setState sid OPEN;;
        l ← gets (isListening sid);
        if (l : bool) then onOpen else ret ()
      else ret ()
  | SocketMessage sid f =>
      st ← gets (stateOf sid);
      l ← gets (isListening sid);
      if bool_decide (st = OPEN) && l then onMessage f else ret ()
  | SocketCloses sid code reason =>
      st ← gets (stateOf sid);
      if decide (st = CLOSED) then ret ()
      else
        setState sid CLOSED;;
        l ← gets (isListening sid);
        if (l : bool) then onClose code reason else ret ()
  | SocketError sid =>
      st ← gets (stateOf sid);
      l ← gets (isListening sid);
      if negb (bool_decide (st = CLOSED)) && l then onError else ret ()
  end.

(** A run of the event loop on a sequence of events. *)
Definition runAll (es : list event) (w : world) : world :=
  foldl (λ w e, run (step e) w) w es.

(** The client as the constructor leaves it, in a browser with no socket
    and no timer. *)
Definition newClient (o : Options) (now : float) (ok : string → bool) : world :=
  {| cl := {| config := newConfig o; ws := None; isConnected := false;
              reconnectAttempts := 0; reconnectTimer := None; heartbeatTimer := None;
              messageHandlers := ∅; connectionCallbacks := [] |};
     br := {| sockets := ∅; timers := []; nextId := 1; clock := now;
              constructible := ok; trace := [] |} |}.

End Client.

(** ** The rest of the client's interface *)

Module ClientApi.
Import JS Client.

(** [getStatus()] *)
Definition getStatus (w : world) : string :=
  match ws (cl w) with
  | None => "disconnected"
  | Some sid =>
      match stateOf sid w with
      | CONNECTING => "connecting"
      | OPEN => "connected"
      | CLOSING => "closing"
      | CLOSED => "disconnected"
      end
  end.

(** A parameter with a default value: the default replaces [undefined]. *)
Definition orDefault (v d : value) : value :=
  match v with
  | VUndefined => d
  | _ => v
  end.

(** [requestTelemetry(categories = [])] *)
Definition requestTelemetry (categories : value) : M bool :=
  send "request_telemetry" (VObj [("categories", orDefault categories (VArr []))]).

(** [updateSubscription(channels = [])] *)
Definition updateSubscription (channels : value) : M bool :=
  send "subscribe" (VObj [("channels", orDefault channels (VArr []))]).

(** [sendVoiceCommand(command, metadata = {})] *)
Definition sendVoiceCommand (command metadata : value) : M bool :=
  send "voice_command"
    (VObj [("command", command); ("metadata", orDefault metadata (VObj []))]).

(** [requestStrategy(context = {})] *)
Definition requestStrategy (context : value) : M bool :=
  send "request_strategy" (VObj [("context", orDefault context (VObj []))]).

(** [connect(serverUrl, apiKey)] of the user interface's controller, which
    writes the two settings into the client's configuration and calls
    [connect()]. *)
Definition controllerConnect (url key : string) : M unit :=
  modify (λ w, {| br := br w; cl :=
    {| config := {| serverUrl := url; apiKey := key;
                    reconnectInterval := reconnectInterval (config (cl w));
                    maxReconnectAttempts := maxReconnectAttempts (config (cl w));
                    heartbeatInterval := heartbeatInterval (config (cl w)) |};
       ws := ws (cl w); isConnected := isConnected (cl w);
       reconnectAttempts := reconnectAttempts (cl w);
       reconnectTimer := reconnectTimer (cl w);
       heartbeatTimer := heartbeatTimer (cl w);
       messageHandlers := messageHandlers (cl w);
       connectionCallbacks := connectionCallbacks (cl w) |} |});;
  connect.

End ClientApi.


(** * Properties of the telemetry processor *)

(** ** Merging partial updates *)

Section Merge.
Import JS Telemetry.

(** What the merge loop does to one key of the snapshot, in the words of
    the specification: a key of the snapshot that the partial names takes
    the partial's value, any other key of the snapshot keeps its value, and
    a key the snapshot does not have is not added. *)
Definition overwrite (k : string) (old : option value) (p : list (string * value))
    : option value :=
  match old with
  | Some v => Some (default v (assoc k p))
  | None => None
  end.

Lemma assoc_is_Some {A : Type} (k : string) (o : list (string * A)) :
  is_Some (assoc k o) ↔ k ∈ keys o.
Proof.
  unfold keys. induction o as [|[k' v] o IH]; simpl.
  - split; [intros [? [=]] | intros H; inversion H].
  - case_decide as Hk; subst.
    + split; [intros _; left | eauto].
    + rewrite IH. split; [intros H; by right | intros H].
      inversion H; subst; [done | assumption].
Qed.

Lemma assoc_None {A : Type} (k : string) (o : list (string * A)) :
  assoc k o = None ↔ k ∉ keys o.
Proof. rewrite <- assoc_is_Some, eq_None_not_Some. done. Qed.

Lemma field_insert (d : gmap string value) (k k' : string) (v : value) :
  field (<[k := v]> d) k' = if decide (k = k') then v else field d k'.
Proof.
  unfold field. case_decide; subst.
  - by rewrite lookup_insert_eq.
  - by rewrite lookup_insert_ne.
Qed.

Lemma overwrite_absent (k : string) (old : option value) (p : list (string * value)) :
  k ∉ keys p → overwrite k old p = old.
Proof.
  intros Hk. apply assoc_None in Hk. unfold overwrite. rewrite Hk. by destruct old.
Qed.

Lemma overwrite_idem (k : string) (old : option value) (p : list (string * value)) :
  overwrite k (overwrite k old p) p = overwrite k old p.
Proof. unfold overwrite. destruct old; [|done]. by destruct (assoc k p). Qed.

Lemma mergeKey_lookup (p : list (string * value)) (d : gmap string value) (key k : string) :
  key ∈ keys p → key ∉ objectPrototype →
  mergeKey p d key !! k = if decide (key = k) then overwrite k (d !! k) p else d !! k.
Proof.
  intros Hin Hproto. apply assoc_is_Some in Hin as [v Hv].
  unfold mergeKey, hasProperty, assign, overwrite, prop.
  rewrite (bool_decide_eq_false_2 (key ∈ objectPrototype)) by done.
  rewrite orb_false_r.
  destruct (bool_decide (is_Some (d !! key))) eqn:Hd; case_decide as Hk; subst.
  - apply bool_decide_eq_true in Hd as [old Hold].
    rewrite lookup_insert_eq. by rewrite Hold, Hv.
  - by rewrite lookup_insert_ne.
  - apply bool_decide_eq_false in Hd. apply eq_None_not_Some in Hd. by rewrite Hd.
  - done.
Qed.

Lemma foldl_mergeKey_lookup (p : list (string * value)) (ks : list string)
    (d : gmap string value) (k : string) :
  ks ⊆ keys p → Forall (λ key, key ∉ objectPrototype) ks →
  foldl (mergeKey p) d ks !! k =
    if decide (k ∈ ks) then overwrite k (d !! k) p else d !! k.
Proof.
  revert d. induction ks as [|key ks IH]; intros d Hsub Hproto; cbn [foldl].
  - rewrite decide_False; [done | by intros ?%not_elem_of_nil].
  - assert (Hkey : key ∈ keys p) by (apply Hsub; left).
    assert (Hks : ks ⊆ keys p) by (intros x Hx; apply Hsub; by right).
    apply Forall_cons in Hproto as [Hproto1 Hproto2].
    rewrite IH by done. rewrite mergeKey_lookup by done.
    destruct (decide (key = k)) as [->|Hne].
    + rewrite overwrite_idem. rewrite (decide_True (P := k ∈ k :: ks)) by left.
      by case_decide.
    + destruct (decide (k ∈ ks)) as [Hin|Hnin].
      * by rewrite (decide_True (P := k ∈ key :: ks)) by (by right).
      * rewrite (decide_False (P := k ∈ key :: ks)); [done|].
        intros [->|?]%elem_of_cons; done.
Qed.

(** The merge loop of [updateCurrentData], key by key. *)
Lemma mergeKeys_lookup (p : list (string * value)) (d : gmap string value) (k : string) :
  Forall (λ key, key ∉ objectPrototype) (keys p) →
  mergeKeys p d !! k = overwrite k (d !! k) p.
Proof.
  intros Hproto. unfold mergeKeys. rewrite foldl_mergeKey_lookup by done.
  destruct (decide (k ∈ keys p)); [done|]. by rewrite overwrite_absent.
Qed.

Lemma mergeKeys_field (p : list (string * value)) (d : gmap string value) (k : string) :
  Forall (λ key, key ∉ objectPrototype) (keys p) →
  field (mergeKeys p d) k =
    if decide (is_Some (d !! k) ∧ k ∈ keys p) then prop p k else field d k.
Proof.
  intros Hproto. unfold field. rewrite mergeKeys_lookup by done. unfold overwrite, prop.
  destruct (decide (is_Some (d !! k) ∧ k ∈ keys p)) as [[[old Hd] Hin]|Hn].
  - rewrite Hd. apply assoc_is_Some in Hin as [v Hv]. by rewrite Hv.
  - destruct (d !! k) as [old|] eqn:Hd; [|done].
    destruct (assoc k p) eqn:Hp; [|done].
    exfalso. apply Hn. split; [eauto|]. apply assoc_is_Some. eauto.
Qed.

Lemma field_insert_eq (d : gmap string value) (k : string) (v : value) :
  field (<[k := v]> d) k = v.
Proof. rewrite field_insert. by case_decide. Qed.

Lemma field_insert_ne (d : gmap string value) (k k' : string) (v : value) :
  k ≠ k' → field (<[k := v]> d) k' = field d k'.
Proof. intros. rewrite field_insert. by case_decide. Qed.

Ltac fields :=
  repeat first
    [ rewrite field_insert_eq | rewrite field_insert_ne by done
    | rewrite lookup_insert_eq | rewrite lookup_insert_ne by done ].

(** [calculateDerivedValues] writes the derived fields only. *)
Lemma calculateDerivedValues_frame (d d' : gmap string value) (k : string) :
  calculateDerivedValues d = Some d' → k ∉ derivedKeys → d' !! k = d !! k.
Proof.
  unfold calculateDerivedValues, derivedKeys. intros H Hk.
  assert (k ≠ "maxSpeed" ∧ k ≠ "fuelPercentage" ∧ k ≠ "estimatedLapsRemaining"
          ∧ k ≠ "avgTireTemp" ∧ k ≠ "pitWindowOpen") as (?&?&?&?&?).
  { repeat split; intros ->; apply Hk; set_solver. }
  simplify_option_eq; repeat case_match; simplify_option_eq;
    rewrite ?lookup_insert_ne by done; done.
Qed.

Lemma reduce_sum_total (l : list value) (acc : float) :
  Forall numeric l → is_Some (reduce_sum l acc).
Proof.
  intros Hl. revert acc. induction Hl as [|v l [x Hx] _ IH]; intros acc; simpl.
  - eauto.
  - unfold js_add, num_binop. simpl. rewrite Hx. simpl. apply IH.
Qed.

(** The result of [calculateDerivedValues] on a snapshot whose inputs
    convert to numbers. *)
Lemma calculateDerivedValues_spec (d : gmap string value)
    (sp ms fl fc fu est total : float) (temps : list value) :
  ToNumber (field d "speed") = Some sp →
  ToNumber (field d "maxSpeed") = Some ms →
  ToNumber (field d "fuelLevel") = Some fl →
  ToNumber (field d "fuelCapacity") = Some fc →
  ToNumber (field d "fuelUsagePerLap") = Some fu →
  ToNumber (field d "estimatedLapsRemaining") = Some est →
  Object_values (field d "tireTemps") = Some temps →
  reduce_sum temps 0 = Some total →
  let pct := (fl / fc * 100)%float in
  let laps := if PrimFloat.ltb 0 fu then (fl / fu)%float else est in
  ∃ d', calculateDerivedValues d = Some d' ∧
    d' !! "maxSpeed" = (if PrimFloat.ltb ms sp then Some (field d "speed")
                        else d !! "maxSpeed") ∧
    d' !! "fuelPercentage" = Some (VNum pct) ∧
    d' !! "estimatedLapsRemaining" = (if PrimFloat.ltb 0 fu then Some (VNum (fl / fu))
                                      else d !! "estimatedLapsRemaining") ∧
    d' !! "avgTireTemp" = Some (VNum (total / of_nat (length temps))) ∧
    d' !! "pitWindowOpen" = Some (VBool (PrimFloat.ltb pct 30 || PrimFloat.ltb laps 3)).
Proof.
  intros Hsp Hms Hfl Hfc Hfu Hest Htemps Htotal pct laps.
  unfold calculateDerivedValues, js_gt, js_lt, js_div, num_binop.
  rewrite Hsp, Hms. cbn [mbind option_bind ToNumber].
  set (d1 := if PrimFloat.ltb ms sp then _ else d).
  assert (Hd1 : ∀ k, k ≠ "maxSpeed" → field d1 k = field d k).
  { intros k Hk. subst d1. destruct (PrimFloat.ltb ms sp); [|done].
    by rewrite field_insert_ne. }
  rewrite !Hd1 by done. rewrite Hfl, Hfc. cbn [mbind option_bind].
  rewrite !field_insert_ne by done. rewrite !Hd1 by done.
  rewrite Hfu, Hfl. cbn [mbind option_bind].
  assert (Hms1 : d1 !! "maxSpeed" =
                 if PrimFloat.ltb ms sp then Some (field d "speed") else d !! "maxSpeed").
  { subst d1. destruct (PrimFloat.ltb ms sp); [|done]. by rewrite lookup_insert_eq. }
  subst laps. destruct (PrimFloat.ltb 0 fu); cbn [mbind option_bind].
  - fields. rewrite Hd1 by done. rewrite Htemps. cbn [mbind option_bind].
    rewrite Htotal. cbn [mbind option_bind]. fields. cbn [mbind option_bind ToNumber].
    fold pct. destruct (PrimFloat.ltb pct 30); cbn [mbind option_bind orb];
      (eexists; split; [reflexivity|]); fields; done.
  - fields. rewrite Hd1 by done. rewrite Htemps. cbn [mbind option_bind].
    rewrite Htotal. cbn [mbind option_bind]. fields. rewrite Hd1 by done.
    rewrite Hest. cbn [mbind option_bind ToNumber].
    assert (Hl1 : d1 !! "estimatedLapsRemaining" = d !! "estimatedLapsRemaining").
    { subst d1. destruct (PrimFloat.ltb ms sp); [|done]. by rewrite lookup_insert_ne. }
    fold pct. destruct (PrimFloat.ltb pct 30); cbn [mbind option_bind orb];
      (eexists; split; [reflexivity|]); fields; done.
Qed.

Lemma mergeKeys_wellTyped (p : list (string * value)) (d : gmap string value) :
  wellTyped d → wellTypedPartial p → wellTyped (mergeKeys p d).
Proof.
  intros [Hd Ht] (Hp & Hpt & Hproto). split.
  - rewrite Forall_forall in Hd, Hp. apply Forall_forall. intros k Hk.
    rewrite mergeKeys_field by done.
    case_decide as H; [apply Hp; tauto | by apply Hd].
  - rewrite mergeKeys_field by done. case_decide as H; [apply Hpt; tauto | done].
Qed.

Lemma wellTyped_reads (d : gmap string value) :
  wellTyped d →
  ∃ sp ms fl fc fu est temps total,
    ToNumber (field d "speed") = Some sp ∧
    ToNumber (field d "maxSpeed") = Some ms ∧
    ToNumber (field d "fuelLevel") = Some fl ∧
    ToNumber (field d "fuelCapacity") = Some fc ∧
    ToNumber (field d "fuelUsagePerLap") = Some fu ∧
    ToNumber (field d "estimatedLapsRemaining") = Some est ∧
    Object_values (field d "tireTemps") = Some temps ∧
    reduce_sum temps 0 = Some total.
Proof.
  intros [Hd (temps & Htemps & Hnum)].
  rewrite Forall_forall in Hd. unfold numericKeys in Hd.
  destruct (Hd "speed") as [sp Hsp]; [compute_done|].
  destruct (Hd "maxSpeed") as [ms Hmax]; [compute_done|].
  destruct (Hd "fuelLevel") as [fl Hfl]; [compute_done|].
  destruct (Hd "fuelCapacity") as [fc Hfc]; [compute_done|].
  destruct (Hd "fuelUsagePerLap") as [fu Hfu]; [compute_done|].
  destruct (Hd "estimatedLapsRemaining") as [est Hest0]; [compute_done|].
  destruct (reduce_sum_total temps 0 Hnum) as [total Htotal].
  by exists sp, ms, fl, fc, fu, est, temps, total.
Qed.

Lemma calculateDerivedValues_wellTyped (d : gmap string value) :
  wellTyped d → ∃ d', calculateDerivedValues d = Some d' ∧ wellTyped d'.
Proof.
  intros [Hd (temps & Htemps & Hnum)].
  rewrite Forall_forall in Hd. unfold numericKeys in Hd.
  destruct (Hd "speed") as [sp Hsp]; [compute_done|].
  destruct (Hd "maxSpeed") as [ms Hmax]; [compute_done|].
  destruct (Hd "fuelLevel") as [fl Hfl]; [compute_done|].
  destruct (Hd "fuelCapacity") as [fc Hfc]; [compute_done|].
  destruct (Hd "fuelUsagePerLap") as [fu Hfu]; [compute_done|].
  destruct (Hd "estimatedLapsRemaining") as [est Hest0]; [compute_done|].
  destruct (reduce_sum_total temps 0 Hnum) as [total Htotal].
  destruct (calculateDerivedValues_spec d sp ms fl fc fu est total temps)
    as (d' & Hcalc & Hms & _ & Hest & _); [done..|].
  exists d'. split; [done|].
  assert (Hsame : ∀ k, k ∉ derivedKeys → field d' k = field d k).
  { intros k Hk. unfold field. by rewrite (calculateDerivedValues_frame d d'). }
  split.
  - apply Forall_forall. intros k Hk.
    destruct (decide (k = "maxSpeed")) as [->|Hn1].
    { unfold field at 1. rewrite Hms. destruct (PrimFloat.ltb ms sp); simpl.
      - apply (Hd "speed"). compute_done.
      - apply (Hd "maxSpeed"). compute_done. }
    destruct (decide (k = "estimatedLapsRemaining")) as [->|Hn2].
    { unfold field at 1. rewrite Hest. destruct (PrimFloat.ltb 0 fu); simpl.
      - by eexists.
      - apply (Hd "estimatedLapsRemaining"). compute_done. }
    rewrite Hsame; [by apply Hd|].
    unfold numericKeys, derivedKeys in *. set_solver.
  - rewrite Hsame by compute_done. by exists temps.
Qed.




Lemma demoData_wellTyped : wellTyped demoData.
Proof.
  split.
  - unfold numericKeys, numeric. repeat constructor; vm_compute; by eexists.
  - eexists. split; [vm_compute; reflexivity|].
    unfold numeric. repeat constructor; by eexists.
Qed.



(** The [in] test of the merge loop also accepts the names that every
    object inherits: a partial with the key [toString] gives the snapshot a
    property of that name. *)
Example merge_adds_inherited_key :
  demoData !! "toString" = None ∧
  (d' ← updateCurrentData [("toString", VNum 1)] demoData; d' !! "toString")
    = Some (VNum 1).
Proof. split; vm_compute; reflexivity. Qed.

End Merge.

(** ** Derived values *)

Section Derived.
Import JS Telemetry.

Ltac fields :=
  repeat first
    [ rewrite field_insert_eq | rewrite field_insert_ne by done
    | rewrite lookup_insert_eq | rewrite lookup_insert_ne by done ].

(** The derived fields of the result of [calculateDerivedValues], stated on
    the fields of the result itself. *)
Lemma calculateDerivedValues_derived (m : gmap string value) :
  wellTyped m →
  ∃ d' fl fc fu laps temps total,
    calculateDerivedValues m = Some d' ∧
    ToNumber (field d' "fuelLevel") = Some fl ∧
    ToNumber (field d' "fuelCapacity") = Some fc ∧
    ToNumber (field d' "fuelUsagePerLap") = Some fu ∧
    ToNumber (field d' "estimatedLapsRemaining") = Some laps ∧
    Object_values (field d' "tireTemps") = Some temps ∧
    reduce_sum temps 0 = Some total ∧
    field d' "fuelPercentage" = VNum (fl / fc * 100) ∧
    (if PrimFloat.ltb 0 fu
     then field d' "estimatedLapsRemaining" = VNum (fl / fu)
     else field d' "estimatedLapsRemaining" = field m "estimatedLapsRemaining") ∧
    field d' "avgTireTemp" = VNum (total / of_nat (length temps)) ∧
    field d' "pitWindowOpen" =
      VBool (PrimFloat.ltb (fl / fc * 100) 30 || PrimFloat.ltb laps 3).
Proof.
  intros Hm.
  destruct (wellTyped_reads m Hm)
    as (sp & ms & fl & fc & fu & est & temps & total & Hsp & Hms & Hfl & Hfc & Hfu
        & Hest & Htemps & Htotal).
  destruct (calculateDerivedValues_spec m sp ms fl fc fu est total temps)
    as (d' & Hcalc & _ & Hpct & Hlaps & Havg & Hpit); [done..|].
  assert (Hsame : ∀ k, k ∉ derivedKeys → field d' k = field m k).
  { intros k Hk. unfold field. by rewrite (calculateDerivedValues_frame m d'). }
  exists d', fl, fc, fu, (if PrimFloat.ltb 0 fu then (fl / fu)%float else est), temps, total.
  split; [done|].
  rewrite (Hsame "fuelLevel"), (Hsame "fuelCapacity"), (Hsame "fuelUsagePerLap"),
    (Hsame "tireTemps") by compute_done.
  split_and!; try done.
  - unfold field at 1. rewrite Hlaps. by destruct (PrimFloat.ltb 0 fu).
  - by unfold field; rewrite Hpct.
  - destruct (PrimFloat.ltb 0 fu); unfold field; by rewrite Hlaps.
  - by unfold field; rewrite Havg.
  - by unfold field; rewrite Hpit.
Qed.

(** C3 (amended).  After every merge of a well-typed partial into a
    well-typed snapshot: [fuelPercentage] is [fuelLevel / fuelCapacity * 100];
    [estimatedLapsRemaining] is [fuelLevel / fuelUsagePerLap] when the usage
    is positive, and otherwise keeps the value it had after the key
    overwrite (the previous estimate, or the one the partial supplied);
    [avgTireTemp] is the sum of the values of [tireTemps] divided by their
    number, which for the four corners is their mean; and [pitWindowOpen] is
    [fuelPercentage < 30 || estimatedLapsRemaining < 3] on the stored
    estimate.  With [fuelLevel = 18.7], [fuelCapacity = 100] and
    [fuelUsagePerLap = 2.5] the estimate is the double [18.7 / 2.5], within
    [1e-15] of 7.48, and the pit window is open. *)
Theorem derived_values_after_merge (p : list (string * value)) (d : gmap string value) :
  wellTyped d → wellTypedPartial p →
  ∃ d' fl fc fu laps temps total,
    updateCurrentData p d = Some d' ∧
    ToNumber (field d' "fuelLevel") = Some fl ∧
    ToNumber (field d' "fuelCapacity") = Some fc ∧
    ToNumber (field d' "fuelUsagePerLap") = Some fu ∧
    ToNumber (field d' "estimatedLapsRemaining") = Some laps ∧
    Object_values (field d' "tireTemps") = Some temps ∧
    reduce_sum temps 0 = Some total ∧
    field d' "fuelPercentage" = VNum (fl / fc * 100) ∧
    (if PrimFloat.ltb 0 fu
     then field d' "estimatedLapsRemaining" = VNum (fl / fu)
     else field d' "estimatedLapsRemaining"
          = field (mergeKeys p d) "estimatedLapsRemaining") ∧
    field d' "avgTireTemp" = VNum (total / of_nat (length temps)) ∧
    field d' "pitWindowOpen" =
      VBool (PrimFloat.ltb (fl / fc * 100) 30 || PrimFloat.ltb laps 3) ∧
    (∀ a b c e, field d' "tireTemps" = corners a b c e →
       field d' "avgTireTemp" = VNum ((0 + a + b + c + e) / 4)) ∧
    (fl = 18.7%float → fc = 100%float → fu = 2.5%float →
       field d' "estimatedLapsRemaining" = VNum (18.7 / 2.5) ∧
       PrimFloat.ltb (abs (18.7 / 2.5 - 7.48)) 1e-15 = true ∧
       field d' "pitWindowOpen" = VBool true).
Proof.
  intros Hd Hp. unfold updateCurrentData.
  destruct (calculateDerivedValues_derived (mergeKeys p d))
    as (d' & fl & fc & fu & laps & temps & total & Hcalc & Hfl & Hfc & Hfu & Hlaps
        & Htemps & Htotal & Hpct & Hest & Havg & Hpit);
    [by apply mergeKeys_wellTyped|].
  exists d', fl, fc, fu, laps, temps, total.
  split_and!; try done.
  - intros a b c e Ht. rewrite Ht in Htemps. injection Htemps as <-.
    cbn in Htotal. injection Htotal as <-. exact Havg.
  - intros -> -> ->. change (PrimFloat.ltb 0 2.5) with true in Hest.
    split; [done|]. split; [reflexivity|].
    rewrite Hpit. reflexivity.
Qed.

(** Witness for C3: the fuel figures of the specification merged into the
    demo snapshot. *)
Lemma derived_values_after_merge_witness :
  ∃ d' fl fc fu laps temps total,
    updateCurrentData
      [("fuelLevel", VNum 18.7); ("fuelCapacity", VNum 100); ("fuelUsagePerLap", VNum 2.5)]
      demoData = Some d' ∧
    ToNumber (field d' "fuelLevel") = Some fl ∧
    ToNumber (field d' "fuelCapacity") = Some fc ∧
    ToNumber (field d' "fuelUsagePerLap") = Some fu ∧
    ToNumber (field d' "estimatedLapsRemaining") = Some laps ∧
    Object_values (field d' "tireTemps") = Some temps ∧
    reduce_sum temps 0 = Some total ∧
    field d' "fuelPercentage" = VNum (fl / fc * 100) ∧
    (if PrimFloat.ltb 0 fu
     then field d' "estimatedLapsRemaining" = VNum (fl / fu)
     else field d' "estimatedLapsRemaining"
          = field (mergeKeys
                     [("fuelLevel", VNum 18.7); ("fuelCapacity", VNum 100);
                      ("fuelUsagePerLap", VNum 2.5)] demoData)
              "estimatedLapsRemaining") ∧
    field d' "avgTireTemp" = VNum (total / of_nat (length temps)) ∧
    field d' "pitWindowOpen" =
      VBool (PrimFloat.ltb (fl / fc * 100) 30 || PrimFloat.ltb laps 3) ∧
    (∀ a b c e, field d' "tireTemps" = corners a b c e →
       field d' "avgTireTemp" = VNum ((0 + a + b + c + e) / 4)) ∧
    (fl = 18.7%float → fc = 100%float → fu = 2.5%float →
       field d' "estimatedLapsRemaining" = VNum (18.7 / 2.5) ∧
       PrimFloat.ltb (abs (18.7 / 2.5 - 7.48)) 1e-15 = true ∧
       field d' "pitWindowOpen" = VBool true).
Proof.
  apply (derived_values_after_merge
           [("fuelLevel", VNum 18.7); ("fuelCapacity", VNum 100);
            ("fuelUsagePerLap", VNum 2.5)] demoData).
  - exact demoData_wellTyped.
  - split_and!.
    + unfold numericKeys, numeric. repeat constructor; intros _; vm_compute; by eexists.
    + intros H. exfalso. revert H. compute_done.
    + unfold keys. cbn. repeat constructor; compute_done.
Defined.

(** C3, counterexample.  After [{fuelLevel: 50, fuelUsagePerLap: 20}] the
    estimate is 2.5 laps; a further [{fuelUsagePerLap: 0}] leaves that stale
    estimate in place (it is neither undefined nor infinite), and the pit
    window stays open on it although the tank is half full. *)
Lemma zero_usage_keeps_stale_estimate :
  (d' ← updateAll [[("fuelLevel", VNum 50); ("fuelUsagePerLap", VNum 20)];
                   [("fuelUsagePerLap", VNum 0)]] demoData;
   Some (d' !! "fuelUsagePerLap", d' !! "fuelPercentage",
         d' !! "estimatedLapsRemaining", d' !! "pitWindowOpen"))
  = Some (Some (VNum 0), Some (VNum 50), Some (VNum 2.5), Some (VBool true)).
Proof. vm_compute. reflexivity. Qed.

End Derived.

(** ** History rings *)

Section History.
Import JS Telemetry.

(** A bounded first-in first-out queue, in the words of the specification:
    below capacity the element is appended; at capacity the oldest element
    leaves and the others keep their order. *)
Definition fifo_push {A : Type} (N : Z) (ring : list A) (x : A) : list A :=
  if (Z.of_nat (length ring) <? N)%Z then ring ++ [x] else drop 1 ring ++ [x].

(** The history expected after one recording, ring by ring: the tracked
    fields and the tire keys of the snapshot receive one element each, the
    other arrays none. *)
Definition fifoRecord (N : Z) (h : DataHistory) (r : recording) : DataHistory :=
  let d := rec_data r in
  let currentTime := if truthy (rec_timestamp r) then rec_timestamp r
                     else VNum (rec_now r) in
  let temps := field d "tireTemps" in
  let tires := default [] (Object_keys temps) in
  {| speed := fifo_push N (speed h) (field d "speed");
     rpm := fifo_push N (rpm h) (field d "rpm");
     fuelLevel := fifo_push N (fuelLevel h) (field d "fuelLevel");
     lapTimes := lapTimes h;
     sectorTimes := sectorTimes h;
     tireTemps :=
       map_imap (λ tire ring,
                   Some (if decide (tire ∈ tires)
                         then fifo_push N ring (member temps tire) else ring))
                (tireTemps h);
     engineTemp := fifo_push N (engineTemp h) (field d "engineTemp");
     timestamps := fifo_push N (timestamps h) currentTime |}.

Definition within {A : Type} (N : Z) (ring : list A) : Prop :=
  (Z.of_nat (length ring) ≤ N)%Z.

(** Every ring holds at most [N] elements. *)
Definition bounded (N : Z) (h : DataHistory) : Prop :=
  within N (speed h) ∧ within N (rpm h) ∧ within N (fuelLevel h) ∧
  within N (lapTimes h) ∧ within N (sectorTimes h) ∧
  map_Forall (λ _ ring, within N ring) (tireTemps h) ∧
  within N (engineTemp h) ∧ within N (timestamps h).

(** A recording whose snapshot holds a tire-temperature object, each key of
    which has its array in the history. *)
Definition tiresKnown (h : DataHistory) (r : recording) : Prop :=
  ∃ o, field (rec_data r) "tireTemps" = VObj o ∧ NoDup (keys o) ∧
       ∀ tire, tire ∈ keys o → is_Some (tireTemps h !! tire).

Lemma limit_within {A : Type} (N : Z) (ring : list A) :
  within N ring → limit N ring = ring.
Proof.
  unfold within, limit. intros H.
  destruct (Z.ltb_spec N (Z.of_nat (length ring))); [lia | done].
Qed.

Lemma limit_push {A : Type} (N : Z) (ring : list A) (x : A) :
  (0 < N)%Z → within N ring → limit N (ring ++ [x]) = fifo_push N ring x.
Proof.
  unfold within, limit, fifo_push, slice. intros HN H.
  rewrite length_app. cbn [length].
  destruct (Z.ltb_spec (Z.of_nat (length ring)) N) as [Hlt|Hge].
  - destruct (Z.ltb_spec N (Z.of_nat (length ring + 1))); [lia | done].
  - destruct (Z.ltb_spec N (Z.of_nat (length ring + 1))); [|lia].
    destruct (Z.ltb_spec (- N) 0); [|lia].
    replace (Z.to_nat _) with 1%nat by lia.
    destruct ring as [|y ring]; [cbn [length] in *; lia | done].
Qed.

Lemma fifo_push_within {A : Type} (N : Z) (ring : list A) (x : A) :
  (0 < N)%Z → within N ring → within N (fifo_push N ring x).
Proof.
  unfold within, fifo_push. intros HN H.
  destruct (Z.ltb_spec (Z.of_nat (length ring)) N).
  - rewrite length_app. cbn [length]. lia.
  - rewrite length_app, length_drop. cbn [length]. lia.
Qed.


Lemma foldl_pushTire_None (temps : value) (tires : list string) :
  foldl (pushTire temps) None tires = None.
Proof. by induction tires. Qed.

Lemma foldl_pushTire (temps : value) (tires : list string)
    (rings : gmap string (list value)) :
  NoDup tires → (∀ tire, tire ∈ tires → is_Some (rings !! tire)) →
  ∃ rings', foldl (pushTire temps) (Some rings) tires = Some rings' ∧
    ∀ k, rings' !! k =
      (λ ring, if decide (k ∈ tires) then ring ++ [member temps k] else ring)
        <$> rings !! k.
Proof.
  intros Hnd. revert rings. induction Hnd as [|tire tires Hnin Hnd IH]; intros rings Hin.
  - exists rings. split; [done|]. intros k.
    destruct (rings !! k); [|done]. cbn. rewrite decide_False; [done|].
    by intros ?%not_elem_of_nil.
  - destruct (Hin tire) as [ring Hring]; [by left|].
    cbn [foldl]. unfold pushTire at 2. cbn [mbind option_bind]. rewrite Hring.
    cbn [mbind option_bind].
    destruct (IH (<[tire := ring ++ [member temps tire]]> rings)) as (rings' & Hf & Hl).
    { intros t Ht. destruct (decide (tire = t)) as [->|Hne].
      - rewrite lookup_insert_eq. eauto.
      - rewrite lookup_insert_ne by done. apply Hin. by right. }
    exists rings'. split; [done|]. intros k. rewrite Hl.
    destruct (decide (tire = k)) as [->|Hne].
    + rewrite lookup_insert_eq, Hring. cbn.
      rewrite (decide_False (P := k ∈ tires)) by done.
      by rewrite (decide_True (P := k ∈ k :: tires)) by left.
    + rewrite lookup_insert_ne by done. destruct (rings !! k); [|done]. cbn.
      destruct (decide (k ∈ tires)).
      * by rewrite (decide_True (P := k ∈ tire :: tires)) by (by right).
      * rewrite (decide_False (P := k ∈ tire :: tires)); [done|].
        intros [->|?]%elem_of_cons; done.
Qed.

Lemma fifoRecord_tires (N : Z) (h : DataHistory) (r : recording) (k : string) :
  is_Some (tireTemps (fifoRecord N h r) !! k) ↔ is_Some (tireTemps h !! k).
Proof.
  cbn. rewrite map_lookup_imap. destruct (tireTemps h !! k); cbn; [|done].
  split; eauto.
Qed.

Lemma fifoRecord_bounded (N : Z) (h : DataHistory) (r : recording) :
  (0 < N)%Z → bounded N h → bounded N (fifoRecord N h r).
Proof.
  intros HN (?&?&?&?&?&Ht&?&?). unfold bounded. cbn.
  split_and!; try (by apply fifo_push_within); try done.
  intros k ring. rewrite map_lookup_imap.
  destruct (tireTemps h !! k) as [ring0|] eqn:Hk; cbn; [|done].
  intros [= <-]. specialize (Ht k ring0 Hk). cbn in Ht.
  case_decide; [by apply fifo_push_within | done].
Qed.

(** One recording: the code's push-then-trim is the bounded queue. *)
Lemma record_step (r : recording) (p : TelemetryProcessor) :
  (0 < maxHistoryLength p)%Z →
  bounded (maxHistoryLength p) (dataHistory p) →
  tiresKnown (dataHistory p) r →
  ∃ p', record r p = Some p' ∧
        maxHistoryLength p' = maxHistoryLength p ∧
        dataHistory p' = fifoRecord (maxHistoryLength p) (dataHistory p) r.
Proof.
  intros HN (?&?&?&?&?&Ht&?&?) (o & Ho & Hnd & Hknown).
  unfold record, updateHistory. cbn [currentData dataHistory maxHistoryLength].
  rewrite Ho. cbn [Object_keys mbind option_bind].
  destruct (foldl_pushTire (VObj o) (keys o) (tireTemps (dataHistory p)))
    as (rings' & -> & Hl); [done..|].
  cbn [mbind option_bind]. eexists. split; [reflexivity|]. split; [done|].
  cbn [dataHistory]. unfold fifoRecord. rewrite Ho. cbn [Object_keys default].
  rewrite !limit_push, !limit_within by done.
  f_equal. apply map_eq. intros k.
  rewrite lookup_fmap, Hl, map_lookup_imap.
  destruct (tireTemps (dataHistory p) !! k) as [ring|] eqn:Hk; cbn; [|done].
  specialize (Ht k ring Hk). cbn in Ht.
  case_decide; [by rewrite limit_push | by rewrite limit_within].
Qed.


Lemma newProcessor_bounded : bounded 300 (dataHistory newProcessor).
Proof.
  unfold bounded, within. cbn. split_and!; try lia.
  intros k ring Hk. cbn.
  assert (ring = []) as ->; [|cbn; lia].
  revert Hk. unfold emptyHistory. cbn.
  rewrite !lookup_insert. repeat case_decide; try congruence.
  by rewrite lookup_empty.
Qed.


End History.

(** ** Strategy suggestions *)

Section Advisor.
Import JS Telemetry.










End Advisor.

(** ** The accessors *)

Section Accessors.
Import JS Store.

Lemma spreadObject_fresh (l : loc) (h : gmap loc cell) :
  (spreadObject l h).1 ∉ dom h.
Proof.
  unfold spreadObject. destruct (h !! l) as [[props|items]|]; cbn; apply is_fresh.
Qed.

Lemma spreadObject_frame (l l0 : loc) (h : gmap loc cell) :
  l0 ≠ (spreadObject l h).1 → (spreadObject l h).2 !! l0 = h !! l0.
Proof.
  unfold spreadObject.
  destruct (h !! l) as [[props|items]|]; cbn; intros Hne; by rewrite lookup_insert_ne.
Qed.

Lemma spreadObject_copy (l : loc) (h : gmap loc cell) (props : gmap string slot) :
  h !! l = Some (Obj props) →
  (spreadObject l h).2 !! (spreadObject l h).1 = Some (Obj props).
Proof. unfold spreadObject. intros ->. cbn. by rewrite lookup_insert_eq. Qed.

Definition source (a : accessor) (p : processor) : loc :=
  match a with
  | GetCurrentData => this_currentData p
  | GetDataHistory => this_dataHistory p
  end.

(** C10 (amended).  Each accessor returns a new object holding the
    properties of the processor's object, and any operation the caller
    applies to the returned object itself (setting, adding or deleting one
    of its properties) changes that new object only: every object and array
    that existed before the call, among them [this.currentData],
    [this.dataHistory] and everything nested in them, is as it was, and the
    processor's two references are unchanged. *)
Theorem accessor_copy_protects_top_level (a : accessor) (p : processor) (op : operation) :
  let ret := (call a p).1 in
  let p1 := (call a p).2 in
  let p2 := mutate ret [] op p1 in
  (ret ∉ dom (cells p)) ∧
  (∀ props, cells p !! source a p = Some (Obj props) →
            cells p1 !! ret = Some (Obj props)) ∧
  (∀ l, l ≠ ret → cells p2 !! l = cells p !! l) ∧
  this_currentData p2 = this_currentData p ∧
  this_dataHistory p2 = this_dataHistory p.
Proof.
  unfold call. fold (source a p).
  pose proof (spreadObject_fresh (source a p) (cells p)) as Hfresh.
  pose proof (λ l0, spreadObject_frame (source a p) l0 (cells p)) as Hframe.
  pose proof (spreadObject_copy (source a p) (cells p)) as Hcopy.
  destruct (spreadObject (source a p) (cells p)) as [ret h] eqn:Hs.
  cbn [fst snd] in *. unfold mutate. cbn [read cells].
  split_and!; try done.
  intros l Hl. cbn. rewrite lookup_alter_ne by done. by apply Hframe.
Qed.

(** C10, counterexample.  On a fresh processor, writing through the
    nested tire-temperature object of the value returned by
    [getCurrentData], and pushing onto the speed array of the value
    returned by [getDataHistory], both change what the processor itself
    reads. *)
Lemma nested_mutation_reaches_processor :
  let p := newProcessor in
  read (cells p) (Ref (this_currentData p)) ["tireTemps"; "fl"] = Some (Prim (VNum 89)) ∧
  read (cells p) (Ref (this_dataHistory p)) ["speed"; "0"] = None ∧
  (let '(ret, p1) := call GetCurrentData p in
   let p2 := mutate ret ["tireTemps"] (SetProp "fl" (Prim (VNum 999))) p1 in
   read (cells p2) (Ref (this_currentData p2)) ["tireTemps"; "fl"])
    = Some (Prim (VNum 999)) ∧
  (let '(ret, p1) := call GetDataHistory p in
   let p2 := mutate ret ["speed"] (Push (Prim (VNum 1))) p1 in
   read (cells p2) (Ref (this_dataHistory p2)) ["speed"; "0"])
    = Some (Prim (VNum 1)).
Proof. vm_compute. done. Qed.

End Accessors.

(** * Properties of the WebSocket client *)

(** ** Message dispatch *)

Section Dispatch.
Import JS Client.

(** The world after some effects, everything else as before. *)
Definition emits (es : list effect) (w : world) : world :=
  {| cl := cl w;
     br := {| trace := trace (br w) ++ es; sockets := sockets (br w);
              timers := timers (br w); nextId := nextId (br w);
              clock := clock (br w); constructible := constructible (br w) |} |}.

Lemma emits_nil (w : world) : emits [] w = w.
Proof. destruct w as [c []]. unfold emits. cbn. by rewrite app_nil_r. Qed.

Lemma emits_emits (es1 es2 : list effect) (w : world) :
  emits es2 (emits es1 w) = emits (es1 ++ es2) w.
Proof. unfold emits. cbn. by rewrite app_assoc. Qed.

(** The [forEach] over the handlers, each call in its own [try]: every
    handler is called, whichever of them throw. *)
Lemma forEach_handlers (data timestamp : value) (hs : list handler) (w : world) :
  forEach (λ h, try_catch (callHandler data timestamp h) (ret ())) hs w =
    (Normal (), emits ((λ h, Handled (handler_id h) data timestamp) <$> hs) w).
Proof.
  revert w. induction hs as [|h hs IH]; intros w.
  - cbn. by rewrite emits_nil.
  - cbn [forEach fmap list_fmap]. unfold mbind, M_bind, bind at 1.
    unfold try_catch, callHandler at 1. unfold mbind, M_bind, bind, emit, modify.
    destruct (handler_throws h data timestamp); cbn; rewrite IH;
      f_equal; unfold emits; cbn; by rewrite <- app_assoc.
Qed.

Lemma forEach_callbacks (status : string) (details : detail) (cbs : list callback)
    (w : world) :
  forEach (λ cb, try_catch (callCallback status details cb) (ret ())) cbs w =
    (Normal (), emits ((λ cb, Status (callback_id cb) status details) <$> cbs) w).
Proof.
  revert w. induction cbs as [|cb cbs IH]; intros w.
  - cbn. by rewrite emits_nil.
  - cbn [forEach fmap list_fmap]. unfold mbind, M_bind, bind at 1.
    unfold try_catch, callCallback at 1. unfold mbind, M_bind, bind, emit, modify.
    destruct (callback_throws cb status details); cbn; rewrite IH;
      f_equal; unfold emits; cbn; by rewrite <- app_assoc.
Qed.

(** [notifyConnectionChange] calls every callback and never throws. *)
Lemma notifyConnectionChange_run (status : string) (details : detail) (w : world) :
  notifyConnectionChange status details w =
    (Normal (),
     emits ((λ cb, Status (callback_id cb) status details) <$> connectionCallbacks (cl w)) w).
Proof.
  unfold notifyConnectionChange, mbind, M_bind, bind, gets. apply forEach_callbacks.
Qed.

(** The socket a frame can be sent on, if any. *)
Definition canSend (w : world) : option nat :=
  match ws (cl w) with
  | Some sid =>
      if isConnected (cl w) && bool_decide (stateOf sid w = OPEN) then Some sid else None
  | None => None
  end.

Lemma send_run (type : string) (data : value) (w : world) :
  send type data w =
    match canSend w with
    | Some sid => (Normal true, emits [Sent sid type (clock (br w)) data] w)
    | None => (Normal false, w)
    end.
Proof.
  unfold send, canSend, mbind, M_bind, bind, gets.
  destruct (ws (cl w)) as [sid|]; [|done].
  destruct (isConnected (cl w) && bool_decide (stateOf sid w = OPEN)); done.
Qed.

(** The calls of message handlers in a trace. *)
Definition handlerCalls (tr : list effect) : list (nat * value * value) :=
  omap (λ e, match e with
             | Handled h data timestamp => Some (h, data, timestamp)
             | _ => None
             end) tr.

(** The calls a frame is due, in the words of the specification: none for
    a frame that does not parse, for [ping] and for [pong]; otherwise one
    per handler registered for the type of the envelope, in registration
    order, with its data and timestamp. *)
Definition dispatchOf (handlers : gmap string (list handler)) (f : frame)
    : list (nat * value * value) :=
  match f with
  | Malformed | Json VNull | Json VUndefined => []
  | Json message =>
      match member message "type" with
      | VStr t =>
          if decide (t = "ping" ∨ t = "pong") then []
          else (λ h, (handler_id h, member message "data", member message "timestamp"))
                 <$> default [] (handlers !! t)
      | _ => []
      end
  end.

Lemma handlerCalls_app (tr1 tr2 : list effect) :
  handlerCalls (tr1 ++ tr2) = handlerCalls tr1 ++ handlerCalls tr2.
Proof. apply omap_app. Qed.

Lemma handlerCalls_Handled (data timestamp : value) (hs : list handler) :
  handlerCalls ((λ h, Handled (handler_id h) data timestamp) <$> hs) =
    (λ h, (handler_id h, data, timestamp)) <$> hs.
Proof. induction hs as [|h hs IH]; [done|]. cbn. by rewrite <- IH. Qed.

Lemma is_str_spec (v : value) (s : string) :
  is_str v s = true ↔ v = VStr s.
Proof.
  destruct v; cbn; try (split; [discriminate | intros [=]]).
  rewrite String.eqb_eq. split; [by intros -> | by intros [= ->]].
Qed.

(** The body of [onMessage] once the envelope is destructured. *)
Definition routed (type data timestamp : value) : M unit :=
  if is_str type "ping" then
    send "pong" (VObj [("timestamp", timestamp)]);; ret ()
  else if is_str type "pong" then ret ()
  else
    hs ← gets (handlersFor type);
    match hs with
    | Some handlers =>
        forEach (λ h, try_catch (callHandler data timestamp h) (ret ())) handlers
    | None => ret ()
    end.

Lemma onMessage_Json (message : value) (w : world) :
  message ≠ VNull → message ≠ VUndefined →
  onMessage (Json message) w =
    try_catch
      (routed (member message "type") (member message "data") (member message "timestamp"))
      (ret ()) w.
Proof. destruct message; done. Qed.

Lemma routed_run (type data timestamp : value) (w : world) :
  ∃ es, routed type data timestamp w = (Normal (), emits es w) ∧
        handlerCalls es =
          match type with
          | VStr t =>
              if decide (t = "ping" ∨ t = "pong") then []
              else (λ h, (handler_id h, data, timestamp))
                     <$> default [] (messageHandlers (cl w) !! t)
          | _ => []
          end.
Proof.
  unfold routed. destruct (is_str type "ping") eqn:Hping.
  { apply is_str_spec in Hping. rewrite Hping.
    rewrite decide_True by (by left).
    unfold mbind, M_bind, bind. rewrite send_run.
    destruct (canSend w); eexists; (split; [reflexivity || by rewrite emits_nil|]); done. }
  destruct (is_str type "pong") eqn:Hpong.
  { apply is_str_spec in Hpong. rewrite Hpong.
    rewrite decide_True by (by right).
    exists []. by rewrite emits_nil. }
  unfold mbind, M_bind, bind, gets, handlersFor.
  destruct type as [| | | |t| |]; try (exists []; by rewrite emits_nil).
  rewrite decide_False.
  2:{ intros [->| ->]; cbn in *; discriminate. }
  destruct (messageHandlers (cl w) !! t) as [hs|]; cbn [default].
  - rewrite forEach_handlers. eexists. split; [reflexivity|].
    apply handlerCalls_Handled.
  - exists []. by rewrite emits_nil.
Qed.

(** [onMessage] never throws, touches the trace only, and calls exactly
    the handlers the frame is due. *)
Lemma onMessage_run (f : frame) (w : world) :
  ∃ es, onMessage f w = (Normal (), emits es w) ∧
        handlerCalls es = dispatchOf (messageHandlers (cl w)) f.
Proof.
  destruct f as [|message].
  { exists []. by rewrite emits_nil. }
  destruct (routed_run (member message "type") (member message "data")
              (member message "timestamp") w) as (es & Hrun & Hcalls).
  assert (Hcases : message = VNull ∨ message = VUndefined
                   ∨ (message ≠ VNull ∧ message ≠ VUndefined)).
  { destruct message; auto. }
  destruct Hcases as [->|[->|[Hn Hu]]]; try (exists []; by rewrite emits_nil).
  exists es. rewrite onMessage_Json by done. unfold try_catch. rewrite Hrun.
  split; [done|]. rewrite Hcalls. by destruct message.
Qed.

(** The frames of a connection, handled in the order of their arrival. *)
Definition receiveAll (fs : list frame) (w : world) : world :=
  foldl (λ w f, run (onMessage f) w) w fs.

Lemma onMessage_handlers (f : frame) (w : world) :
  messageHandlers (cl (run (onMessage f) w)) = messageHandlers (cl w).
Proof.
  destruct (onMessage_run f w) as (es & Hrun & _). unfold run. by rewrite Hrun.
Qed.

(** C8.  Whatever the registered handlers do, throw or return, a sequence
    of frames leads to exactly the calls the frames are due: every handler
    registered for the type of each envelope is called, in registration
    order, for that envelope and for every later one.  (The statement does
    not mention [handler_throws]: the calls do not depend on it.) *)
Theorem throwing_handler_does_not_stop_dispatch (fs : list frame) (w : world) :
  handlerCalls (trace (br (receiveAll fs w))) =
    handlerCalls (trace (br w)) ++ (fs ≫= dispatchOf (messageHandlers (cl w))).
Proof.
  revert w. induction fs as [|f fs IH]; intros w.
  - cbn. by rewrite app_nil_r.
  - cbn [receiveAll foldl]. fold (receiveAll fs (run (onMessage f) w)).
    rewrite IH, onMessage_handlers.
    destruct (onMessage_run f w) as (es & Hrun & Hcalls).
    unfold run at 1. rewrite Hrun. cbn [snd emits br trace].
    rewrite handlerCalls_app, Hcalls. cbn [mbind list_bind]. by rewrite app_assoc.
Qed.

(** Two handlers for [telemetry], the first of which always throws, and one
    for [session]: a [telemetry] frame reaches both of its handlers, and the
    [session] frame after it reaches its own. *)
Example dispatch_past_a_throwing_handler :
  let h1 := {| handler_id := 1; handler_throws := λ _ _, true |} in
  let h2 := {| handler_id := 2; handler_throws := λ _ _, false |} in
  let h3 := {| handler_id := 3; handler_throws := λ _ _, false |} in
  let w := run (on "telemetry" h1;; on "telemetry" h2;; on "session" h3)
               (newClient (mkOptions None None None None None) 0 (λ _, true)) in
  trace (br (receiveAll
               [Json (VObj [("type", VStr "telemetry"); ("timestamp", VNum 7);
                            ("data", VObj [("speed", VNum 300)])]);
                Json (VObj [("type", VStr "session"); ("data", VNull)])] w))
  = [Handled 1 (VObj [("speed", VNum 300)]) (VNum 7);
     Handled 2 (VObj [("speed", VNum 300)]) (VNum 7);
     Handled 3 VNull VUndefined].
Proof. vm_compute. reflexivity. Qed.

(** C4.  When the open connection delivers an envelope of type [ping], the
    client sends one [pong] frame on it, whose data carries the timestamp of
    the envelope, and does nothing else: no message handler is called, not
    even one registered for [ping]. *)
Theorem ping_is_answered_with_pong (w : world) (sid : nat) (message : value) :
  ws (cl w) = Some sid →
  isConnected (cl w) = true →
  stateOf sid w = OPEN →
  isListening sid w = true →
  member message "type" = VStr "ping" →
  run (step (SocketMessage sid (Json message))) w =
    emits [Sent sid "pong" (clock (br w))
             (VObj [("timestamp", member message "timestamp")])] w.
Proof.
  intros Hws Hconn Hopen Hlisten Hping.
  unfold run, step, mbind, M_bind, bind, gets. rewrite Hopen, Hlisten.
  cbn [bool_decide decide_rel andb].
  rewrite bool_decide_eq_true_2 by done. cbn [andb].
  rewrite onMessage_Json by (intros ->; discriminate).
  unfold try_catch, routed. rewrite Hping.
  change (is_str (VStr "ping") "ping") with true. cbv iota.
  unfold mbind, M_bind, bind. rewrite send_run. unfold canSend.
  rewrite Hws, Hconn, Hopen. rewrite bool_decide_eq_true_2 by done. done.
Qed.

(** Witness for C4: a client that has connected and whose socket has
    opened receives a ping stamped 41, with a handler registered for
    [ping]. *)
Lemma ping_is_answered_with_pong_witness :
  let w := runAll [SocketOpens 1]
             (run (on "ping" {| handler_id := 1; handler_throws := λ _ _, false |};;
                   connect)
                  (newClient (mkOptions None None None None None) 0 (λ _, true))) in
  let message := VObj [("type", VStr "ping"); ("timestamp", VNum 41)] in
  run (step (SocketMessage 1 (Json message))) w =
    emits [Sent 1 "pong" (clock (br w))
             (VObj [("timestamp", member message "timestamp")])] w.
Proof.
  cbv zeta. apply ping_is_answered_with_pong; vm_compute; reflexivity.
Defined.

End Dispatch.

(** ** Reconnection *)

Section Reconnect.
Import JS Client.

(** The world [scheduleReconnect] leaves when an attempt remains. *)
Definition rescheduled (w : world) : world :=
  let k := (reconnectAttempts (cl w) + 1)%Z in
  let id := nextId (br w) in
  {| cl := {| config := config (cl w); ws := ws (cl w);
              isConnected := isConnected (cl w);
              reconnectAttempts := k;
              reconnectTimer := Some id;
              heartbeatTimer := heartbeatTimer (cl w);
              messageHandlers := messageHandlers (cl w);
              connectionCallbacks := connectionCallbacks (cl w) |};
     br := {| sockets := sockets (br w);
              timers := timers (br w) ++
                        [ {| timer_id := id; kind := ReconnectTimer;
                             delay := Z.min (reconnectInterval (config (cl w)) * k) 30000 |} ];
              nextId := S id;
              clock := clock (br w);
              constructible := constructible (br w);
              trace := trace (br w) ++
                       ((λ cb, Status (callback_id cb) "reconnecting" (Attempt k))
                          <$> connectionCallbacks (cl w)) |} |}.

Lemma scheduleReconnect_run (w : world) :
  scheduleReconnect w =
    if (maxReconnectAttempts (config (cl w)) <=? reconnectAttempts (cl w))%Z
    then (Normal (),
          emits ((λ cb, Status (callback_id cb) "failed"
                          (Text "Max reconnection attempts reached"))
                   <$> connectionCallbacks (cl w)) w)
    else (Normal (), rescheduled w).
Proof.
  unfold scheduleReconnect, mbind, M_bind, bind, gets.
  destruct (maxReconnectAttempts (config (cl w)) <=? reconnectAttempts (cl w))%Z.
  - apply notifyConnectionChange_run.
  - unfold set_reconnectAttempts, setTimer, set_reconnectTimer, set_nextId, set_timers,
      modify, mbind, M_bind, bind, gets, ret. cbn.
    rewrite notifyConnectionChange_run. done.
Qed.

Lemma backoff_mono (c : Config) (j : Z) :
  (0 ≤ reconnectInterval c)%Z → (backoff c j ≤ backoff c (j + 1))%Z.
Proof. unfold backoff. intros H. nia. Qed.

Lemma backoff_cap (c : Config) (j : Z) : (backoff c j ≤ 30000)%Z.
Proof. unfold backoff. lia. Qed.

(** C5.  With a non-negative [reconnectInterval] (3000 when the option is
    left out) and an attempt remaining, [scheduleReconnect] makes the count
    [k] one more than it was and sets one timer, with delay
    [min(reconnectInterval * k, 30000)]; the delay never exceeds 30000 and
    does not decrease from one attempt to the next. *)
Theorem backoff_delay (w : world) :
  let c := config (cl w) in
  let k := (reconnectAttempts (cl w) + 1)%Z in
  let w' := run scheduleReconnect w in
  (0 ≤ reconnectInterval c)%Z →
  (reconnectAttempts (cl w) < maxReconnectAttempts c)%Z →
  reconnectAttempts (cl w') = k ∧
  timers (br w') =
    timers (br w) ++ [ {| timer_id := nextId (br w); kind := ReconnectTimer;
                          delay := Z.min (reconnectInterval c * k) 30000 |} ] ∧
  reconnectTimer (cl w') = Some (nextId (br w)) ∧
  (Z.min (reconnectInterval c * k) 30000 ≤ 30000)%Z ∧
  (Z.min (reconnectInterval c * k) 30000
     ≤ Z.min (reconnectInterval c * (k + 1)) 30000)%Z ∧
  (∀ o, opt_reconnectInterval o = None → reconnectInterval (newConfig o) = 3000%Z).
Proof.
  intros c k w' Hint Hlt. subst w'. unfold run. rewrite scheduleReconnect_run.
  destruct (Z.leb_spec (maxReconnectAttempts (config (cl w))) (reconnectAttempts (cl w)));
    [subst c; lia|].
  cbn. split_and!; try done.
  - lia.
  - apply (backoff_mono c k Hint).
  - by intros o ->.
Qed.

(** Witness for C5: the first reconnection of a client built with the
    default options. *)
Lemma backoff_delay_witness :
  let w := newClient (mkOptions None None None None None) 0 (λ _, true) in
  let w' := run scheduleReconnect w in
  reconnectAttempts (cl w') = 1%Z ∧
  timers (br w') = [ {| timer_id := 1; kind := ReconnectTimer; delay := 3000 |} ] ∧
  reconnectTimer (cl w') = Some 1 ∧
  (3000 ≤ 30000)%Z ∧ (3000 ≤ 6000)%Z ∧
  (∀ o, opt_reconnectInterval o = None → reconnectInterval (newConfig o) = 3000%Z).
Proof.
  exact (backoff_delay (newClient (mkOptions None None None None None) 0 (λ _, true))
           ltac:(done) ltac:(done)).
Defined.

(** The delays of ten consecutive attempts with the default options. *)
Example default_backoff_delays :
  backoff (newConfig (mkOptions None None None None None)) <$> [1; 2; 3; 9; 10; 11]%Z
  = [3000; 6000; 9000; 27000; 30000; 30000]%Z.
Proof. reflexivity. Qed.

End Reconnect.

(** ** Disconnection and the failed state *)

Section Quiet.
Import JS Client.

Local Arguments notifyConnectionChange : simpl never.

Definition dropTimer (handle : option nat) (ts : list timer) : list timer :=
  match handle with
  | Some id => filter (λ t, timer_id t ≠ id) ts
  | None => ts
  end.

(** The world [clearTimers] leaves. *)
Definition cleared (w : world) : world :=
  {| cl := {| config := config (cl w); ws := ws (cl w);
              isConnected := isConnected (cl w);
              reconnectAttempts := reconnectAttempts (cl w);
              reconnectTimer := None;
              heartbeatTimer := None;
              messageHandlers := messageHandlers (cl w);
              connectionCallbacks := connectionCallbacks (cl w) |};
     br := {| sockets := sockets (br w);
              timers := dropTimer (heartbeatTimer (cl w))
                          (dropTimer (reconnectTimer (cl w)) (timers (br w)));
              nextId := nextId (br w);
              clock := clock (br w);
              constructible := constructible (br w);
              trace := trace (br w) |} |}.

Lemma clearTimers_run (w : world) : clearTimers w = (Normal (), cleared w).
Proof.
  unfold clearTimers, clearTimer, set_reconnectTimer, set_heartbeatTimer, set_timers,
    modify, mbind, M_bind, bind, gets, ret, cleared.
  destruct w as [[cfg cur conn att rt ht mh cbs] [ss ts nid clk ok tr]]. cbn.
  destruct rt, ht; reflexivity.
Qed.





(** The world with the state of one socket changed. *)
Definition withState (sid : nat) (st : ReadyState) (w : world) : world :=
  match sockets (br w) !! sid with
  | Some s =>
      {| cl := cl w;
         br := {| sockets := <[sid := {| readyState := st; listening := listening s |}]>
                               (sockets (br w));
                  timers := timers (br w); nextId := nextId (br w);
                  clock := clock (br w); constructible := constructible (br w);
                  trace := trace (br w) |} |}
  | None => w
  end.

Lemma setState_run (sid : nat) (st : ReadyState) (w : world) :
  setState sid st w = (Normal (), withState sid st w).
Proof.
  unfold setState, withState, set_sockets, modify, mbind, M_bind, bind, gets, ret.
  by destruct (sockets (br w) !! sid).
Qed.

Lemma withState_cl (sid : nat) (st : ReadyState) (w : world) :
  cl (withState sid st w) = cl w.
Proof. unfold withState. by destruct (sockets (br w) !! sid). Qed.

Lemma withState_trace (sid : nat) (st : ReadyState) (w : world) :
  trace (br (withState sid st w)) = trace (br w).
Proof. unfold withState. by destruct (sockets (br w) !! sid). Qed.

Lemma withState_timers (sid : nat) (st : ReadyState) (w : world) :
  timers (br (withState sid st w)) = timers (br w).
Proof. unfold withState. by destruct (sockets (br w) !! sid). Qed.

Lemma withState_isListening (sid sid' : nat) (st : ReadyState) (w : world) :
  isListening sid' (withState sid st w) = isListening sid' w.
Proof.
  unfold withState, isListening.
  destruct (sockets (br w) !! sid) as [s|] eqn:Hs; [|done]. cbn.
  destruct (decide (sid = sid')) as [->|Hne].
  - by rewrite lookup_insert_eq, Hs.
  - by rewrite lookup_insert_ne.
Qed.

Lemma withState_stateOf (sid sid' : nat) (st : ReadyState) (w : world) :
  stateOf sid' (withState sid st w) =
    if decide (sid = sid' ∧ is_Some (sockets (br w) !! sid)) then st else stateOf sid' w.
Proof.
  unfold withState, stateOf.
  destruct (sockets (br w) !! sid) as [s|] eqn:Hs; cbn.
  - destruct (decide (sid = sid')) as [->|Hne].
    + rewrite lookup_insert_eq. cbn. rewrite decide_True; [done|]. split; [done|eauto].
    + rewrite lookup_insert_ne by done. rewrite decide_False; [done|]. by intros [? _].
  - rewrite decide_False; [done|]. by intros [_ [? ?]].
Qed.



(** An event in an inert world changes neither the client nor the trace,
    and leaves the world inert. *)
Lemma withState_nextId (sid : nat) (st : ReadyState) (w : world) :
  nextId (br (withState sid st w)) = nextId (br w).
Proof. unfold withState. by destruct (sockets (br w) !! sid). Qed.








(** What [disconnect] does to the sockets: the current one stops
    reporting and, if open, starts closing. *)
Definition detached (cur : option nat) (ss : gmap nat socket) : gmap nat socket :=
  match cur with
  | Some sid =>
      match ss !! sid with
      | Some s =>
          <[sid := {| readyState := if decide (readyState s = OPEN) then CLOSING
                                    else readyState s;
                      listening := false |}]> ss
      | None => ss
      end
  | None => ss
  end.

Definition closing (cur : option nat) (ss : gmap nat socket) : list effect :=
  match cur with
  | Some sid =>
      if decide (default CLOSED (readyState <$> ss !! sid) = OPEN)
      then [Closed sid (Some 1000%Z)] else []
  | None => []
  end.

(** The world [disconnect] leaves. *)
Definition disconnected (w : world) : world :=
  {| cl := {| config := config (cl w); ws := None; isConnected := false;
              reconnectAttempts := reconnectAttempts (cl w);
              reconnectTimer := None; heartbeatTimer := None;
              messageHandlers := messageHandlers (cl w);
              connectionCallbacks := connectionCallbacks (cl w) |};
     br := {| sockets := detached (ws (cl w)) (sockets (br w));
              timers := dropTimer (heartbeatTimer (cl w))
                          (dropTimer (reconnectTimer (cl w)) (timers (br w)));
              nextId := nextId (br w);
              clock := clock (br w);
              constructible := constructible (br w);
              trace := trace (br w) ++ closing (ws (cl w)) (sockets (br w)) ++
                       ((λ cb, Status (callback_id cb) "disconnected" (Text ""))
                          <$> connectionCallbacks (cl w)) |} |}.

Lemma bind_Normal {A B : Type} (m : M A) (k : A → M B) (w w' : world) (a : A) :
  m w = (Normal a, w') → (m ≫= k) w = k a w'.
Proof. unfold mbind, M_bind, bind. by intros ->. Qed.

Lemma setListeners_run (sid : nat) (on : bool) (w : world) :
  setListeners sid on w =
    (Normal (),
     match sockets (br w) !! sid with
     | Some s =>
         {| cl := cl w;
            br := {| sockets := <[sid := {| readyState := readyState s; listening := on |}]>
                                  (sockets (br w));
                     timers := timers (br w); nextId := nextId (br w);
                     clock := clock (br w); constructible := constructible (br w);
                     trace := trace (br w) |} |}
     | None => w
     end).
Proof.
  unfold setListeners, set_sockets, modify, mbind, M_bind, bind, gets, ret.
  by destruct (sockets (br w) !! sid).
Qed.

Lemma closeSocket_run (sid : nat) (code : option Z) (w : world) :
  closeSocket sid code w =
    (Normal (),
     match stateOf sid w with
     | CONNECTING | OPEN => withState sid CLOSING (emits [Closed sid code] w)
     | CLOSING | CLOSED => emits [Closed sid code] w
     end).
Proof.
  unfold closeSocket, emit, modify, mbind, M_bind, bind, gets, ret.
  destruct (stateOf sid w); try done; by rewrite setState_run.
Qed.

Lemma disconnect_run (w : world) : disconnect w = (Normal (), disconnected w).
Proof.
  unfold disconnect.
  erewrite bind_Normal by reflexivity. cbv beta.
  erewrite bind_Normal by apply clearTimers_run. cbv beta.
  erewrite bind_Normal by reflexivity. cbv beta.
  erewrite bind_Normal; cycle 1.
  { cbn [cl ws cleared].
    instantiate (1 := {| cl := cl (disconnected w); br := {| sockets := detached (ws (cl w)) (sockets (br w)); timers := timers (br (disconnected w)); nextId := nextId (br w); clock := clock (br w); constructible := constructible (br w); trace := trace (br w) ++ closing (ws (cl w)) (sockets (br w)) |} |}).
    instantiate (1 := ()).
    destruct w as [[cfg cur conn att rt ht mh cbs] [ss ts nid clk ok tr]].
    cbn [cl br ws config isConnected reconnectAttempts reconnectTimer heartbeatTimer
         messageHandlers connectionCallbacks sockets timers nextId clock constructible
         trace disconnected detached closing].
    destruct cur as [sid|].
    - erewrite bind_Normal by apply setListeners_run. cbv beta.
      erewrite bind_Normal by reflexivity. cbv beta.
      unfold cleared, stateOf. cbn.
      destruct (ss !! sid) as [[st l]|] eqn:Hs.
      + cbn. rewrite lookup_insert_eq. cbn.
        destruct st.
        all: rewrite ?decide_True by done; rewrite ?decide_False by done.
        all: try (erewrite bind_Normal by apply closeSocket_run); cbv beta.
        all: try (erewrite bind_Normal by reflexivity); cbv beta.
        all: unfold set_ws, modify, stateOf, withState, emits; cbn.
        all: rewrite ?lookup_insert_eq; cbn; rewrite ?insert_insert_eq, ?app_nil_r.
        all: reflexivity.
      + cbn. rewrite Hs. cbn. rewrite decide_False by done.
        erewrite bind_Normal by reflexivity. cbv beta.
        unfold set_ws, modify. cbn. by rewrite app_nil_r.
    - unfold ret, cleared. cbn. by rewrite app_nil_r. }
  cbv beta. rewrite notifyConnectionChange_run. unfold emits, disconnected. cbn.
  by rewrite <- app_assoc.
Qed.

Lemma dropTimer_elem (handle : option nat) (ts : list timer) (t : timer) :
  t ∈ dropTimer handle ts → t ∈ ts ∧ handle ≠ Some (timer_id t).
Proof.
  destruct handle as [id|]; cbn.
  - intros [Hid Ht]%list_elem_of_filter. split; [done|]. by intros [= ->].
  - done.
Qed.




(** *** The failed state *)


Definition unconnected (w : world) : world :=
  {| br := br w;
     cl := {| isConnected := false; config := config (cl w); ws := ws (cl w);
              reconnectAttempts := reconnectAttempts (cl w);
              reconnectTimer := reconnectTimer (cl w);
              heartbeatTimer := heartbeatTimer (cl w);
              messageHandlers := messageHandlers (cl w);
              connectionCallbacks := connectionCallbacks (cl w) |} |}.

Definition statuses (status : string) (details : detail) (w : world) : list effect :=
  (λ cb, Status (callback_id cb) status details) <$> connectionCallbacks (cl w).




End Quiet.

(** ** The worlds a client can be in

    The worlds reached from a fresh client by events of the browser and by
    calls of the user interface, as long as [connect()] is not called while
    a reconnection is pending or while the socket is closing.  In all of
    them the timers are tracked and only the current socket reports to the
    client. *)

Section Reachable.
Import JS Client.

Local Arguments notifyConnectionChange : simpl never.







(** Computations that only add to the trace. *)
Definition silent {A : Type} (m : M A) : Prop :=
  ∀ w, ∃ a es, m w = (Normal a, emits es w).

Lemma silent_ret {A : Type} (a : A) : silent (ret a).
Proof. intros w. exists a, []. by rewrite emits_nil. Qed.

Lemma silent_bind {A B : Type} (m : M A) (k : A → M B) :
  silent m → (∀ a, silent (k a)) → silent (m ≫= k).
Proof.
  intros Hm Hk w. destruct (Hm w) as (a & es & Hrun).
  destruct (Hk a (emits es w)) as (b & es' & Hrun').
  exists b, (es ++ es'). erewrite bind_Normal by exact Hrun.
  by rewrite Hrun', emits_emits.
Qed.

Lemma silent_send (type : string) (data : value) : silent (send type data).
Proof.
  intros w. rewrite send_run. destruct (canSend w); eexists _, _; [done|].
  by rewrite emits_nil.
Qed.

Lemma silent_notify (status : string) (details : detail) :
  silent (notifyConnectionChange status details).
Proof. intros w. rewrite notifyConnectionChange_run. by eexists _, _. Qed.

Lemma silent_onMessage (f : frame) : silent (onMessage f).
Proof. intros w. destruct (onMessage_run f w) as (es & -> & _). by eexists _, _. Qed.

Lemma silent_heartbeat : silent heartbeat.
Proof.
  intros w. unfold heartbeat. erewrite bind_Normal by reflexivity. cbv beta.
  destruct (isConnected (cl w)); [|apply silent_ret].
  apply silent_bind; [|intros; apply silent_bind; [apply silent_send | intros; apply silent_ret]].
  intros w0. exists (clock (br w0)), []. by rewrite emits_nil.
Qed.


(** *** What the methods leave *)

(** Whether [connect] returns at once. *)
Definition busy (w : world) : bool :=
  match ws (cl w) with
  | Some sid => bool_decide (stateOf sid w = CONNECTING ∨ stateOf sid w = OPEN)
  | None => false
  end.

(** The world after a socket has been constructed by [connect]. *)
Definition connecting (w : world) : world :=
  let sid := nextId (br w) in
  {| cl := {| config := config (cl w); ws := Some sid;
              isConnected := isConnected (cl w);
              reconnectAttempts := reconnectAttempts (cl w);
              reconnectTimer := reconnectTimer (cl w);
              heartbeatTimer := heartbeatTimer (cl w);
              messageHandlers := messageHandlers (cl w);
              connectionCallbacks := connectionCallbacks (cl w) |};
     br := {| sockets := <[sid := {| readyState := CONNECTING; listening := true |}]>
                           (sockets (br w));
              timers := timers (br w) ++
                        [ {| timer_id := S sid; kind := ConnectionTimeout; delay := 10000 |} ];
              nextId := S (S sid);
              clock := clock (br w);
              constructible := constructible (br w);
              trace := trace (br w) ++
                       [Opened sid (serverUrl (config (cl w))) (apiKey (config (cl w)))] |} |}.

Lemma connect_run (w : world) :
  connect w =
    (Normal (),
     if busy w then w
     else if constructible (br w) (serverUrl (config (cl w))) then connecting w
          else (scheduleReconnect w).2).
Proof.
  unfold connect, busy.
  erewrite bind_Normal by reflexivity. cbv beta.
  erewrite bind_Normal by reflexivity. cbv beta.
  assert (Htry :
    try_catch
      (c ← gets (λ w0, config (cl w0));
       sid ← newWebSocket (serverUrl c) (apiKey c);
       set_ws (Some sid);; setListeners sid true;;
       setTimer ConnectionTimeout 10000;; ret ())
      scheduleReconnect w =
    (Normal (),
     if constructible (br w) (serverUrl (config (cl w))) then connecting w
     else (scheduleReconnect w).2)).
  { unfold try_catch, newWebSocket.
    erewrite bind_Normal by reflexivity. cbv beta.
    destruct (constructible (br w) (serverUrl (config (cl w)))) eqn:Hok.
    - erewrite bind_Normal; cycle 1.
      { erewrite bind_Normal by reflexivity. cbv beta. rewrite Hok.
        repeat (erewrite bind_Normal by reflexivity; cbv beta). reflexivity. }
      cbv beta.
      repeat (erewrite bind_Normal by (reflexivity || apply setListeners_run); cbv beta).
      unfold setTimer.
      repeat (erewrite bind_Normal by (reflexivity || apply setListeners_run); cbv beta).
      unfold ret, connecting. cbn. rewrite lookup_insert_eq. cbn.
      by rewrite insert_insert_eq.
    - unfold mbind, M_bind, bind at 1. unfold gets at 1. cbv beta iota.
      unfold bind at 1. unfold gets at 1. cbv beta iota. rewrite Hok.
      unfold throw. rewrite scheduleReconnect_run.
      by destruct (_ <=? _)%Z. }
  destruct (ws (cl w)) as [sid|]; cbn [fmap option_fmap option_map]; [|exact Htry].
  destruct (stateOf sid w) eqn:Hst.
  - rewrite bool_decide_eq_true_2 by (by left). done.
  - rewrite bool_decide_eq_true_2 by (by right). done.
  - rewrite bool_decide_eq_false_2 by (by intros [|]). exact Htry.
  - rewrite bool_decide_eq_false_2 by (by intros [|]). exact Htry.
Qed.

(** The world after [onOpen], its trace apart. *)
Definition started (w : world) : world :=
  let id := nextId (br w) in
  {| cl := {| config := config (cl w); ws := ws (cl w); isConnected := true;
              reconnectAttempts := 0; reconnectTimer := None;
              heartbeatTimer := Some id;
              messageHandlers := messageHandlers (cl w);
              connectionCallbacks := connectionCallbacks (cl w) |};
     br := {| sockets := sockets (br w);
              timers := dropTimer (heartbeatTimer (cl w))
                          (dropTimer (reconnectTimer (cl w)) (timers (br w))) ++
                        [ {| timer_id := id; kind := HeartbeatTimer;
                             delay := heartbeatInterval (config (cl w)) |} ];
              nextId := S id;
              clock := clock (br w);
              constructible := constructible (br w);
              trace := trace (br w) |} |}.

Lemma onOpen_run (w : world) : ∃ es, onOpen w = (Normal (), emits es (started w)).
Proof.
  unfold onOpen.
  erewrite bind_Normal by reflexivity. cbv beta.
  erewrite bind_Normal by reflexivity. cbv beta.
  erewrite bind_Normal by apply clearTimers_run. cbv beta.
  erewrite bind_Normal by reflexivity. cbv beta.
  match goal with |- ∃ es, ?m ?w0 = _ =>
    assert (Hs : silent m); [|destruct (Hs w0) as ([] & es & Hrun)] end.
  { apply silent_bind; [intros w0; eexists _, []; by rewrite emits_nil|]. intros c.
    apply silent_bind.
    { destruct (String.eqb (apiKey c) ""); [apply silent_ret | apply silent_send]. }
    intros _. apply silent_bind; [apply silent_send|]. intros _. apply silent_notify. }
  exists es. rewrite Hrun. reflexivity.
Qed.

(** The world after [onClose], its trace apart. *)
Definition closed (code : Z) (w : world) : world :=
  if (code =? 1000)%Z then cleared (unconnected w)
  else if (maxReconnectAttempts (config (cl w)) <=? reconnectAttempts (cl w))%Z
       then cleared (unconnected w)
       else rescheduled (cleared (unconnected w)).

Lemma onClose_run (code : Z) (reason : string) (w : world) :
  ∃ es, onClose code reason w = (Normal (), emits es (closed code w)).
Proof.
  unfold onClose, closed.
  erewrite bind_Normal by reflexivity. cbv beta.
  erewrite bind_Normal by apply clearTimers_run. cbv beta.
  fold (unconnected w).
  destruct (code =? 1000)%Z.
  - erewrite bind_Normal by reflexivity. cbv beta.
    rewrite notifyConnectionChange_run. by eexists.
  - pose proof (scheduleReconnect_run (cleared (unconnected w))) as Hsched.
    cbn [cl cleared unconnected config reconnectAttempts] in Hsched.
    destruct (_ <=? _)%Z; erewrite bind_Normal by exact Hsched; cbv beta;
      rewrite notifyConnectionChange_run; rewrite ?emits_emits; by eexists.
Qed.

Lemma connectionTimeout_run (w : world) :
  connectionTimeout w =
    (Normal (),
     match ws (cl w) with
     | Some sid =>
         if decide (stateOf sid w = CONNECTING)
         then withState sid CLOSING (emits [Closed sid None] w) else w
     | None => w
     end).
Proof.
  unfold connectionTimeout. erewrite bind_Normal by reflexivity. cbv beta.
  destruct (ws (cl w)) as [sid|]; [|done].
  erewrite bind_Normal by reflexivity. cbv beta.
  case_decide as Hst; [|done]. rewrite closeSocket_run. by rewrite Hst.
Qed.

(** *** The invariant *)

















(** The world with one pending timer removed. *)
Definition without (id : nat) (w : world) : world :=
  {| cl := cl w;
     br := {| timers := filter (λ t, timer_id t ≠ id) (timers (br w));
              sockets := sockets (br w); nextId := nextId (br w);
              clock := clock (br w); constructible := constructible (br w);
              trace := trace (br w) |} |}.

Lemma clearTimer_run (id : nat) (w : world) : clearTimer id w = (Normal (), without id w).
Proof. reflexivity. Qed.






(** What the user interface does. *)
Inductive userCall :=
| CallConnect
| CallDisconnect
| CallSend (type : string) (data : value)
| CallOn (messageType : string) (h : handler)
| CallOff (messageType : string) (h : handler)
| CallOnConnectionChange (cb : callback).

Definition perform (c : userCall) : M unit :=
  match c with
  | CallConnect => connect
  | CallDisconnect => disconnect
  | CallSend type data => send type data;; ret ()
  | CallOn messageType h => on messageType h
  | CallOff messageType h => off messageType h
  | CallOnConnectionChange cb => onConnectionChange cb
  end.





End Reachable.

(** ** Disconnecting and giving up

    The two properties of the life cycle, in the worlds of a client. *)

Section Lifecycle.
Import JS Client.

Local Arguments notifyConnectionChange : simpl never.




(** *** Disconnecting *)


Definition quietCallback : callback :=
  {| callback_id := 1; callback_throws := λ _ _, false |}.

(** A client with one status callback that has connected. *)
Definition connectingClient : world :=
  run (perform CallConnect)
    (run (perform (CallOnConnectionChange quietCallback))
       (newClient (mkOptions None None None None None) 0 (λ _, true))).


(** Its socket has opened: the heartbeat runs and the connection timeout is
    pending. *)
Definition openClient : world := run (step (SocketOpens 1)) connectingClient.


(** The timers of the open client, and of the client once disconnected. *)
Example openClient_timers :
  timers (br openClient) =
    [ {| timer_id := 2; kind := ConnectionTimeout; delay := 10000 |};
      {| timer_id := 3; kind := HeartbeatTimer; delay := 30000 |} ] ∧
  timers (br (run disconnect openClient)) =
    [ {| timer_id := 2; kind := ConnectionTimeout; delay := 10000 |} ].
Proof. vm_compute. done. Qed.


(** *** Giving up *)




Definition throwingCallback : callback :=
  {| callback_id := 1; callback_throws := λ _ _, true |}.

(** A client allowed one reconnection, whose first socket was lost and
    whose reconnection is under way on a second socket. *)
Definition lostOnce : world :=
  run (step (SocketCloses 1 1006 "lost"))
    (run (perform CallConnect)
       (run (perform (CallOnConnectionChange throwingCallback))
          (newClient (mkOptions None None None (Some 1%Z) None) 0 (λ _, true)))).

Definition lastAttempt : world := run (step (TimerFires 3)) lostOnce.



(** The trace of that run: the second loss is reported as [failed], then as
    [disconnected], and nothing follows. *)
Example failed_run_trace :
  trace (br (runAll [SocketCloses 4 1006 "lost"; TimerFires 2; TimerFires 5] lastAttempt))
  = [ Opened 1 "ws://137.184.151.3:8766" "";
      Status 1 "reconnecting" (Attempt 1);
      Status 1 "disconnected" (Text "lost");
      Opened 4 "ws://137.184.151.3:8766" "";
      Status 1 "failed" (Text "Max reconnection attempts reached");
      Status 1 "disconnected" (Text "lost") ].
Proof. vm_compute. reflexivity. Qed.

(** A server to which no socket can be constructed, with the default ten
    attempts: the eleventh failure is reported as [failed], and the timers
    of the ten reconnections have all fired. *)
Example unreachable_server_trace :
  let w := runAll (TimerFires <$> [1; 2; 3; 4; 5; 6; 7; 8; 9; 10])
             (run (perform CallConnect)
                (run (perform (CallOnConnectionChange quietCallback))
                   (newClient (mkOptions None None None None None) 0 (λ _, false)))) in
  trace (br w) =
    ((λ k, Status 1 "reconnecting" (Attempt k)) <$> [1; 2; 3; 4; 5; 6; 7; 8; 9; 10]%Z)
    ++ [Status 1 "failed" (Text "Max reconnection attempts reached")] ∧
  timers (br w) = [].
Proof. vm_compute. done. Qed.

End Lifecycle.

(** ** More invariants of the client's worlds *)

Section Online.
Import JS Client ClientApi.

Local Arguments notifyConnectionChange : simpl never.


(** The identifiers in use are below the next one the browser hands out. *)
Definition fresh (w : world) : Prop :=
  (∀ t, t ∈ timers (br w) → timer_id t < nextId (br w)) ∧
  (∀ sid s, sockets (br w) !! sid = Some s → sid < nextId (br w)).






Lemma fresh_dropTimer (handle : option nat) (ts : list timer) (n : nat) :
  (∀ t, t ∈ ts → timer_id t < n) → ∀ t, t ∈ dropTimer handle ts → timer_id t < n.
Proof. intros H t [Ht _]%dropTimer_elem. by apply H. Qed.










Lemma stateOf_withState_eq (sid : nat) (st : ReadyState) (w : world) :
  is_Some (sockets (br w) !! sid) → stateOf sid (withState sid st w) = st.
Proof. intros Hs. rewrite withState_stateOf. by rewrite decide_True. Qed.

Lemma stateOf_withState_ne (sid sid' : nat) (st : ReadyState) (w : world) :
  sid ≠ sid' → stateOf sid' (withState sid st w) = stateOf sid' w.
Proof. intros Hne. rewrite withState_stateOf. rewrite decide_False; [done|]. by intros []. Qed.






End Online.

(** ** Status, requests and the heartbeat *)

Section Requests.
Import JS Client ClientApi.

Local Arguments notifyConnectionChange : simpl never.

(** The four requests of the interface. *)
Inductive request :=
| Telemetry (categories : value)
| Subscription (channels : value)
| VoiceCommand (command metadata : value)
| Strategy (context : value).

Definition issue (r : request) : M bool :=
  match r with
  | Telemetry categories => requestTelemetry categories
  | Subscription channels => updateSubscription channels
  | VoiceCommand command metadata => sendVoiceCommand command metadata
  | Strategy context => requestStrategy context
  end.


Lemma getStatus_connected (w : world) :
  getStatus w = "connected" ↔ ∃ sid, ws (cl w) = Some sid ∧ stateOf sid w = OPEN.
Proof.
  unfold getStatus. split.
  - destruct (ws (cl w)) as [sid|]; [|done].
    destruct (stateOf sid w) eqn:Hst; try done. by exists sid.
  - intros (sid & -> & ->). done.
Qed.





(** The frame of that witness, and the same request before the socket has
    opened. *)
Example voice_command_frame :
  let r := VoiceCommand (VStr "box this lap") VUndefined in
  trace (br (run (issue r;; ret ()) openClient)) =
    trace (br openClient) ++
    [Sent 1 "voice_command" 0
       (VObj [("command", VStr "box this lap"); ("metadata", VObj [])])] ∧
  issue r connectingClient = (Normal false, connectingClient).
Proof. vm_compute. done. Qed.



End Requests.

(** ** The course of a connection *)

Section Session.
Import JS Client ClientApi.

Local Arguments notifyConnectionChange : simpl never.

(** *** The connection timeout *)

(** X3.  A connection timeout that fires is consumed and leaves the client's
    fields alone.  It closes the socket that is current at that moment if
    that socket is still connecting, whichever attempt the timeout was set
    for; otherwise it does nothing. *)
Theorem connection_timeout_closes_current_socket (w : world) (id : nat) (t : timer) :
  pending id w = Some t → kind t = ConnectionTimeout →
  let w' := run (step (TimerFires id)) w in
  cl w' = cl w ∧
  timers (br w') = filter (λ t, timer_id t ≠ id) (timers (br w)) ∧
  match ws (cl w) with
  | Some sid =>
      if decide (stateOf sid w = CONNECTING)
      then trace (br w') = trace (br w) ++ [Closed sid None] ∧
           stateOf sid w' = CLOSING ∧
           (∀ sid', sid' ≠ sid → stateOf sid' w' = stateOf sid' w)
      else trace (br w') = trace (br w) ∧ sockets (br w') = sockets (br w)
  | None => trace (br w') = trace (br w) ∧ sockets (br w') = sockets (br w)
  end.
Proof.
  intros Hp Hk w'.
  assert (Hw' : w' = match ws (cl w) with
                     | Some sid =>
                         if decide (stateOf sid w = CONNECTING)
                         then withState sid CLOSING (emits [Closed sid None] (without id w))
                         else without id w
                     | None => without id w
                     end).
  { subst w'. unfold run, step. erewrite bind_Normal by reflexivity. cbv beta.
    rewrite Hp, Hk. erewrite bind_Normal by apply clearTimer_run. cbv beta.
    by rewrite connectionTimeout_run. }
  rewrite Hw'. destruct (ws (cl w)) as [sid|]; [|done].
  case_decide as Hst; [|done].
  rewrite withState_cl, withState_timers, withState_trace. split_and!; try done.
  - apply stateOf_withState_eq. unfold stateOf in Hst. cbn.
    destruct (sockets (br w) !! sid); [done | discriminate].
  - intros sid' Hne. by rewrite stateOf_withState_ne.
Qed.

(** Witness for X3: the timeout of the first attempt fires during the
    second attempt and closes the second socket. *)
Lemma connection_timeout_closes_current_socket_witness :
  let w := lastAttempt in
  let w' := run (step (TimerFires 2)) w in
  cl w' = cl w ∧
  timers (br w') = filter (λ t, timer_id t ≠ 2) (timers (br w)) ∧
  match ws (cl w) with
  | Some sid =>
      if decide (stateOf sid w = CONNECTING)
      then trace (br w') = trace (br w) ++ [Closed sid None] ∧
           stateOf sid w' = CLOSING ∧
           (∀ sid', sid' ≠ sid → stateOf sid' w' = stateOf sid' w)
      else trace (br w') = trace (br w) ∧ sockets (br w') = sockets (br w)
  | None => trace (br w') = trace (br w) ∧ sockets (br w') = sockets (br w)
  end.
Proof.
  apply (connection_timeout_closes_current_socket lastAttempt 2
           {| timer_id := 2; kind := ConnectionTimeout; delay := 10000 |}).
  - vm_compute. reflexivity.
  - reflexivity.
Defined.

(** The run of that witness: socket 1 is opened and lost, socket 4 is
    opened, and the timeout set with socket 1 closes socket 4. *)
Example stale_timeout_trace :
  trace (br (run (step (TimerFires 2)) lastAttempt))
  = [ Opened 1 "ws://137.184.151.3:8766" "";
      Status 1 "reconnecting" (Attempt 1);
      Status 1 "disconnected" (Text "lost");
      Opened 4 "ws://137.184.151.3:8766" "";
      Closed 4 None ].
Proof. vm_compute. reflexivity. Qed.

(** *** Opening *)

Definition greeting (sid : nat) (w : world) : list effect :=
  let c := config (cl w) in
  (if String.eqb (apiKey c) "" then []
   else [Sent sid "auth" (clock (br w)) (VObj [("apiKey", VStr (apiKey c))])]) ++
  [Sent sid "subscribe" (clock (br w))
     (VObj [("channels", VArr [VStr "telemetry"; VStr "session"; VStr "timing";
                                VStr "strategy"])])] ++
  statuses "connected" (Text "") w.

Lemma onOpen_greeting (sid : nat) (w : world) :
  ws (cl w) = Some sid → stateOf sid w = OPEN →
  onOpen w = (Normal (), emits (greeting sid w) (started w)).
Proof.
  intros Hws Hst. unfold onOpen.
  erewrite bind_Normal by reflexivity. cbv beta.
  erewrite bind_Normal by reflexivity. cbv beta.
  erewrite bind_Normal by apply clearTimers_run. cbv beta.
  erewrite bind_Normal by reflexivity. cbv beta.
  erewrite bind_Normal by reflexivity. cbv beta.
  assert (Hsend : ∀ type data es,
    send type data (emits es (started w)) =
      (Normal true, emits (es ++ [Sent sid type (clock (br w)) data]) (started w))).
  { intros type data es. rewrite send_run. unfold canSend. cbn [cl emits started ws isConnected].
    rewrite Hws. change (stateOf sid (emits es (started w))) with (stateOf sid w).
    rewrite Hst, bool_decide_eq_true_2 by done. cbn. by rewrite emits_emits. }
  match goal with |- _ ?w0 = _ => change w0 with (started w) end.
  cbn [cl started config]. unfold greeting.
  destruct (String.eqb (apiKey (config (cl w))) "").
  - erewrite bind_Normal by reflexivity. cbv beta.
    rewrite <- (emits_nil (started w)) at 1.
    erewrite bind_Normal by apply Hsend. cbv beta.
    rewrite notifyConnectionChange_run. by rewrite emits_emits.
  - rewrite <- (emits_nil (started w)) at 1.
    erewrite bind_Normal by apply Hsend. cbv beta.
    erewrite bind_Normal by apply Hsend. cbv beta.
    rewrite notifyConnectionChange_run. rewrite emits_emits.
    by rewrite <- !app_assoc.
Qed.

(** X4.  When the current socket opens, the client holds itself connected,
    [getStatus()] is [connected], the attempt count is back at 0, the
    reconnection and heartbeat timers it held are cancelled and a new
    heartbeat is set at [heartbeatInterval].  It sends, in this order, an
    [auth] frame when it has an API key and a [subscribe] frame for the four
    channels, and then calls the status callbacks with [connected]. *)
Theorem opening_starts_session (w : world) (sid : nat) :
  ws (cl w) = Some sid → isListening sid w = true → stateOf sid w = CONNECTING →
  let w' := run (step (SocketOpens sid)) w in
  getStatus w' = "connected" ∧ isConnected (cl w') = true ∧
  reconnectAttempts (cl w') = 0%Z ∧
  trace (br w') = trace (br w) ++ greeting sid w ∧
  reconnectTimer (cl w') = None ∧
  heartbeatTimer (cl w') = Some (nextId (br w)) ∧
  timers (br w') =
    dropTimer (heartbeatTimer (cl w)) (dropTimer (reconnectTimer (cl w)) (timers (br w)))
    ++ [ {| timer_id := nextId (br w); kind := HeartbeatTimer;
            delay := heartbeatInterval (config (cl w)) |} ].
Proof.
  intros Hws Hl Hst w'.
  assert (Hs : is_Some (sockets (br w) !! sid)).
  { unfold isListening in Hl. by destruct (sockets (br w) !! sid). }
  assert (Hopen : stateOf sid (withState sid OPEN w) = OPEN)
    by by apply stateOf_withState_eq.
  assert (Hw' : w' = emits (greeting sid w) (started (withState sid OPEN w))).
  { subst w'. unfold run, step. erewrite bind_Normal by reflexivity. cbv beta.
    rewrite decide_True by done.
    erewrite bind_Normal by apply setState_run. cbv beta.
    erewrite bind_Normal by reflexivity. cbv beta.
    rewrite withState_isListening, Hl.
    rewrite (onOpen_greeting sid) by (by rewrite ?withState_cl).
    cbn [snd]. unfold greeting, statuses. rewrite withState_cl.
    unfold withState. by destruct (sockets (br w) !! sid). }
  rewrite Hw'. split_and!; try done.
  - apply getStatus_connected. exists sid. split; [by cbn; rewrite withState_cl|].
    exact Hopen.
  - cbn. by rewrite withState_trace.
  - cbn. by rewrite withState_nextId.
  - cbn. by rewrite withState_cl, withState_timers, withState_nextId.
Qed.

(** Witness for X4: the socket of the connecting client opens. *)
Lemma opening_starts_session_witness :
  let w := connectingClient in
  let w' := run (step (SocketOpens 1)) w in
  getStatus w' = "connected" ∧ isConnected (cl w') = true ∧
  reconnectAttempts (cl w') = 0%Z ∧
  trace (br w') = trace (br w) ++ greeting 1 w ∧
  reconnectTimer (cl w') = None ∧
  heartbeatTimer (cl w') = Some (nextId (br w)) ∧
  timers (br w') =
    dropTimer (heartbeatTimer (cl w)) (dropTimer (reconnectTimer (cl w)) (timers (br w)))
    ++ [ {| timer_id := nextId (br w); kind := HeartbeatTimer;
            delay := heartbeatInterval (config (cl w)) |} ].
Proof.
  apply (opening_starts_session connectingClient 1); vm_compute; reflexivity.
Defined.

(** *** Closing *)






(** *** Reconnecting *)




(** The open client loses its connection, reconnects and opens again: the
    attempt count is back at 0 and the next loss waits 3000 ms again. *)
Example reconnection_cycle :
  let w := runAll [SocketCloses 1 1006 "lost"; TimerFires 4; SocketOpens 5;
                   SocketCloses 5 1006 "lost"] openClient in
  trace (br w) =
    [ Opened 1 "ws://137.184.151.3:8766" "";
      Sent 1 "subscribe" 0
        (VObj [("channels", VArr [VStr "telemetry"; VStr "session"; VStr "timing";
                                   VStr "strategy"])]);
      Status 1 "connected" (Text "");
      Status 1 "reconnecting" (Attempt 1);
      Status 1 "disconnected" (Text "lost");
      Opened 5 "ws://137.184.151.3:8766" "";
      Sent 5 "subscribe" 0
        (VObj [("channels", VArr [VStr "telemetry"; VStr "session"; VStr "timing";
                                   VStr "strategy"])]);
      Status 1 "connected" (Text "");
      Status 1 "reconnecting" (Attempt 1);
      Status 1 "disconnected" (Text "lost") ] ∧
  filter (λ t, kind t = ReconnectTimer) (timers (br w)) =
    [ {| timer_id := 8; kind := ReconnectTimer; delay := 3000 |} ].
Proof. vm_compute. done. Qed.

(** *** Connecting twice *)

(** X7.  [connect()] does nothing while the current socket is connecting or
    open; so, when a socket can be constructed, a second [connect()] right
    after the first changes nothing. *)
Theorem second_connect_is_ignored (w : world) :
  constructible (br w) (serverUrl (config (cl w))) = true →
  (busy w = true → run connect w = w) ∧
  busy (run connect w) = true ∧
  run connect (run connect w) = run connect w.
Proof.
  intros Hok.
  assert (Hbusy : ∀ w', busy w' = true → run connect w' = w').
  { intros w' Hb. unfold run. by rewrite connect_run, Hb. }
  assert (Hb1 : busy (run connect w) = true).
  { unfold run. rewrite connect_run. cbn [snd].
    destruct (busy w) eqn:Hb; [done|]. rewrite Hok.
    unfold busy. cbn [cl connecting ws]. apply bool_decide_eq_true. left.
    unfold stateOf. cbn. by rewrite lookup_insert_eq. }
  split_and!; [by apply Hbusy | done | by apply Hbusy].
Qed.

(** Witness for X7: a fresh client that can reach its server. *)
Lemma second_connect_is_ignored_witness :
  let w := newClient (mkOptions None None None None None) 0 (λ _, true) in
  (busy w = true → run connect w = w) ∧
  busy (run connect w) = true ∧
  run connect (run connect w) = run connect w.
Proof.
  apply (second_connect_is_ignored
           (newClient (mkOptions None None None None None) 0 (λ _, true))).
  reflexivity.
Defined.

(** X8.  [connect(serverUrl, apiKey)] of the controller always writes the
    two settings into the configuration.  While the current socket is
    connecting or open nothing else happens: the client stays on the socket
    to the previous server, and the new settings are used by the next
    connection only.  Otherwise, when a socket can be constructed for the
    new URL, it is opened with the new key and becomes the current one. *)
Theorem controller_connect_keeps_open_socket (url key : string) (w : world) :
  let w' := run (controllerConnect url key) w in
  serverUrl (config (cl w')) = url ∧ apiKey (config (cl w')) = key ∧
  reconnectInterval (config (cl w')) = reconnectInterval (config (cl w)) ∧
  maxReconnectAttempts (config (cl w')) = maxReconnectAttempts (config (cl w)) ∧
  heartbeatInterval (config (cl w')) = heartbeatInterval (config (cl w)) ∧
  (busy w = true → ws (cl w') = ws (cl w) ∧ br w' = br w) ∧
  (busy w = false → constructible (br w) url = true →
   trace (br w') = trace (br w) ++ [Opened (nextId (br w)) url key] ∧
   ws (cl w') = Some (nextId (br w)) ∧ getStatus w' = "connecting").
Proof.
  intros w'. subst w'. unfold run, controllerConnect.
  erewrite bind_Normal by reflexivity. cbv beta. rewrite connect_run. cbn [snd].
  match goal with |- context [busy ?w0] =>
    change (busy w0) with (busy w); set (w1 := w0) end.
  destruct (busy w) eqn:Hbusy.
  { split_and!; try done. }
  cbn [w1 br cl config serverUrl].
  destruct (constructible (br w) url) eqn:Hok.
  - split_and!; try done. intros _ _. split_and!; try done.
    unfold getStatus, stateOf. cbn. by rewrite lookup_insert_eq.
  - rewrite scheduleReconnect_run. destruct (_ <=? _)%Z; by split_and!.
Qed.

End Session.

(** ** Frames, registrations and exceptions *)

Section Robust.
Import JS Client ClientApi.

Local Arguments notifyConnectionChange : simpl never.

(** *** What a frame leads to *)

(** The effects of a frame: the [pong] that answers a [ping] when the client
    can send, or the calls of the handlers registered for the type. *)
Definition reaction (w : world) (f : frame) : list effect :=
  match f with
  | Malformed | Json VNull | Json VUndefined => []
  | Json message =>
      let type := member message "type" in
      let data := member message "data" in
      let timestamp := member message "timestamp" in
      if is_str type "ping" then
        (λ sid, Sent sid "pong" (clock (br w)) (VObj [("timestamp", timestamp)]))
          <$> option_list (canSend w)
      else if is_str type "pong" then []
      else (λ h, Handled (handler_id h) data timestamp)
             <$> default [] (handlersFor type w)
  end.

Lemma routed_reaction (type data timestamp : value) (w : world) :
  routed type data timestamp w =
    (Normal (),
     emits (if is_str type "ping" then
              (λ sid, Sent sid "pong" (clock (br w)) (VObj [("timestamp", timestamp)]))
                <$> option_list (canSend w)
            else if is_str type "pong" then []
            else (λ h, Handled (handler_id h) data timestamp)
                   <$> default [] (handlersFor type w)) w).
Proof.
  unfold routed. destruct (is_str type "ping").
  { unfold mbind, M_bind, bind. rewrite send_run.
    destruct (canSend w); cbn; [done | by rewrite emits_nil]. }
  destruct (is_str type "pong"); [by rewrite emits_nil|].
  erewrite bind_Normal by reflexivity. cbv beta.
  destruct (handlersFor type w) as [hs|]; cbn [default].
  - apply forEach_handlers.
  - by rewrite emits_nil.
Qed.

Lemma onMessage_reaction (f : frame) (w : world) :
  onMessage f w = (Normal (), emits (reaction w f) w).
Proof.
  destruct f as [|message]; [by rewrite emits_nil|].
  assert (Hcases : message = VNull ∨ message = VUndefined
                   ∨ (message ≠ VNull ∧ message ≠ VUndefined)).
  { destruct message; auto. }
  destruct Hcases as [->|[->|[Hn Hu]]]; try by rewrite emits_nil.
  rewrite onMessage_Json by done. unfold try_catch. rewrite routed_reaction.
  by destruct message.
Qed.

(** X9.  A frame that arrives on a socket changes no field of the client, no
    timer and no socket; it only adds to the trace, and only if the socket
    is open and reports to the client: one [pong] for a [ping] when the
    client can send, or the calls of the handlers registered for its type.
    Text that is not JSON, the JSON [null], a [pong], an envelope whose type
    is not a string and an envelope for whose type no handler is registered
    lead to nothing at all. *)
Theorem frames_only_add_to_trace (sid : nat) (f : frame) (w : world)
    (message : value) :
  run (step (SocketMessage sid f)) w =
    emits (if bool_decide (stateOf sid w = OPEN) && isListening sid w
           then reaction w f else []) w ∧
  reaction w Malformed = [] ∧
  reaction w (Json VNull) = [] ∧
  (member message "type" = VStr "pong" → reaction w (Json message) = []) ∧
  ((∀ t, member message "type" ≠ VStr t) → reaction w (Json message) = []) ∧
  (∀ t, member message "type" = VStr t → t ≠ "ping" →
        default [] (messageHandlers (cl w) !! t) = [] →
        reaction w (Json message) = []).
Proof.
  split_and!; try done.
  - unfold run, step. erewrite bind_Normal by reflexivity. cbv beta.
    erewrite bind_Normal by reflexivity. cbv beta.
    destruct (_ && _); [by rewrite onMessage_reaction | by rewrite emits_nil].
  - intros Ht. destruct message; try done; cbn [reaction]; by rewrite Ht.
  - intros Ht. destruct message; try done; cbn [reaction];
      by destruct (member _ "type") as [| | | |t| |]; [..|destruct (Ht t)|idtac|idtac].
  - intros t Ht Hping Hnone.
    assert (Hp : is_str (VStr t) "ping" = false).
    { apply not_true_iff_false. intros [= ->]%is_str_spec. done. }
    destruct message; try done; cbn [reaction]; rewrite Ht, Hp;
      (destruct (is_str (VStr t) "pong"); [done|]); cbn [handlersFor];
      by rewrite Hnone.
Qed.

(** *** Registrations *)

Lemma removeFirst_absent (id : nat) (l : list handler) :
  id ∉ handler_id <$> l → removeFirst id l = l.
Proof.
  induction l as [|h l IH]; [done|]. cbn. intros Hn.
  apply not_elem_of_cons in Hn as [Hne Hn]. rewrite decide_False by done.
  by rewrite IH.
Qed.

Lemma removeFirst_first (id : nat) (l1 l2 : list handler) (h : handler) :
  id ∉ handler_id <$> l1 → handler_id h = id →
  removeFirst id (l1 ++ h :: l2) = l1 ++ l2.
Proof.
  intros Hn Hid. induction l1 as [|h1 l1 IH]; cbn.
  - by rewrite decide_True.
  - cbn in Hn. apply not_elem_of_cons in Hn as [Hne Hn]. rewrite decide_False by done.
    by rewrite IH.
Qed.

(** The handlers registered for a type. *)
Definition registered (t : string) (w : world) : list handler :=
  default [] (messageHandlers (cl w) !! t).

Lemma on_run (t : string) (h : handler) (w : world) :
  registered t (run (on t h) w) = registered t w ++ [h] ∧
  (∀ t', t' ≠ t → registered t' (run (on t h) w) = registered t' w).
Proof.
  unfold registered, run, on. erewrite bind_Normal by reflexivity. cbv beta. cbn. split.
  - by rewrite lookup_insert_eq.
  - intros t' Hne. by rewrite lookup_insert_ne.
Qed.

Lemma off_run (t : string) (h : handler) (w : world) :
  registered t (run (off t h) w) = removeFirst (handler_id h) (registered t w) ∧
  (∀ t', t' ≠ t → registered t' (run (off t h) w) = registered t' w).
Proof.
  unfold registered, run, off. erewrite bind_Normal by reflexivity. cbv beta.
  destruct (messageHandlers (cl w) !! t) as [hs|] eqn:Hhs; cbn.
  - split; [by rewrite lookup_insert_eq|].
    intros t' Hne. by rewrite lookup_insert_ne.
  - by rewrite Hhs.
Qed.

Lemma on_same (t : string) (h : handler) (w : world) :
  canSend (run (on t h) w) = canSend w ∧ clock (br (run (on t h) w)) = clock (br w).
Proof. unfold run, on. by erewrite bind_Normal by reflexivity. Qed.

Lemma off_same (t : string) (h : handler) (w : world) :
  canSend (run (off t h) w) = canSend w ∧ clock (br (run (off t h) w)) = clock (br w).
Proof.
  unfold run, off. erewrite bind_Normal by reflexivity. cbv beta.
  by destruct (messageHandlers (cl w) !! t).
Qed.

(** X10.  [off(type, handler)] cancels one registration of the handler for
    that type, the oldest, and keeps the others in their order; for a
    handler that is not registered for the type it changes no
    registration.  Registrations for other types are never touched, and a
    handler registered twice is still called once per frame after one
    [off]. *)
Theorem off_cancels_the_oldest_registration (t : string) (h : handler) (w : world) :
  let w' := run (off t h) w in
  (∀ t', t' ≠ t → registered t' w' = registered t' w) ∧
  (handler_id h ∉ handler_id <$> registered t w → registered t w' = registered t w) ∧
  (∀ l1 h0 l2, registered t w = l1 ++ h0 :: l2 →
     handler_id h0 = handler_id h → handler_id h ∉ handler_id <$> l1 →
     registered t w' = l1 ++ l2) ∧
  registered t (run (off t h) (run (on t h) (run (on t h) w)))
    = removeFirst (handler_id h) (registered t w ++ [h]) ++ [h].
Proof.
  intros w'. destruct (off_run t h w) as [Ht Hother]. split_and!.
  - exact Hother.
  - intros Hn. subst w'. rewrite Ht. by apply removeFirst_absent.
  - intros l1 h0 l2 Hl Hid Hn. subst w'. rewrite Ht, Hl. by apply removeFirst_first.
  - destruct (off_run t h (run (on t h) (run (on t h) w))) as [-> _].
    destruct (on_run t h (run (on t h) w)) as [-> _].
    destruct (on_run t h w) as [-> _].
    assert (Hin : handler_id h ∈ handler_id <$> (registered t w ++ [h])).
    { rewrite fmap_app. apply elem_of_app. right. by apply list_elem_of_singleton. }
    revert Hin. generalize (registered t w ++ [h]). intros l Hin.
    induction l as [|h1 l IH]; cbn.
    + by apply elem_of_nil in Hin.
    + case_decide as Hid; [done|]. rewrite IH; [done|].
      cbn in Hin. apply elem_of_cons in Hin as [Heq|Hin]; [by destruct Hid | done].
Qed.

(** X11.  Registering a handler for a type and cancelling it again, when it
    was not registered for that type before, restores the dispatch: every
    frame is due the calls it was due before. *)
Theorem on_then_off_restores_dispatch (t : string) (h : handler) (w : world)
    (f : frame) :
  handler_id h ∉ handler_id <$> registered t w →
  let w' := run (off t h) (run (on t h) w) in
  (∀ t', registered t' w' = registered t' w) ∧
  dispatchOf (messageHandlers (cl w')) f = dispatchOf (messageHandlers (cl w)) f ∧
  reaction w' f = reaction w f.
Proof.
  intros Hn w'.
  assert (Hreg : ∀ t', registered t' w' = registered t' w).
  { intros t'. subst w'. destruct (off_run t h (run (on t h) w)) as [Ht Hother].
    destruct (on_run t h w) as [Ht1 Hother1].
    destruct (decide (t' = t)) as [->|Hne].
    - rewrite Ht, Ht1. rewrite removeFirst_first with (l2 := []) by done.
      by rewrite app_nil_r.
    - by rewrite Hother, Hother1. }
  assert (Hsend : canSend w' = canSend w ∧ clock (br w') = clock (br w)).
  { subst w'. destruct (off_same t h (run (on t h) w)) as [-> ->]. apply on_same. }
  destruct Hsend as [Hsend Hclock].
  split_and!; [done| |].
  - destruct f as [|message]; [done|]. unfold dispatchOf.
    destruct message; try done; destruct (member _ "type") as [| | | |t'| |]; try done;
      (case_decide; [done|]); by rewrite (Hreg t' : default _ _ = default _ _).
  - destruct f as [|message]; [done|].
    destruct message; try done; cbn [reaction]; rewrite Hsend, Hclock;
      (destruct (is_str _ "ping"); [done|]); (destruct (is_str _ "pong"); [done|]);
      destruct (member _ "type") as [| | | |t'| |]; try done;
      cbn [handlersFor]; by rewrite (Hreg t' : default _ _ = default _ _).
Qed.

(** Witness for X11: a handler for [telemetry] on the open client. *)
Lemma on_then_off_restores_dispatch_witness :
  let h := {| handler_id := 7; handler_throws := λ _ _, true |} in
  let f := Json (VObj [("type", VStr "telemetry"); ("data", VNum 1)]) in
  let w := openClient in
  let w' := run (off "telemetry" h) (run (on "telemetry" h) w) in
  (∀ t', registered t' w' = registered t' w) ∧
  dispatchOf (messageHandlers (cl w')) f = dispatchOf (messageHandlers (cl w)) f ∧
  reaction w' f = reaction w f.
Proof.
  apply (on_then_off_restores_dispatch "telemetry"
           {| handler_id := 7; handler_throws := λ _ _, true |} openClient).
  vm_compute. by intros ?%elem_of_nil.
Defined.

(** *** Exceptions *)

(** A computation that returns on every world. *)
Definition returns {A : Type} (m : M A) : Prop :=
  ∀ w, ∃ a w', m w = (Normal a, w').

Lemma returns_ret {A : Type} (a : A) : returns (ret a).
Proof. intros w. by eexists _, _. Qed.

Lemma returns_gets {A : Type} (f : world → A) : returns (gets f).
Proof. intros w. by eexists _, _. Qed.

Lemma returns_bind {A B : Type} (m : M A) (k : A → M B) :
  returns m → (∀ a, returns (k a)) → returns (m ≫= k).
Proof.
  intros Hm Hk w. destruct (Hm w) as (a & w1 & Hrun).
  destruct (Hk a w1) as (b & w2 & Hrun2). exists b, w2.
  by erewrite bind_Normal by exact Hrun.
Qed.

Lemma silent_returns {A : Type} (m : M A) : silent m → returns m.
Proof. intros Hm w. destruct (Hm w) as (a & es & ->). by eexists _, _. Qed.

Lemma returns_run (m : M unit) (w : world) : returns m → m w = (Normal (), run m w).
Proof. intros Hm. unfold run. destruct (Hm w) as ([] & w' & ->). done. Qed.

Lemma returns_connect : returns connect.
Proof. intros w. rewrite connect_run. by eexists _, _. Qed.

Lemma returns_step (e : event) : returns (step e).
Proof.
  destruct e as [id|sid|sid f|sid code reason|sid]; unfold step.
  - apply returns_bind; [apply returns_gets|]. intros [t|]; [|apply returns_ret].
    destruct (kind t).
    + apply returns_bind; [|intros; apply returns_connect].
      intros w. rewrite clearTimer_run. by eexists _, _.
    + apply silent_returns, silent_heartbeat.
    + apply returns_bind; [intros w; rewrite clearTimer_run; by eexists _, _|].
      intros _ w. rewrite connectionTimeout_run. by eexists _, _.
  - apply returns_bind; [apply returns_gets|]. intros st.
    case_decide; [|apply returns_ret].
    apply returns_bind; [intros w; rewrite setState_run; by eexists _, _|]. intros _.
    apply returns_bind; [apply returns_gets|]. intros [|]; [|apply returns_ret].
    intros w. destruct (onOpen_run w) as (es & ->). by eexists _, _.
  - apply returns_bind; [apply returns_gets|]. intros st.
    apply returns_bind; [apply returns_gets|]. intros l.
    destruct (_ && _); [|apply returns_ret]. apply silent_returns, silent_onMessage.
  - apply returns_bind; [apply returns_gets|]. intros st.
    case_decide; [apply returns_ret|].
    apply returns_bind; [intros w; rewrite setState_run; by eexists _, _|]. intros _.
    apply returns_bind; [apply returns_gets|]. intros [|]; [|apply returns_ret].
    intros w. destruct (onClose_run code reason w) as (es & ->). by eexists _, _.
  - apply returns_bind; [apply returns_gets|]. intros st.
    apply returns_bind; [apply returns_gets|]. intros l.
    destruct (_ && _); [|apply returns_ret]. apply silent_returns, silent_notify.
Qed.

Lemma returns_perform (c : userCall) : returns (perform c).
Proof.
  destruct c as [| |type data|t h|t h|cb]; cbn [perform].
  - apply returns_connect.
  - intros w. rewrite disconnect_run. by eexists _, _.
  - apply returns_bind; [apply silent_returns, silent_send | intros; apply returns_ret].
  - intros w. by eexists _, _.
  - unfold off. apply returns_bind; [apply returns_gets|]. intros hs.
    destruct (_ !! _); [|apply returns_ret]. intros w. by eexists _, _.
  - intros w. by eexists _, _.
Qed.

(** X12.  No exception leaves the client: every method the user interface
    calls and every reaction to an event of the browser returns normally,
    whatever the status callbacks and message handlers do, also when the
    socket cannot be constructed, so that a run of events is never cut
    short. *)
Theorem client_never_throws (w : world) :
  (∀ e, step e w = (Normal (), run (step e) w)) ∧
  (∀ c, perform c w = (Normal (), run (perform c) w)) ∧
  (∀ type data, ∃ sent, send type data w = (Normal sent, run (send type data;; ret ()) w)) ∧
  (∀ r, ∃ sent, issue r w = (Normal sent, run (issue r;; ret ()) w)).
Proof.
  assert (Hsend : ∀ type data,
            ∃ sent, send type data w = (Normal sent, run (send type data;; ret ()) w)).
  { intros type data. unfold run, mbind, M_bind, bind. rewrite send_run.
    destruct (canSend w); by eexists. }
  split_and!.
  - intros e. apply returns_run, returns_step.
  - intros c. apply returns_run, returns_perform.
  - exact Hsend.
  - intros []; cbn [issue];
      unfold requestTelemetry, updateSubscription, sendVoiceCommand, requestStrategy;
      exact (Hsend _ _).
Qed.

(** *** The attempt count *)

Definition attempts (w : world) : Z := reconnectAttempts (cl w).

Lemma silent_attempts {A : Type} (m : M A) (w : world) :
  silent m → attempts (m w).2 = attempts w.
Proof. intros Hm. by destruct (Hm w) as (a & es & ->). Qed.

Lemma connect_attempts (w : world) :
  attempts (run connect w) = attempts w ∨ attempts (run connect w) = (attempts w + 1)%Z.
Proof.
  unfold run. rewrite connect_run. cbn [snd]. destruct (busy w); [by left|].
  destruct (constructible _ _); [by left|]. rewrite scheduleReconnect_run.
  destruct (_ <=? _)%Z; [by left | by right].
Qed.

(** X13.  The attempt count, which sets the back-off delay and decides when
    the client gives up, goes back to 0 only when a socket opens.  Every
    other event of the browser and every call of the user interface leaves
    it as it is or adds one to it: neither [disconnect()] nor an explicit
    [connect()] starts the count again. *)
Theorem attempt_count_resets_only_on_open (w : world) :
  (∀ e, attempts (run (step e) w) = attempts w ∨
        attempts (run (step e) w) = (attempts w + 1)%Z ∨
        (attempts (run (step e) w) = 0%Z ∧
         ∃ sid, e = SocketOpens sid ∧ stateOf sid w = CONNECTING ∧
                isListening sid w = true)) ∧
  (∀ c, attempts (run (perform c) w) = attempts w ∨
        attempts (run (perform c) w) = (attempts w + 1)%Z).
Proof.
  split.
  - intros e. destruct e as [id|sid|sid f|sid code reason|sid]; unfold run, step.
    + erewrite bind_Normal by reflexivity. cbv beta.
      destruct (pending id w) as [t|] eqn:Hp; [|by left].
      destruct (kind t) eqn:Hk.
      * erewrite bind_Normal by apply clearTimer_run. cbv beta.
        destruct (connect_attempts (without id w)) as [H|H]; [left | right; left];
          exact H.
      * left. by apply silent_attempts, silent_heartbeat.
      * erewrite bind_Normal by apply clearTimer_run. cbv beta.
        rewrite connectionTimeout_run. cbn [snd cl without]. left.
        destruct (ws (cl w)) as [sid|]; [|done]. case_decide; [|done].
        unfold attempts. by rewrite withState_cl.
    + erewrite bind_Normal by reflexivity. cbv beta.
      case_decide as Hst; [|by left].
      erewrite bind_Normal by apply setState_run. cbv beta.
      erewrite bind_Normal by reflexivity. cbv beta.
      rewrite withState_isListening. destruct (isListening sid w) eqn:Hl.
      * destruct (onOpen_run (withState sid OPEN w)) as (es & ->). right. right.
        split; [done|]. by exists sid.
      * left. unfold attempts, ret. cbn [snd]. by rewrite withState_cl.
    + erewrite bind_Normal by reflexivity. cbv beta.
      erewrite bind_Normal by reflexivity. cbv beta.
      destruct (_ && _); [|by left]. left. by apply silent_attempts, silent_onMessage.
    + erewrite bind_Normal by reflexivity. cbv beta.
      case_decide as Hst; [by left|].
      erewrite bind_Normal by apply setState_run. cbv beta.
      erewrite bind_Normal by reflexivity. cbv beta.
      rewrite withState_isListening. destruct (isListening sid w) eqn:Hl.
      * destruct (onClose_run code reason (withState sid CLOSED w)) as (es & ->).
        cbn [snd]. unfold closed, attempts.
        destruct (code =? 1000)%Z; [|destruct (_ <=? _)%Z]; [left | left | right; left];
          cbn [cl emits cleared unconnected rescheduled reconnectAttempts];
          by rewrite withState_cl.
      * left. unfold attempts, ret. cbn [snd]. by rewrite withState_cl.
    + erewrite bind_Normal by reflexivity. cbv beta.
      erewrite bind_Normal by reflexivity. cbv beta.
      destruct (_ && _); [|by left]. left. by apply silent_attempts, silent_notify.
  - intros c. destruct c as [| |type data|t h|t h|cb]; cbn [perform].
    + apply connect_attempts.
    + left. unfold run. by rewrite disconnect_run.
    + left. apply silent_attempts.
      apply silent_bind; [apply silent_send | intros; apply silent_ret].
    + by left.
    + left. unfold run, off. erewrite bind_Normal by reflexivity. cbv beta.
      by destruct (_ !! _).
    + by left.
Qed.

(** After the client has given up, an explicit [connect()] gets one
    attempt: when that socket is lost before it opens, the loss is reported
    as [failed] at once. *)
Example connect_after_failure_is_not_retried :
  let w := runAll [SocketCloses 4 1006 "lost"] lastAttempt in
  let w' := runAll [SocketCloses 6 1006 "lost again"] (run connect w) in
  attempts w = 1%Z ∧ attempts w' = 1%Z ∧
  trace (br w') = trace (br w) ++
    [ Opened 6 "ws://137.184.151.3:8766" "";
      Status 1 "failed" (Text "Max reconnection attempts reached");
      Status 1 "disconnected" (Text "lost again") ] ∧
  filter (λ t, kind t = ReconnectTimer) (timers (br w')) = [].
Proof. vm_compute. done. Qed.

End Robust.

(** ** Comparisons of numbers *)

Section FloatOrder.
Import JS Processor.

Lemma SFcompare_antisym (x y : spec_float) :
  SFcompare y x = option_map CompOpp (SFcompare x y).
Proof.
  destruct x as [sx|sx| |sx mx ex], y as [sy|sy| |sy my ey]; try reflexivity;
    try (destruct sx; reflexivity); try (destruct sy; reflexivity);
    try (destruct sx, sy; reflexivity).
  pose proof (Pos.compare_cont_antisym mx my Eq) as H. cbn [CompOpp] in H.
  destruct sx, sy; try reflexivity; unfold SFcompare, option_map;
    rewrite (Z.compare_antisym ex ey); destruct (Z.compare ex ey); cbn [CompOpp];
    try reflexivity; rewrite <- H; by destruct (Pos.compare_cont Eq mx my).
Qed.

Lemma SFcompare_None (x y : spec_float) :
  SFcompare x y = None → SFcompare x x = None ∨ SFcompare y y = None.
Proof. destruct x as [?|?| |? ? ?], y as [?|?| |? ? ?]; auto; discriminate. Qed.

(** [x < x] is false. *)
Lemma ltb_irrefl (x : float) : PrimFloat.ltb x x = false.
Proof.
  rewrite ltb_spec. unfold SFltb.
  pose proof (SFcompare_antisym (Prim2SF x) (Prim2SF x)) as H.
  destruct (SFcompare (Prim2SF x) (Prim2SF x)) as [[]|]; try done.
Qed.

(** [x < y] and [y < x] are not both true. *)
Lemma ltb_asym (x y : float) : PrimFloat.ltb x y = true → PrimFloat.ltb y x = false.
Proof.
  rewrite !ltb_spec. unfold SFltb. rewrite (SFcompare_antisym (Prim2SF x) (Prim2SF y)).
  by destruct (SFcompare (Prim2SF x) (Prim2SF y)) as [[]|].
Qed.

Lemma is_nan_spec (x : float) :
  PrimFloat.is_nan x = false ↔ SFcompare (Prim2SF x) (Prim2SF x) = Some Eq.
Proof.
  unfold PrimFloat.is_nan. rewrite FloatAxioms.eqb_spec. unfold SFeqb.
  pose proof (SFcompare_antisym (Prim2SF x) (Prim2SF x)) as H.
  destruct (SFcompare (Prim2SF x) (Prim2SF x)) as [[]|]; cbn in *; split; congruence.
Qed.

(** Numbers that are not NaN are comparable. *)
Lemma leb_of_not_ltb (x y : float) :
  PrimFloat.is_nan x = false → PrimFloat.is_nan y = false →
  PrimFloat.ltb y x = false → PrimFloat.leb x y = true.
Proof.
  rewrite !is_nan_spec, FloatAxioms.ltb_spec, FloatAxioms.leb_spec. unfold SFltb, SFleb.
  intros Hx Hy. rewrite (SFcompare_antisym (Prim2SF x) (Prim2SF y)).
  destruct (SFcompare (Prim2SF x) (Prim2SF y)) as [[]|] eqn:Hc; try done.
  apply SFcompare_None in Hc as [Hc|Hc]; congruence.
Qed.

Lemma clamp_nan (lo hi x : float) :
  PrimFloat.is_nan x = true → PrimFloat.is_nan (clamp lo hi x) = true.
Proof.
  intros Hx. unfold clamp, min2, max2. rewrite Hx, orb_true_r.
  change (PrimFloat.is_nan nan) with true. by rewrite orb_true_r.
Qed.

Lemma clamp_range (lo hi x : float) :
  PrimFloat.is_nan lo = false → PrimFloat.is_nan hi = false →
  PrimFloat.ltb hi lo = false →
  PrimFloat.is_nan x = false →
  PrimFloat.is_nan (clamp lo hi x) = false ∧
  PrimFloat.leb lo (clamp lo hi x) = true ∧
  PrimFloat.leb (clamp lo hi x) hi = true.
Proof.
  intros Hlo Hhi Hord Hx.
  assert (Hmin : PrimFloat.is_nan (min2 hi x) = false ∧
                 PrimFloat.ltb hi (min2 hi x) = false).
  { unfold min2. rewrite Hhi, Hx. cbn [orb].
    destruct (PrimFloat.ltb hi x) eqn:H1; [split; [done | apply ltb_irrefl]|].
    destruct (PrimFloat.ltb x hi) eqn:H2; [done|].
    destruct (_ && _); [split; [done | apply ltb_irrefl] | done]. }
  destruct Hmin as (Hnan & Hle). unfold clamp.
  generalize dependent (min2 hi x). intros m Hnan Hle.
  assert (Hmax : PrimFloat.is_nan (max2 lo m) = false ∧
                 PrimFloat.ltb (max2 lo m) lo = false ∧
                 PrimFloat.ltb hi (max2 lo m) = false).
  { unfold max2. rewrite Hlo, Hnan. cbn [orb].
    destruct (PrimFloat.ltb lo m) eqn:H1; [split_and!; [done | by apply ltb_asym | done]|].
    destruct (PrimFloat.ltb m lo) eqn:H2; [split_and!; [done | apply ltb_irrefl | done]|].
    destruct (_ && _); [done|]. split_and!; [done | apply ltb_irrefl | done]. }
  destruct Hmax as (Hr & H1 & H2).
  split_and!; [done | by apply leb_of_not_ltb | by apply leb_of_not_ltb].
Qed.

End FloatOrder.

(** ** More on the snapshot, the history and the suggestions *)

Section Snapshot.
Import JS Telemetry.

(** X14.  After every merge of a well-typed partial into a well-typed
    snapshot, [speed > maxSpeed] is false: [maxSpeed] is the value it had
    after the key overwrite, unless [speed] exceeds that value, in which
    case it is [speed]. *)
Theorem max_speed_follows_speed (p : list (string * value)) (d : gmap string value) :
  wellTyped d → wellTypedPartial p →
  ∃ d' sp ms,
    updateCurrentData p d = Some d' ∧
    field d' "speed" = field (mergeKeys p d) "speed" ∧
    ToNumber (field d' "speed") = Some sp ∧
    ToNumber (field (mergeKeys p d) "maxSpeed") = Some ms ∧
    field d' "maxSpeed" = (if PrimFloat.ltb ms sp then field d' "speed"
                           else field (mergeKeys p d) "maxSpeed") ∧
    js_gt (field d' "speed") (field d' "maxSpeed") = Some false.
Proof.
  intros Hd Hp. pose proof (mergeKeys_wellTyped p d Hd Hp) as Hm.
  destruct (wellTyped_reads _ Hm)
    as (sp & ms & fl & fc & fu & est & temps & total & Hsp & Hms & Hfl & Hfc & Hfu & Hest
        & Htemps & Htotal).
  destruct (calculateDerivedValues_spec _ sp ms fl fc fu est total temps
              Hsp Hms Hfl Hfc Hfu Hest Htemps Htotal)
    as (d' & Hd' & Hmax & _).
  assert (Hspeed : field d' "speed" = field (mergeKeys p d) "speed").
  { unfold field. by rewrite (calculateDerivedValues_frame _ d' "speed" Hd') by compute_done. }
  assert (Hfield : field d' "maxSpeed" =
                   if PrimFloat.ltb ms sp then field d' "speed"
                   else field (mergeKeys p d) "maxSpeed").
  { rewrite Hspeed. unfold field at 1. rewrite Hmax. by destruct (PrimFloat.ltb ms sp). }
  exists d', sp, ms. unfold updateCurrentData. split_and!; try done.
  - by rewrite Hspeed.
  - unfold js_gt, js_lt. rewrite Hfield, Hspeed, Hsp.
    destruct (PrimFloat.ltb ms sp) eqn:Hlt; [rewrite Hsp | rewrite Hms];
      cbn [mbind option_bind]; [by rewrite ltb_irrefl | by rewrite Hlt].
Qed.

(** Witness for X14: a slower speed than the demo data's maximum. *)
Lemma max_speed_follows_speed_witness :
  ∃ d' sp ms,
    updateCurrentData [("speed", VNum 301)] demoData = Some d' ∧
    field d' "speed" = field (mergeKeys [("speed", VNum 301)] demoData) "speed" ∧
    ToNumber (field d' "speed") = Some sp ∧
    ToNumber (field (mergeKeys [("speed", VNum 301)] demoData) "maxSpeed") = Some ms ∧
    field d' "maxSpeed" = (if PrimFloat.ltb ms sp then field d' "speed"
                           else field (mergeKeys [("speed", VNum 301)] demoData) "maxSpeed") ∧
    js_gt (field d' "speed") (field d' "maxSpeed") = Some false.
Proof.
  apply (max_speed_follows_speed [("speed", VNum 301)] demoData).
  - exact demoData_wellTyped.
  - split_and!.
    + repeat (apply Forall_cons_2; [intros Hk; (by eexists) || (by compute_done)|]).
      apply Forall_nil_2.
    + intros Hk. exfalso. revert Hk. compute_done.
    + apply Forall_cons_2; [compute_done | apply Forall_nil_2].
Defined.

End Snapshot.

Section Rings.
Import JS Telemetry.

(** A sequence of recordings is the fold of [fifoRecord]. *)
Lemma recordAll_foldl (rs : list recording) (p : TelemetryProcessor) :
  (0 < maxHistoryLength p)%Z →
  bounded (maxHistoryLength p) (dataHistory p) →
  Forall (tiresKnown (dataHistory p)) rs →
  ∃ p', recordAll rs p = Some p' ∧
        dataHistory p' = foldl (fifoRecord (maxHistoryLength p)) (dataHistory p) rs.
Proof.
  intros HN Hb Hrs. revert p HN Hb Hrs.
  induction rs as [|r rs IH]; intros p HN Hb Hrs; [by exists p|].
  apply Forall_cons in Hrs as [Hr Hrs].
  destruct (record_step r p HN Hb Hr) as (p1 & Hstep & HN1 & Hh1).
  destruct (IH p1) as (p' & Hall & Hh').
  - by rewrite HN1.
  - rewrite HN1, Hh1. by apply fifoRecord_bounded.
  - eapply Forall_impl; [exact Hrs|]. intros r' (o & Ho & Hnd & Hk).
    exists o. split_and!; try done. intros tire Htire.
    rewrite Hh1. apply fifoRecord_tires. by apply Hk.
  - exists p'. cbn [recordAll foldl]. rewrite Hstep. cbn [mbind option_bind].
    rewrite HN1, Hh1 in *. by split.
Qed.

Lemma foldl_fifoRecord_laps (N : Z) (rs : list recording) (h : DataHistory) :
  lapTimes (foldl (fifoRecord N) h rs) = lapTimes h ∧
  sectorTimes (foldl (fifoRecord N) h rs) = sectorTimes h.
Proof.
  revert h. induction rs as [|r rs IH]; intros h; [done|].
  cbn [foldl]. destruct (IH (fifoRecord N h r)) as [-> ->]. done.
Qed.

(** X15.  [updateHistory] never writes to the [lapTimes] and [sectorTimes]
    arrays of the history: whatever is recorded, they stay as they were,
    which for the constructor's history is empty. *)
Theorem lap_history_is_never_filled (rs : list recording) (p : TelemetryProcessor) :
  (0 < maxHistoryLength p)%Z →
  bounded (maxHistoryLength p) (dataHistory p) →
  Forall (tiresKnown (dataHistory p)) rs →
  ∃ p', recordAll rs p = Some p' ∧
        lapTimes (dataHistory p') = lapTimes (dataHistory p) ∧
        sectorTimes (dataHistory p') = sectorTimes (dataHistory p).
Proof.
  intros HN Hb Hrs. destruct (recordAll_foldl rs p HN Hb Hrs) as (p' & Hall & Hh).
  exists p'. split; [done|]. rewrite Hh. apply foldl_fifoRecord_laps.
Qed.

Lemma demoData_tiresKnown (timestamp : value) (now : float) :
  tiresKnown (dataHistory newProcessor) (mkRecording demoData timestamp now).
Proof.
  eexists. split; [vm_compute; reflexivity|]. split.
  - unfold keys. cbn. repeat constructor; compute_done.
  - intros tire Ht. unfold keys in Ht. cbn in Ht.
    repeat (apply elem_of_cons in Ht as [->|Ht]; [vm_compute; eauto|]).
    by apply elem_of_nil in Ht.
Qed.

(** Witness for X15: two recordings of the demo data, whose last lap time
    is 81.89. *)
Lemma lap_history_is_never_filled_witness :
  ∃ p', recordAll [mkRecording demoData (VNum 5) 7; mkRecording demoData VUndefined 7]
          newProcessor = Some p' ∧
        lapTimes (dataHistory p') = lapTimes (dataHistory newProcessor) ∧
        sectorTimes (dataHistory p') = sectorTimes (dataHistory newProcessor).
Proof.
  apply (lap_history_is_never_filled
           [mkRecording demoData (VNum 5) 7; mkRecording demoData VUndefined 7]
           newProcessor).
  - reflexivity.
  - exact newProcessor_bounded.
  - repeat (apply Forall_cons_2; [apply demoData_tiresKnown|]). apply Forall_nil_2.
Defined.










(** A snapshot without a temperature for one of the tires leaves that ring
    behind the others. *)
Example partial_tires_break_alignment :
  (p' ← record (mkRecording (<["tireTemps" := VObj [("fl", VNum 90)]]> demoData)
                  VUndefined 7) newProcessor;
   Some (length (timestamps (dataHistory p')),
         length <$> tireTemps (dataHistory p') !! "fl",
         length <$> tireTemps (dataHistory p') !! "rr"))
  = Some (1, Some 1, Some 0).
Proof. vm_compute. reflexivity. Qed.

End Rings.

Section Rules.
Import JS Telemetry.

(** The types of the suggestions in the order of the rules, each with
    whether its rule fires. *)
Definition fired (rules : list (bool * string)) : list string :=
  snd <$> filter (λ r, r.1 = true) rules.

(** What one pass of the advisor yields. *)
Lemma advisor_rules (d : gmap string value) (temps : list value)
    (pct lap fu fl hottest ahead behind engine : float) :
  ToNumber (field d "fuelPercentage") = Some pct →
  ToNumber (field d "currentLap") = Some lap →
  ToNumber (field d "fuelUsagePerLap") = Some fu →
  ToNumber (field d "fuelLevel") = Some fl →
  Object_values (field d "tireTemps") = Some temps →
  Math_max temps neg_infinity = Some hottest →
  ToNumber (field d "gapAhead") = Some ahead →
  ToNumber (field d "gapBehind") = Some behind →
  ToNumber (field d "engineTemp") = Some engine →
  ∃ l, generateAISuggestions d = Some l ∧
       type <$> l =
         fired [ (PrimFloat.ltb pct 25, "strategy");
                 (PrimFloat.ltb 2.5 fu, "fuel");
                 (PrimFloat.ltb 100 hottest, "tires");
                 (PrimFloat.ltb ahead 1 && is_str (field d "drsStatus") "AVAILABLE",
                  "overtake");
                 (PrimFloat.ltb behind 1.5, "defense");
                 (PrimFloat.ltb 95 engine, "engine") ] ∧
       priority <$> l =
         fired [ (PrimFloat.ltb pct 25, "HIGH PRIORITY");
                 (PrimFloat.ltb 2.5 fu, "FUEL SAVE");
                 (PrimFloat.ltb 100 hottest, "TIRE MANAGEMENT");
                 (PrimFloat.ltb ahead 1 && is_str (field d "drsStatus") "AVAILABLE",
                  "HIGH PRIORITY");
                 (PrimFloat.ltb behind 1.5, "DEFENSIVE");
                 (PrimFloat.ltb 95 engine, "ENGINE") ] ∧
       (PrimFloat.ltb pct 25 = true →
        head l = Some {| priority := "HIGH PRIORITY";
                         text := [Lit "PIT WINDOW OPENS LAP "; Num (lap + 2); Lit "-";
                                  Num (lap + 4)];
                         gain := [Lit "OPTIMAL: LAP "; Num (lap + 3)];
                         type := "strategy" |}).
Proof.
  intros Hpct Hlap Hfu Hfl Htemps Hmax Hahead Hbehind Hengine.
  unfold generateAISuggestions, js_gt, js_lt, js_mul, js_add, num_binop.
  rewrite Hpct, Hlap, Hfu, Hfl, Hahead, Hbehind, Hengine, Htemps.
  cbn [mbind option_bind ToNumber].
  destruct (PrimFloat.ltb pct 25); cbn [mbind option_bind];
    destruct (PrimFloat.ltb 2.5 fu); cbn [mbind option_bind];
    rewrite Hmax; cbn [mbind option_bind];
    destruct (PrimFloat.ltb 100 hottest);
    destruct (PrimFloat.ltb ahead 1 && is_str (field d "drsStatus") "AVAILABLE");
    destruct (PrimFloat.ltb behind 1.5); destruct (PrimFloat.ltb 95 engine);
    (eexists; split; [reflexivity|]);
    (split_and!; [reflexivity | reflexivity | done]).
Qed.

(** The rules that fire are among the rules, in their order. *)
Lemma fired_elem (x : string) (rules : list (bool * string)) :
  x ∈ fired rules → x ∈ rules.*2.
Proof.
  unfold fired. intros Hx. apply list_elem_of_fmap in Hx as (r & -> & Hr).
  apply list_elem_of_filter in Hr as [_ Hr]. apply list_elem_of_fmap. by exists r.
Qed.

Lemma fired_NoDup (rules : list (bool * string)) :
  NoDup rules.*2 → NoDup (fired rules).
Proof.
  unfold fired. induction rules as [|r rules IH]; [intros _; apply NoDup_nil_2|].
  rewrite fmap_cons. intros [Hr Hrs]%NoDup_cons. rewrite filter_cons.
  destruct (decide (r.1 = true)); [|by apply IH].
  rewrite fmap_cons. apply NoDup_cons_2; [|by apply IH].
  intros Hin. by apply Hr, fired_elem.
Qed.

Lemma fired_length (rules : list (bool * string)) :
  (length (fired rules) ≤ length rules)%nat.
Proof. unfold fired. rewrite length_fmap. apply length_filter. Qed.

(** X17.  On a snapshot whose inputs of the rules are numbers, one pass of
    [generateAISuggestions] replaces the list by the suggestions of the
    rules that fire, in the order of the rules: the pit window when the fuel
    percentage is below 25, fuel saving when the usage per lap is above 2.5,
    tire management when the hottest tire is above 100, the overtake when
    the gap ahead is below 1 and DRS is [AVAILABLE], the defence when the
    gap behind is below 1.5 and engine management when the engine is above
    95.  So there are at most six suggestions and no two of a type; the pit
    window suggestion names the laps 2 to 4 after the current one. *)
Theorem suggestions_follow_the_rules (d : gmap string value) (temps : list value)
    (pct lap fu fl hottest ahead behind engine : float) :
  ToNumber (field d "fuelPercentage") = Some pct →
  ToNumber (field d "currentLap") = Some lap →
  ToNumber (field d "fuelUsagePerLap") = Some fu →
  ToNumber (field d "fuelLevel") = Some fl →
  Object_values (field d "tireTemps") = Some temps →
  Math_max temps neg_infinity = Some hottest →
  ToNumber (field d "gapAhead") = Some ahead →
  ToNumber (field d "gapBehind") = Some behind →
  ToNumber (field d "engineTemp") = Some engine →
  ∃ l, generateAISuggestions d = Some l ∧
       type <$> l =
         fired [ (PrimFloat.ltb pct 25, "strategy");
                 (PrimFloat.ltb 2.5 fu, "fuel");
                 (PrimFloat.ltb 100 hottest, "tires");
                 (PrimFloat.ltb ahead 1 && is_str (field d "drsStatus") "AVAILABLE",
                  "overtake");
                 (PrimFloat.ltb behind 1.5, "defense");
                 (PrimFloat.ltb 95 engine, "engine") ] ∧
       priority <$> l =
         fired [ (PrimFloat.ltb pct 25, "HIGH PRIORITY");
                 (PrimFloat.ltb 2.5 fu, "FUEL SAVE");
                 (PrimFloat.ltb 100 hottest, "TIRE MANAGEMENT");
                 (PrimFloat.ltb ahead 1 && is_str (field d "drsStatus") "AVAILABLE",
                  "HIGH PRIORITY");
                 (PrimFloat.ltb behind 1.5, "DEFENSIVE");
                 (PrimFloat.ltb 95 engine, "ENGINE") ] ∧
       NoDup (type <$> l) ∧ (length l ≤ 6)%nat ∧
       (PrimFloat.ltb pct 25 = true →
        head l = Some {| priority := "HIGH PRIORITY";
                         text := [Lit "PIT WINDOW OPENS LAP "; Num (lap + 2); Lit "-";
                                  Num (lap + 4)];
                         gain := [Lit "OPTIMAL: LAP "; Num (lap + 3)];
                         type := "strategy" |}).
Proof.
  intros Hpct Hlap Hfu Hfl Htemps Hmax Hahead Hbehind Hengine.
  destruct (advisor_rules d temps pct lap fu fl hottest ahead behind engine)
    as (l & Hl & Htypes & Hprio & Hhead); try done.
  exists l. split_and!; try done.
  - rewrite Htypes. apply fired_NoDup. cbn [fmap list_fmap snd].
    repeat (apply NoDup_cons_2; [compute_done|]). apply NoDup_nil_2.
  - rewrite <- (length_fmap type), Htypes. apply fired_length.
Qed.

Lemma demoData_hottest : Math_max [VNum 89; VNum 91; VNum 95; VNum 93] neg_infinity = Some 95%float.
Proof. vm_compute. reflexivity. Qed.

(** Witness for X17: the demo data, whose fuel percentage is undefined
    until the first merge. *)
Lemma suggestions_follow_the_rules_witness :
  ∃ l, generateAISuggestions demoData = Some l ∧
       type <$> l =
         fired [ (PrimFloat.ltb nan 25, "strategy");
                 (PrimFloat.ltb 2.5 2.1, "fuel");
                 (PrimFloat.ltb 100 95, "tires");
                 (PrimFloat.ltb 2.847 1 && is_str (field demoData "drsStatus") "AVAILABLE",
                  "overtake");
                 (PrimFloat.ltb 1.234 1.5, "defense");
                 (PrimFloat.ltb 95 89, "engine") ] ∧
       priority <$> l =
         fired [ (PrimFloat.ltb nan 25, "HIGH PRIORITY");
                 (PrimFloat.ltb 2.5 2.1, "FUEL SAVE");
                 (PrimFloat.ltb 100 95, "TIRE MANAGEMENT");
                 (PrimFloat.ltb 2.847 1 && is_str (field demoData "drsStatus") "AVAILABLE",
                  "HIGH PRIORITY");
                 (PrimFloat.ltb 1.234 1.5, "DEFENSIVE");
                 (PrimFloat.ltb 95 89, "ENGINE") ] ∧
       NoDup (type <$> l) ∧ (length l ≤ 6)%nat ∧
       (PrimFloat.ltb nan 25 = true →
        head l = Some {| priority := "HIGH PRIORITY";
                         text := [Lit "PIT WINDOW OPENS LAP "; Num (12 + 2); Lit "-";
                                  Num (12 + 4)];
                         gain := [Lit "OPTIMAL: LAP "; Num (12 + 3)];
                         type := "strategy" |}).
Proof.
  apply (suggestions_follow_the_rules demoData [VNum 89; VNum 91; VNum 95; VNum 93]
           nan 12 2.1 18.7 95 2.847 1.234 89);
    try (vm_compute; reflexivity).
Defined.

(** The suggestions of the constructor: the defence only. *)
Example demo_suggestions :
  (λ s, (priority s, type s)) <$> aiSuggestions newProcessor = [("DEFENSIVE", "defense")].
Proof. vm_compute. reflexivity. Qed.

End Rules.

(** ** Update callbacks, reset and the update pipeline *)

Section Callbacks.
Import JS Telemetry Processor.

(** The calls one notification round makes. *)
Definition round (s : state) : list notification :=
  (λ cb, {| receiver := listener_id cb; snapshot := currentData (self s);
            history := dataHistory (self s) |}) <$> updateCallbacks s.

Lemma foldl_callListener (d : gmap string value) (h : DataHistory)
    (cbs : list listener) (log : list notification) :
  foldl (callListener d h) log cbs =
    log ++ ((λ cb, {| receiver := listener_id cb; snapshot := d; history := h |}) <$> cbs).
Proof.
  revert log. induction cbs as [|cb cbs IH]; intros log; cbn [foldl fmap list_fmap].
  - by rewrite app_nil_r.
  - rewrite IH. unfold callListener. destruct (listener_throws cb d h);
      by rewrite <- app_assoc.
Qed.

Lemma notifyUpdateCallbacks_run (s : state) :
  notifyUpdateCallbacks s =
    {| self := self s; updateCallbacks := updateCallbacks s;
       notifications := notifications s ++ round s |}.
Proof. unfold notifyUpdateCallbacks. by rewrite foldl_callListener. Qed.

Lemma spliceFirst_absent (id : nat) (l : list listener) :
  id ∉ listener_id <$> l → spliceFirst id l = l.
Proof.
  induction l as [|cb l IH]; [done|]. cbn. intros Hn.
  apply not_elem_of_cons in Hn as [Hne Hn]. rewrite decide_False by done.
  by rewrite IH.
Qed.

Lemma spliceFirst_first (id : nat) (l1 l2 : list listener) (cb : listener) :
  id ∉ listener_id <$> l1 → listener_id cb = id →
  spliceFirst id (l1 ++ cb :: l2) = l1 ++ l2.
Proof.
  intros Hn Hid. induction l1 as [|h1 l1 IH]; cbn.
  - by rewrite decide_True.
  - cbn in Hn. apply not_elem_of_cons in Hn as [Hne Hn]. rewrite decide_False by done.
    by rewrite IH.
Qed.

(** X18.  [notifyUpdateCallbacks] calls every registered update callback,
    once per registration and in the order of registration, whatever the
    earlier ones throw, and hands each the processor's own snapshot and
    history.  [offUpdate] cancels the oldest registration of a callback and
    keeps the others in order; it changes nothing when the callback is not
    registered, so that registering a new callback and cancelling it
    restores the list. *)
Theorem update_callbacks_are_all_called (s : state) (cb : listener) :
  notifications (notifyUpdateCallbacks s) = notifications s ++ round s ∧
  self (notifyUpdateCallbacks s) = self s ∧
  updateCallbacks (notifyUpdateCallbacks s) = updateCallbacks s ∧
  (listener_id cb ∉ listener_id <$> updateCallbacks s →
   offUpdate cb s = s ∧ offUpdate cb (onUpdate cb s) = s) ∧
  (∀ l1 cb0 l2, updateCallbacks s = l1 ++ cb0 :: l2 →
     listener_id cb0 = listener_id cb → listener_id cb ∉ listener_id <$> l1 →
     updateCallbacks (offUpdate cb s) = l1 ++ l2).
Proof.
  rewrite notifyUpdateCallbacks_run. split_and!; try done.
  - intros Hn. unfold offUpdate, onUpdate. cbn.
    rewrite spliceFirst_absent by done.
    rewrite spliceFirst_first with (l2 := []) by done. rewrite app_nil_r.
    by destruct s.
  - intros l1 cb0 l2 Hl Hid Hn. cbn. rewrite Hl. by apply spliceFirst_first.
Qed.

(** Three callbacks, the first of which throws. *)
Example notification_round :
  let cb i t := {| listener_id := i; listener_throws := λ _ _, t |} in
  receiver <$> notifications
                 (notifyUpdateCallbacks
                    (onUpdate (cb 3 false) (onUpdate (cb 2 false) (onUpdate (cb 1 true)
                       newState))))
  = [1; 2; 3].
Proof. vm_compute. reflexivity. Qed.

End Callbacks.

Section Reset.
Import JS Telemetry Processor.

Lemma spread_lookup (d : gmap string value) (o : list (string * value)) (k : string) :
  NoDup (keys o) →
  spread d o !! k = match assoc k o with Some v => Some v | None => d !! k end.
Proof.
  unfold spread. revert d. induction o as [|[k' v] o IH]; intros d Hnd; [done|].
  cbn [foldl fst snd]. unfold keys in *. cbn in Hnd. apply NoDup_cons in Hnd as [Hk Hnd].
  rewrite IH by done. cbn [assoc]. destruct (decide (k = k')) as [->|Hne].
  - assert (assoc k' o = None) as -> by (by apply assoc_None).
    by rewrite lookup_insert_eq.
  - destruct (assoc k o); [done|]. by rewrite lookup_insert_ne.
Qed.

Lemma demoOverrides_NoDup : NoDup (keys demoOverrides).
Proof.
  unfold keys. cbn. repeat (apply NoDup_cons_2; [compute_done|]). apply NoDup_nil_2.
Qed.

Lemma demo_lookup (d : gmap string value) (k : string) :
  spread d demoOverrides !! k =
    match assoc k demoOverrides with Some v => Some v | None => d !! k end.
Proof. apply spread_lookup, demoOverrides_NoDup. Qed.

Lemma demo_field (d : gmap string value) (k : string) :
  field (spread d demoOverrides) k = default (field d k) (assoc k demoOverrides).
Proof. unfold field. rewrite demo_lookup. by destruct (assoc k demoOverrides). Qed.

Lemma spread_idem (d : gmap string value) :
  spread (spread d demoOverrides) demoOverrides = spread d demoOverrides.
Proof.
  apply map_eq. intros k. rewrite !demo_lookup. by destruct (assoc k demoOverrides).
Qed.

Lemma clearHistory_idem (h : DataHistory) : clearHistory (clearHistory h) = clearHistory h.
Proof.
  unfold clearHistory. cbn. f_equal. apply map_eq. intros k.
  rewrite !lookup_fmap. by destruct (tireTemps h !! k).
Qed.

(** The suggestions for the demo values: the defence, preceded by the pit
    window when the fuel percentage, which the demo values do not include,
    is below 25. *)
Lemma demo_suggestions_run (d : gmap string value) (pct : float) :
  ToNumber (field d "fuelPercentage") = Some pct →
  ∃ l, generateAISuggestions (spread d demoOverrides) = Some l ∧
       type <$> l = (if PrimFloat.ltb pct 25 then ["strategy"] else []) ++ ["defense"].
Proof.
  intros Hpct.
  destruct (advisor_rules (spread d demoOverrides) [VNum 89; VNum 91; VNum 95; VNum 93]
              pct 12 2.1 18.7 95 2.847 1.234 89) as (l & Hl & Htypes & _);
    try (rewrite demo_field; by vm_compute).
  { exact demoData_hottest. }
  exists l. split; [done|]. rewrite Htypes. rewrite demo_field.
  change (default _ (assoc "drsStatus" demoOverrides)) with (VStr "OPEN").
  by destruct (PrimFloat.ltb pct 25).
Qed.

(** X19.  [reset()] puts the demo values back and empties every array of
    the history, those of the tires included; it leaves every field that is
    not among the demo values as it was, the derived [fuelPercentage] and
    [avgTireTemp] among them, and recomputes no derived value.  The
    suggestions are recomputed from that snapshot: the defence, preceded by
    the pit window when the fuel percentage left over is below 25.  Every
    update callback is then called once.  A second [reset()] changes
    nothing more. *)
Theorem reset_restores_demo_values (s : state) (pct : float) :
  ToNumber (field (currentData (self s)) "fuelPercentage") = Some pct →
  ∃ s', reset s = Some s' ∧
    (∀ k, currentData (self s') !! k =
            match assoc k demoOverrides with
            | Some v => Some v
            | None => currentData (self s) !! k
            end) ∧
    dataHistory (self s') = clearHistory (dataHistory (self s)) ∧
    maxHistoryLength (self s') = maxHistoryLength (self s) ∧
    generateAISuggestions (currentData (self s')) = Some (aiSuggestions (self s')) ∧
    type <$> aiSuggestions (self s') =
      (if PrimFloat.ltb pct 25 then ["strategy"] else []) ++ ["defense"] ∧
    updateCallbacks s' = updateCallbacks s ∧
    notifications s' = notifications s ++ round s' ∧
    ∃ s'', reset s' = Some s'' ∧ self s'' = self s'.
Proof.
  intros Hpct. destruct (demo_suggestions_run _ pct Hpct) as (l & Hl & Htypes).
  unfold reset, initializeDemoData. rewrite Hl. cbn [mbind option_bind].
  eexists. split; [reflexivity|]. rewrite notifyUpdateCallbacks_run.
  cbn [self with_self currentData dataHistory maxHistoryLength aiSuggestions
       updateCallbacks notifications].
  split_and!; try done.
  - intros k. apply demo_lookup.
  - rewrite spread_idem, Hl. cbn [mbind option_bind]. eexists. split; [reflexivity|].
    rewrite notifyUpdateCallbacks_run. cbn. by rewrite clearHistory_idem.
Qed.

Lemma newState_fuelPercentage :
  ToNumber (field (currentData (self newState)) "fuelPercentage") = Some nan.
Proof. vm_compute. reflexivity. Qed.

(** Witness for X19: the processor as the constructor leaves it. *)
Lemma reset_restores_demo_values_witness :
  ∃ s', reset newState = Some s' ∧
    (∀ k, currentData (self s') !! k =
            match assoc k demoOverrides with
            | Some v => Some v
            | None => currentData (self newState) !! k
            end) ∧
    dataHistory (self s') = clearHistory (dataHistory (self newState)) ∧
    maxHistoryLength (self s') = maxHistoryLength (self newState) ∧
    generateAISuggestions (currentData (self s')) = Some (aiSuggestions (self s')) ∧
    type <$> aiSuggestions (self s') =
      (if PrimFloat.ltb nan 25 then ["strategy"] else []) ++ ["defense"] ∧
    updateCallbacks s' = updateCallbacks newState ∧
    notifications s' = notifications newState ++ round s' ∧
    ∃ s'', reset s' = Some s'' ∧ self s'' = self s'.
Proof. exact (reset_restores_demo_values newState nan newState_fuelPercentage). Defined.

(** After a merge that halves the tank, [reset()] puts the fuel level back
    but neither the capacity nor the fuel percentage. *)
Example reset_keeps_other_fields :
  (d ← updateCurrentData [("fuelLevel", VNum 20); ("fuelCapacity", VNum 50)] demoData;
   s ← reset (with_self {| currentData := d; dataHistory := emptyHistory;
                           maxHistoryLength := 300; aiSuggestions := [] |} newState);
   let d' := currentData (self s) in
   Some (d' !! "fuelLevel", d' !! "fuelCapacity", d' !! "fuelPercentage",
         type <$> aiSuggestions (self s)))
  = Some (Some (VNum 18.7), Some (VNum 50), Some (VNum 40), ["defense"]).
Proof. vm_compute. reflexivity. Qed.

End Reset.

Section Ordinals.
Import JS Telemetry Processor.

(** The ending of an English ordinal. *)
Definition ordinal (n : Z) : string :=
  if decide (n `mod` 100 = 11 ∨ n `mod` 100 = 12 ∨ n `mod` 100 = 13)%Z then "th"
  else if decide (n `mod` 10 = 1)%Z then "st"
  else if decide (n `mod` 10 = 2)%Z then "nd"
  else if decide (n `mod` 10 = 3)%Z then "rd"
  else "th".

(** X20.  For an integer position that is not negative, [getPositionSuffix]
    puts the English ordinal ending after the digits: [st], [nd] and [rd]
    after a last digit 1, 2 and 3, except [th] after 11, 12 and 13 as the
    last two digits, and [th] otherwise.  A negative position always gets
    [th]. *)
Theorem position_suffix_is_the_ordinal (position : Z) :
  getPositionSuffix position =
    pretty position +:+ (if (0 <=? position)%Z then ordinal position else "th").
Proof.
  unfold getPositionSuffix, ordinal.
  destruct (Z.leb_spec 0 position) as [Hpos|Hneg].
  - rewrite !Z.rem_mod_nonneg by lia.
    pose proof (Z.mod_pos_bound position 100 ltac:(lia)) as H100.
    pose proof (Z.mod_pos_bound position 10 ltac:(lia)) as H10.
    destruct (decide (position `mod` 100 = 11 ∨ position `mod` 100 = 12
                      ∨ position `mod` 100 = 13)%Z) as [H|H].
    + replace ((11 <=? position `mod` 100)%Z && (position `mod` 100 <=? 13)%Z) with true;
        [done|]. symmetry. apply andb_true_iff. split; apply Z.leb_le; lia.
    + replace ((11 <=? position `mod` 100)%Z && (position `mod` 100 <=? 13)%Z) with false.
      2:{ symmetry. apply andb_false_iff.
          destruct (Z.leb_spec 11 (position `mod` 100)); [right|by left].
          apply Z.leb_gt. lia. }
      replace (0 <=? position `mod` 10)%Z with true by (symmetry; apply Z.leb_le; lia).
      assert (Hd : (position `mod` 10 = 0 ∨ position `mod` 10 = 1 ∨ position `mod` 10 = 2
                    ∨ position `mod` 10 = 3 ∨ 4 ≤ position `mod` 10 < 10)%Z) by lia.
      destruct Hd as [Hd|[Hd|[Hd|[Hd|Hd]]]]; try (rewrite Hd; reflexivity).
      repeat (rewrite decide_False by lia).
      replace (suffixes !! Z.to_nat (position `mod` 10)) with (@None string); [done|].
      symmetry. apply lookup_ge_None_2. cbn. lia.
  - pose proof (Z.rem_bound_pos_neg position 100 ltac:(lia) ltac:(lia)) as H100.
    pose proof (Z.rem_bound_pos_neg position 10 ltac:(lia) ltac:(lia)) as H10.
    replace ((11 <=? Z.rem position 100)%Z) with false by (symmetry; apply Z.leb_gt; lia).
    cbn [andb].
    destruct (Z.leb_spec 0 (Z.rem position 10)); [|done].
    by replace (Z.rem position 10) with 0%Z by lia.
Qed.

Example position_suffixes :
  getPositionSuffix <$> [1; 2; 3; 4; 11; 12; 13; 21; 22; 23; 101; 111; 112; 0; -1]%Z =
    ["1st"; "2nd"; "3rd"; "4th"; "11th"; "12th"; "13th"; "21st"; "22nd"; "23rd";
     "101st"; "111th"; "112th"; "0th"; "-1th"].
Proof. vm_compute. reflexivity. Qed.

End Ordinals.

Section Pipeline.
Import JS Telemetry Processor.

Lemma updateHistory_keeps (timestamp : value) (now : float) (p p' : TelemetryProcessor) :
  updateHistory timestamp now p = Some p' →
  currentData p' = currentData p ∧ aiSuggestions p' = aiSuggestions p.
Proof.
  unfold updateHistory. intros H.
  apply bind_Some in H as (tires & _ & H). apply bind_Some in H as (rings & _ & H).
  by injection H as <-.
Qed.


Lemma wellTyped_field (d : gmap string value) (k : string) :
  wellTyped d → k ∈ numericKeys → numeric (field d k).
Proof. intros [Hk _] Hin. by apply (proj1 (Forall_forall _ _) Hk). Qed.



End Pipeline.

Section PipelineWitness.
Import JS Telemetry Processor.





End PipelineWitness.

(** ** The simulation *)

Section Simulation.
Import JS Telemetry Processor.

(** A number that is NaN or lies between two bounds. *)
Definition inRange (lo hi x : float) : Prop :=
  PrimFloat.is_nan x = false → PrimFloat.leb lo x = true ∧ PrimFloat.leb x hi = true.

Lemma is_nan_cases (x : float) : PrimFloat.is_nan x = true ∨ PrimFloat.is_nan x = false.
Proof. destruct (PrimFloat.is_nan x); auto. Qed.

Lemma clamp_inRange (lo hi x : float) :
  PrimFloat.is_nan lo = false → PrimFloat.is_nan hi = false →
  PrimFloat.ltb hi lo = false → inRange lo hi (clamp lo hi x).
Proof.
  intros Hlo Hhi Hord Hnan. destruct (is_nan_cases x) as [Hx|Hx].
  - by rewrite (clamp_nan lo hi x Hx) in Hnan.
  - by destruct (clamp_range lo hi x Hlo Hhi Hord Hx) as (_ & ? & ?).
Qed.

Lemma max2_floor (lo x : float) :
  PrimFloat.is_nan lo = false → PrimFloat.is_nan (max2 lo x) = false →
  PrimFloat.leb lo (max2 lo x) = true.
Proof.
  intros Hlo. unfold max2. rewrite Hlo. cbn [orb].
  destruct (PrimFloat.is_nan x) eqn:Hx; [done|].
  destruct (PrimFloat.ltb lo x) eqn:H1.
  { intros _. apply leb_of_not_ltb; [done..|]. by apply ltb_asym. }
  destruct (PrimFloat.ltb x lo) eqn:H2.
  { intros _. apply leb_of_not_ltb; [done..|]. apply ltb_irrefl. }
  destruct (_ && _); intros _; apply leb_of_not_ltb; try done. apply ltb_irrefl.
Qed.

Lemma js_add_numeric (v : value) (y : float) :
  numeric v → ∃ x, ToNumber v = Some x ∧ js_add v (VNum y) = Some (x + y)%float.
Proof. intros [x Hx]. exists x. unfold js_add, num_binop. by rewrite Hx. Qed.

Lemma simulateTires_run (random : nat → float) (first : nat) (o : list (string * value)) :
  Forall numeric o.*2 →
  ∃ tires, simulateTires random first o = Some tires ∧
           keys tires = keys o ∧
           Forall numeric tires.*2 ∧
           Forall (λ kv, ∃ x, kv.2 = VNum x ∧ inRange 60 120 x) tires.
Proof.
  revert first. induction o as [|[tire v] o IH]; intros first Ho.
  - exists []. by split_and!.
  - cbn in Ho. apply Forall_cons in Ho as [Hv Ho].
    destruct (js_add_numeric v (jitter (random first) 5) Hv) as (x & _ & Hx).
    destruct (IH (S first) Ho) as (tires & Hrun & Hkeys & Hnum & Hrange).
    cbn [simulateTires]. rewrite Hx. cbn [mbind option_bind]. rewrite Hrun.
    cbn [mbind option_bind]. eexists. split; [reflexivity|]. split_and!.
    + unfold keys in *. cbn. by rewrite Hkeys.
    + cbn. apply Forall_cons_2; [by eexists | done].
    + apply Forall_cons_2; [|done]. eexists. split; [reflexivity|].
      by apply clamp_inRange.
Qed.

Ltac fields :=
  repeat first
    [ rewrite field_insert_eq | rewrite field_insert_ne by done
    | rewrite lookup_insert_eq | rewrite lookup_insert_ne by done ].

(** X22.  One firing of the simulation, on a well-typed snapshot whose
    engine speed and throttle are numbers and whose tires the history
    knows, succeeds whatever the random draws are.  It leaves the speed
    between 0 and 350, the engine speed between 1000 and 15000, the throttle
    between 0 and 100, every tire temperature between 60 and 120 and the
    fuel level at 0 or more, unless the value is NaN; it then computes the
    derived values, records the snapshot in the history under the time of
    the clock, and calls every update callback once.  The suggestions are
    not recomputed. *)
Theorem simulation_keeps_values_in_range (random : nat → float) (now : float) (s : state) :
  let p := self s in
  let N := maxHistoryLength p in
  wellTyped (currentData p) →
  numeric (field (currentData p) "rpm") → numeric (field (currentData p) "throttle") →
  (0 < N)%Z → bounded N (dataHistory p) →
  tiresKnown (dataHistory p) (mkRecording (currentData p) VUndefined now) →
  ∃ s' sp rp th fu o,
    simulate random now s = Some s' ∧
    let d' := currentData (self s') in
    field d' "speed" = VNum sp ∧ inRange 0 350 sp ∧
    field d' "rpm" = VNum rp ∧ inRange 1000 15000 rp ∧
    field d' "throttle" = VNum th ∧ inRange 0 100 th ∧
    field d' "fuelLevel" = VNum fu ∧
    (PrimFloat.is_nan fu = false → PrimFloat.leb 0 fu = true) ∧
    field d' "tireTemps" = VObj o ∧
    Forall (λ kv, ∃ x, kv.2 = VNum x ∧ inRange 60 120 x) o ∧
    dataHistory (self s') =
      fifoRecord N (dataHistory p) (mkRecording d' VUndefined now) ∧
    aiSuggestions (self s') = aiSuggestions p ∧
    notifications s' = notifications s ++ round s'.
Proof.
  intros p N Hd Hrpm Hth HN Hb (o & Ho & Hnd & Hknown). cbn [rec_data] in Ho.
  pose proof Hd as [Hkeys (temps & Htemps & Hnum)].
  rewrite Ho in Htemps. injection Htemps as <-.
  assert (Hk : ∀ k, k ∈ numericKeys → numeric (field (currentData p) k)).
  { intros k. by apply wellTyped_field. }
  destruct (js_add_numeric _ (jitter (random 0) 20) (Hk "speed" ltac:(compute_done)))
    as (x1 & _ & Hx1).
  destruct (js_add_numeric _ (jitter (random 1) 1000) Hrpm) as (x2 & _ & Hx2).
  destruct (js_add_numeric _ (jitter (random 2) 20) Hth) as (x3 & _ & Hx3).
  destruct (Hk "fuelLevel" ltac:(compute_done)) as (x4 & Hx4).
  destruct (simulateTires_run random 3 o Hnum) as (tires & Htires & Hkt & Hnt & Hrange).
  set (dT := <["tireTemps" := VObj tires]>
               (<["fuelLevel" := VNum (max2 0 (x4 - 0.01))]>
                  (<["throttle" := VNum (clamp 0 100 (x3 + jitter (random 2) 20))]>
                     (<["rpm" := VNum (clamp 1000 15000 (x2 + jitter (random 1) 1000))]>
                        (<["rpm" := VNum (x2 + jitter (random 1) 1000)]>
                           (<["speed" := VNum (clamp 0 350 (x1 + jitter (random 0) 20))]>
                              (<["speed" := VNum (x1 + jitter (random 0) 20)]>
                                 (currentData p)))))))).
  assert (HdT : wellTyped dT).
  { split.
    - unfold numericKeys. repeat apply Forall_cons_2; try apply Forall_nil_2;
        subst dT; fields; try (by eexists);
        by apply Hk; compute_done.
    - subst dT. fields. exists tires.*2. by split. }
  destruct (calculateDerivedValues_wellTyped dT HdT) as (d' & Hd' & Hwt).
  assert (Hsame : ∀ k, k ∉ derivedKeys → field d' k = field dT k).
  { intros k Hnk. unfold field. by rewrite (calculateDerivedValues_frame dT d' k Hd' Hnk). }
  set (p0 := {| currentData := d'; dataHistory := dataHistory p;
                maxHistoryLength := maxHistoryLength p;
                aiSuggestions := aiSuggestions p |}).
  destruct (record_step (mkRecording d' VUndefined now) p0) as (p1 & Hrec & HN1 & Hh1);
    [done | done | |].
  { exists tires. cbn [rec_data]. rewrite Hsame by compute_done. subst dT. fields.
    split_and!; [done | by rewrite Hkt |]. intros tire Ht. apply Hknown. by rewrite <- Hkt. }
  assert (Hup : updateHistory VUndefined now p0 = Some p1) by exact Hrec.
  destruct (updateHistory_keeps _ _ _ _ Hup) as [Hcur Hsugg].
  exists (notifyUpdateCallbacks (with_self p1 s)),
    (clamp 0 350 (x1 + jitter (random 0) 20)),
    (clamp 1000 15000 (x2 + jitter (random 1) 1000)),
    (clamp 0 100 (x3 + jitter (random 2) 20)),
    (max2 0 (x4 - 0.01)), tires.
  split.
  { unfold simulate. fold p. rewrite Hx1. cbn [mbind option_bind]. fields.
    cbn [ToNumber mbind option_bind]. fields. rewrite Hx2. cbn [mbind option_bind]. fields.
    cbn [ToNumber mbind option_bind]. fields. rewrite Hx3. cbn [mbind option_bind]. fields.
    rewrite Hx4. cbn [mbind option_bind]. fields. rewrite Ho, Htires.
    cbn [mbind option_bind]. fold dT. rewrite Hd'. cbn [mbind option_bind].
    fold p0. by rewrite Hup. }
  rewrite notifyUpdateCallbacks_run.
  cbn [self with_self currentData dataHistory maxHistoryLength aiSuggestions
       updateCallbacks notifications].
  rewrite Hcur. cbn [p0 currentData].
  rewrite !Hsame by compute_done. subst dT. fields.
  split_and!; try done; try (by apply clamp_inRange).
  by apply max2_floor.
Qed.

Lemma newState_tiresKnown (timestamp : value) (now : float) :
  tiresKnown (dataHistory (self newState))
    (mkRecording (currentData (self newState)) timestamp now).
Proof. apply demoData_tiresKnown. Qed.

(** Witness for X22: one firing on a new processor, with draws that push
    every value up. *)
Lemma simulation_keeps_values_in_range_witness :
  let s := newState in
  let p := self s in
  ∃ s' sp rp th fu o,
    simulate (λ _, 0.999%float) 7 s = Some s' ∧
    let d' := currentData (self s') in
    field d' "speed" = VNum sp ∧ inRange 0 350 sp ∧
    field d' "rpm" = VNum rp ∧ inRange 1000 15000 rp ∧
    field d' "throttle" = VNum th ∧ inRange 0 100 th ∧
    field d' "fuelLevel" = VNum fu ∧
    (PrimFloat.is_nan fu = false → PrimFloat.leb 0 fu = true) ∧
    field d' "tireTemps" = VObj o ∧
    Forall (λ kv, ∃ x, kv.2 = VNum x ∧ inRange 60 120 x) o ∧
    dataHistory (self s') =
      fifoRecord (maxHistoryLength p) (dataHistory p) (mkRecording d' VUndefined 7) ∧
    aiSuggestions (self s') = aiSuggestions p ∧
    notifications s' = notifications s ++ round s'.
Proof.
  apply (simulation_keeps_values_in_range (λ _, 0.999%float) 7 newState).
  - exact demoData_wellTyped.
  - by eexists.
  - by eexists.
  - reflexivity.
  - exact newProcessor_bounded.
  - apply newState_tiresKnown.
Defined.

(** Forty firings with the highest draws: the throttle, 94 at first, is
    held at 100. *)
Example simulated_throttle_is_capped :
  (s ← Nat.iter 40 (λ s, s ≫= simulate (λ _, 0.999%float) 7) (Some newState);
   Some (field (currentData (self s)) "throttle",
         length (timestamps (dataHistory (self s)))))
  = Some (VNum 100, 40).
Proof. vm_compute. reflexivity. Qed.

End Simulation.

(** ** Formatting of times and deltas *)

Section Formatting.
Import JS Processor.

Local Open Scope Z_scope.

(** *** Strings *)

Lemma append_cons (x : Ascii.ascii) (a b : string) : String x a +:+ b = String x (a +:+ b).
Proof. reflexivity. Qed.

Lemma append_assoc (a b c : string) : (a +:+ b) +:+ c = a +:+ (b +:+ c).
Proof. induction a as [|x a IH]; [done|]. rewrite !append_cons. by f_equal. Qed.

Lemma length_append (a b : string) :
  String.length (a +:+ b) = (String.length a + String.length b)%nat.
Proof.
  induction a as [|x a IH]; [done|]. rewrite append_cons. cbn [String.length Nat.add].
  by f_equal.
Qed.

Lemma substring_all (b : string) : String.substring 0 (String.length b) b = b.
Proof. induction b as [|x b IH]; [done|]. cbn [String.length String.substring]. by f_equal. Qed.

Lemma substring_prefix (a b : string) :
  String.substring 0 (String.length a) (a +:+ b) = a.
Proof.
  induction a as [|x a IH]; [by destruct b|].
  rewrite append_cons. cbn [String.length String.substring]. by f_equal.
Qed.

Lemma substring_suffix (a b : string) :
  String.substring (String.length a) (String.length b) (a +:+ b) = b.
Proof.
  induction a as [|x a IH]; [apply substring_all|].
  rewrite append_cons. by cbn [String.length String.substring].
Qed.

(** *** Decimal digits *)

(** The character of the decimal digit [d]. *)
Definition digit (d : Z) : Ascii.ascii := Ascii.ascii_of_N (48 + Z.to_N d).

(** The last [k] decimal digits of [z ≥ 0], the most significant first. *)
Fixpoint digits (k : nat) (z : Z) : string :=
  match k with
  | O => ""
  | S k' => String (digit (z / 10 ^ Z.of_nat k' mod 10)) (digits k' z)
  end.

Lemma length_digits (k : nat) (z : Z) : String.length (digits k z) = k.
Proof. induction k as [|k IH]; [done|]. cbn [digits String.length]. by f_equal. Qed.

Lemma pretty_N_char_digit (y : N) :
  (y < 10)%N → pretty_N_char y = digit (Z.of_N y).
Proof.
  intros Hy. destruct y as [|p]; [done|].
  do 4 (try destruct p as [p|p|]); try reflexivity; lia.
Qed.

Lemma pretty_N_go_app (x : N) (s : string) :
  pretty_N_go x s = pretty_N_go x "" +:+ s.
Proof.
  revert s. induction (N.lt_wf_0 x) as [x _ IH]. intros s.
  destruct (decide (x = 0)%N) as [->|Hx]; [by rewrite !pretty_N_go_0|].
  rewrite !(pretty_N_go_step x) by lia.
  assert (Hlt : (x `div` 10 < x)%N) by (apply N.div_lt; lia).
  rewrite (IH _ Hlt (String _ s)), (IH _ Hlt (String _ "")).
  by rewrite append_assoc.
Qed.

(** The digits of a number are those of its tenth followed by its last
    digit. *)
Lemma pretty_N_step (x : N) :
  (10 ≤ x)%N →
  pretty x = pretty (x `div` 10)%N +:+ String (pretty_N_char (x `mod` 10)) "".
Proof.
  intros Hx. unfold pretty, pretty_N.
  destruct (decide (x = 0)%N); [lia|].
  destruct (decide (x `div` 10 = 0)%N) as [H0|_].
  { apply N.div_small_iff in H0; lia. }
  rewrite (pretty_N_go_step x) by lia. apply pretty_N_go_app.
Qed.

Lemma pretty_Z_N (n : Z) : 0 ≤ n → pretty n = pretty (Z.to_N n).
Proof. intros Hn. destruct n; [done | done | lia]. Qed.

Lemma pretty_nonempty (n : Z) : 0 ≤ n → (1 ≤ String.length (pretty n))%nat.
Proof.
  intros Hn. rewrite pretty_Z_N by done. generalize (Z.to_N n). clear. intros x.
  unfold pretty, pretty_N. destruct (decide (x = 0)%N); [cbn; lia|].
  rewrite (pretty_N_go_step x) by lia. rewrite pretty_N_go_app, length_append.
  cbn. lia.
Qed.

(** From 1000 on, the digits of a number are those of its thousands
    followed by its last three digits. *)
Lemma pretty_thousands (n : Z) :
  1000 ≤ n → pretty n = pretty (n / 1000) +:+ digits 3 n.
Proof.
  intros Hn.
  rewrite (pretty_Z_N n), (pretty_Z_N (n / 1000)) by (try apply Z.div_pos; lia).
  rewrite <- (Z2N.id n) at 3 by lia.
  replace (Z.to_N (n / 1000)) with (Z.to_N n `div` 1000)%N
    by (rewrite Z2N.inj_div by lia; done).
  assert (Hx : (1000 ≤ Z.to_N n)%N) by lia.
  generalize dependent (Z.to_N n). clear. intros x Hx.
  rewrite (pretty_N_step x) by lia.
  rewrite (pretty_N_step (x `div` 10)%N)
    by (apply N.div_le_lower_bound; lia).
  rewrite (pretty_N_step ((x `div` 10) `div` 10)%N)
    by (do 2 (apply N.div_le_lower_bound; [lia|]); lia).
  rewrite !N.Div0.div_div. change (10 * 10 * 10)%N with 1000%N.
  change (10 * 10)%N with 100%N.
  rewrite !append_assoc. f_equal. rewrite !append_cons. cbn [digits].
  rewrite !pretty_N_char_digit by (apply N.mod_lt; lia).
  change (10 ^ Z.of_nat 2) with 100. change (10 ^ Z.of_nat 1) with 10.
  change (10 ^ Z.of_nat 0) with 1.
  assert (H2 : Z.of_N ((x `div` 100) `mod` 10) = Z.of_N x / 100 mod 10)
    by (zify; Z.to_euclidean_division_equations; lia).
  assert (H1 : Z.of_N ((x `div` 10) `mod` 10) = Z.of_N x / 10 mod 10)
    by (zify; Z.to_euclidean_division_equations; lia).
  assert (H0 : Z.of_N (x `mod` 10) = Z.of_N x / 1 mod 10)
    by (zify; Z.to_euclidean_division_equations; lia).
  by rewrite H2, H1, H0.
Qed.

Lemma padded_below_1000 (n : Z) :
  0 ≤ n < 1000 → padStart 4 (pretty n) = "0" +:+ digits 3 n.
Proof.
  intros Hn.
  assert (H : forallb (λ k, bool_decide (padStart 4 (pretty (Z.of_nat k))
                                         = "0" +:+ digits 3 (Z.of_nat k)))
                (seq 0 1000) = true) by (vm_compute; reflexivity).
  rewrite forallb_forall in H.
  assert (Hin : In (Z.to_nat n) (seq 0 1000)) by (apply in_seq; lia).
  apply H in Hin. rewrite Z2Nat.id in Hin by lia.
  by apply bool_decide_eq_true in Hin.
Qed.

(** [toFixed(3)] prints the thousands of [n], a point and the last three
    digits of [n]. *)
Lemma fixed3_digits (num den : Z) :
  0 ≤ num → 0 < den →
  let n := (2000 * num + den) / (2 * den) in
  fixed3 num den = pretty (n / 1000) +:+ "." +:+ digits 3 n.
Proof.
  intros Hnum Hden n. unfold fixed3. fold n.
  assert (Hn : 0 ≤ n) by (apply Z.div_pos; lia).
  destruct (decide (n < 1000)) as [Hlt|Hge].
  - rewrite padded_below_1000 by lia.
    rewrite Z.div_small by lia. reflexivity.
  - rewrite (pretty_thousands n) by lia.
    pose proof (pretty_nonempty (n / 1000)) as Hl.
    specialize (Hl ltac:(apply Z.div_pos; lia)).
    unfold padStart. rewrite !length_append, length_digits.
    replace (4 - _)%nat with 0%nat by lia. cbn [zeros].
    change ("" +:+ ?s) with s. cbn [String.length Nat.add].
    replace (_ + 3 - 3)%nat with (String.length (pretty (n / 1000))) by lia.
    rewrite substring_prefix.
    pose proof (substring_suffix (pretty (n / 1000)) (digits 3 n)) as Hs.
    rewrite length_digits in Hs. by rewrite Hs.
Qed.

(** *** Finite numbers *)

Lemma exact_positive (m : positive) (e : Z) : 0 < (exact m e).1 ∧ 0 < (exact m e).2.
Proof.
  unfold exact. destruct (Z.leb_spec 0 e); cbn [fst snd].
  - split; [|lia]. apply Z.mul_pos_pos; [lia | by apply Z.pow_pos_nonneg].
  - split; [lia|]. apply Z.pow_pos_nonneg; lia.
Qed.

Lemma finite_truthy (x : float) (s : bool) (m : positive) (e : Z) :
  Prim2SF x = S754_finite s m e → truthy (VNum x) = true.
Proof.
  intros Hx. cbn [truthy].
  assert (Hnan : PrimFloat.is_nan x = false).
  { apply is_nan_spec. rewrite Hx. unfold SFcompare.
    rewrite Z.compare_refl, Pos.compare_cont_refl. by destruct s. }
  assert (Hz : PrimFloat.is_zero x = false).
  { unfold PrimFloat.is_zero. rewrite FloatAxioms.eqb_spec, Hx.
    replace (Prim2SF 0) with (S754_zero false) by reflexivity. by destruct s. }
  by rewrite Hnan, Hz.
Qed.

Lemma finite_sign (x : float) (s : bool) (m : positive) (e : Z) :
  Prim2SF x = S754_finite s m e →
  PrimFloat.ltb 0 x = negb s ∧ PrimFloat.leb x 0 = s.
Proof.
  intros Hx. rewrite FloatAxioms.ltb_spec, FloatAxioms.leb_spec, Hx.
  replace (Prim2SF 0) with (S754_zero false) by reflexivity. by destruct s.
Qed.

(** The integer nearest to [1000 · num / den], the larger of two that are
    equally near. *)
Lemma nearest_thousandth (num den : Z) :
  0 < den →
  let n := (2000 * num + den) / (2 * den) in
  2 * n * den ≤ 2000 * num + den < 2 * (n + 1) * den.
Proof.
  intros Hden n.
  pose proof (Z.mul_div_le (2000 * num + den) (2 * den) ltac:(lia)) as H1.
  pose proof (Z.mul_succ_div_gt (2000 * num + den) (2 * den) ltac:(lia)) as H2.
  fold n in H1, H2. lia.
Qed.

(** Below 100, [padStart(6, '0')] makes two digits of the whole seconds. *)
Lemma pad_seconds (q : Z) (t : string) :
  0 ≤ q < 100 → String.length t = 4%nat →
  padStart 6 (pretty q +:+ t) = digits 2 q +:+ t.
Proof.
  intros Hq Ht.
  assert (H : forallb (λ k, bool_decide (pretty (Z.of_nat k) =
                              if (k <? 10)%nat then digits 1 (Z.of_nat k)
                              else digits 2 (Z.of_nat k)))
                (seq 0 100) = true) by (vm_compute; reflexivity).
  rewrite forallb_forall in H.
  assert (Hin : In (Z.to_nat q) (seq 0 100)) by (apply in_seq; lia).
  apply H in Hin. rewrite Z2Nat.id in Hin by lia.
  apply bool_decide_eq_true in Hin. rewrite Hin.
  unfold padStart. rewrite length_append, Ht.
  destruct (Nat.ltb_spec (Z.to_nat q) 10) as [Hlt|Hge].
  - rewrite length_digits. cbn [Nat.add Nat.sub zeros].
    cbn [digits]. rewrite !append_cons. change (10 ^ Z.of_nat 1) with 10.
    by rewrite (Z.div_small q 10) by lia.
  - rewrite length_digits. reflexivity.
Qed.

(** X23.  For a delta that is a finite number other than zero, of magnitude
    below 10^21, [formatDelta] gives the sign, [+] for a positive and [-]
    for a negative delta, and then the magnitude in thousandths: with [n]
    the integer nearest to 1000 times the magnitude (the larger of two that
    are equally near), all digits of [n] but the last three, or [0] when
    there is none, a point and the last three digits of [n].  So a delta
    that is not zero always carries its sign, also when it is shown as
    [0.000]. *)
Theorem delta_is_signed_and_rounded (x : float) (s : bool) (m : positive) (e : Z) :
  Prim2SF x = S754_finite s m e →
  (exact m e).1 < 10 ^ 21 * (exact m e).2 →
  ∃ n, 0 ≤ n ∧
       2 * n * (exact m e).2 ≤ 2000 * (exact m e).1 + (exact m e).2
                             < 2 * (n + 1) * (exact m e).2 ∧
       formatDelta (VNum x) =
         Some ((if s then "-" else "+") +:+ pretty (n / 1000) +:+ "." +:+ digits 3 n).
Proof.
  intros Hx Hlt. destruct (exact_positive m e) as [Hnum Hden].
  unfold formatDelta, toFixed3. rewrite (finite_truthy x s m e Hx).
  destruct (finite_sign x s m e Hx) as [-> _]. rewrite Hx.
  destruct (exact m e) as [num den]. cbn [fst snd] in *.
  replace (10 ^ 21 * den <=? num) with false by (symmetry; apply Z.leb_gt; lia).
  exists ((2000 * num + den) / (2 * den)). split; [apply Z.div_pos; lia|].
  split; [by apply nearest_thousandth|].
  cbn [negb mbind option_bind]. rewrite fixed3_digits by lia.
  by destruct s.
Qed.

(** Witness for X23: a delta of four tenths of a thousandth below zero. *)
Lemma delta_is_signed_and_rounded_witness :
  ∃ n, 0 ≤ n ∧
       2 * n * (exact 7378697629483821 (-64)).2
         ≤ 2000 * (exact 7378697629483821 (-64)).1 + (exact 7378697629483821 (-64)).2
         < 2 * (n + 1) * (exact 7378697629483821 (-64)).2 ∧
       formatDelta (VNum (-0.0004)) =
         Some ("-" +:+ pretty (n / 1000) +:+ "." +:+ digits 3 n).
Proof.
  apply (delta_is_signed_and_rounded (-0.0004) true 7378697629483821 (-64)).
  - vm_compute. reflexivity.
  - vm_compute. reflexivity.
Defined.

(** The sign is shown only on a delta that is not zero, and the digits are
    those of the number that the engine holds: 1.0005 is held as a number
    slightly below it. *)
Example formatDelta_examples :
  formatDelta <$> [VNum 0.25; VNum (-1.2345); VNum 1.0005; VNum 0.0004; VNum (-0.0004);
                   VNum 0; VNum (-0); VNum nan; VNull; VUndefined;
                   VNum neg_infinity; VBool true; VStr "0.5"] =
    [Some "+0.250"; Some "-1.234"; Some "+1.000"; Some "+0.000"; Some "-0.000";
     Some "0.000"; Some "0.000"; Some "0.000"; Some "0.000"; Some "0.000";
     Some "-Infinity"; None; None].
Proof. vm_compute. reflexivity. Qed.

(** X24.  For a time that is a positive finite number, [formatTime] gives
    the minutes, a colon and the seconds left over in thousandths: with [n]
    the integer nearest to 1000 times the remainder of the time by 60 (the
    larger of two that are equally near), two digits for [n / 1000], a point
    and the last three digits of [n].  [n] can reach 60000: a time within
    half a thousandth below a full minute is shown with [60.000] seconds
    and the minute not carried. *)
Theorem time_is_minutes_and_rounded_seconds (seconds : value) (x : float)
    (m : positive) (e : Z) (minutes : string) :
  truthy seconds = true → ToNumber seconds = Some x →
  Prim2SF x = S754_finite false m e →
  floorText (x / 60) = Some minutes →
  let den := (exact m e).2 in
  let r := (exact m e).1 mod (60 * den) in
  ∃ n, 0 ≤ n ≤ 60000 ∧
       2 * n * den ≤ 2000 * r + den < 2 * (n + 1) * den ∧
       formatTime seconds =
         Some (minutes +:+ ":" +:+ digits 2 (n / 1000) +:+ "." +:+ digits 3 n).
Proof.
  intros Ht Hn Hx Hmin den r. destruct (exact_positive m e) as [Hnum Hden].
  fold den in Hden.
  assert (Hr : 0 ≤ r < 60 * den) by (apply Z.mod_pos_bound; lia).
  pose proof (nearest_thousandth r den Hden) as Hnear. cbv zeta in Hnear.
  set (n := (2000 * r + den) / (2 * den)) in *.
  assert (H0 : 0 ≤ n) by (apply Z.div_pos; lia).
  assert (H60 : n ≤ 60000) by nia.
  exists n. split; [done|]. split; [done|].
  unfold formatTime. rewrite Ht, Hn. cbn [negb mbind option_bind].
  destruct (finite_sign x false m e Hx) as [_ ->]. rewrite Hmin.
  cbn [mbind option_bind]. unfold remFixed3. rewrite Hx.
  subst den r. destruct (exact m e) as [num den]. cbn [fst snd] in *.
  cbn [andb]. change ("" +:+ ?s) with s.
  rewrite fixed3_digits by lia. fold n.
  rewrite pad_seconds; [done | |].
  - split; [apply Z.div_pos; lia|]. apply Z.div_lt_upper_bound; lia.
  - rewrite append_cons. cbn [String.length]. change ("" +:+ ?s) with s.
    by rewrite length_digits.
Qed.

(** Witness for X24: four tenths of a thousandth below one minute. *)
Lemma time_is_minutes_and_rounded_seconds_witness :
  let den := (exact 8444193006324338 (-47)).2 in
  let r := (exact 8444193006324338 (-47)).1 mod (60 * den) in
  ∃ n, 0 ≤ n ≤ 60000 ∧
       2 * n * den ≤ 2000 * r + den < 2 * (n + 1) * den ∧
       formatTime (VNum 59.9996) =
         Some ("0" +:+ ":" +:+ digits 2 (n / 1000) +:+ "." +:+ digits 3 n).
Proof.
  apply (time_is_minutes_and_rounded_seconds (VNum 59.9996) 59.9996
           8444193006324338 (-47) "0").
  - reflexivity.
  - reflexivity.
  - vm_compute. reflexivity.
  - vm_compute. reflexivity.
Defined.

(** The seconds of 59.9996 are rounded to 60.000 below a minute count of 0;
    times that are zero, negative, NaN or missing are all shown as zero. *)
Example formatTime_examples :
  formatTime <$> [VNum 83.456; VNum 3725.5; VNum 59.9996; VNum 119.9999; VNum 0.0004;
                  VBool true; VNum 0; VNum (-3); VNum nan; VNull; VUndefined;
                  VNum infinity] =
    [Some "1:23.456"; Some "62:05.500"; Some "0:60.000"; Some "1:60.000"; Some "0:00.000";
     Some "0:01.000"; Some "0:00.000"; Some "0:00.000"; Some "0:00.000"; Some "0:00.000";
     Some "0:00.000"; Some "Infinity:000NaN"].
Proof. vm_compute. reflexivity. Qed.

End Formatting.
